(** * Employee directory: data access, search, pagination and validation

    A shallow embedding of the backend of the employee-management
    application (Express + SQLite) and of the client-side validator:

    - [JS]                 the JavaScript string and number operations the
                           code relies on ([trim], [toLowerCase], [parseInt],
                           truthiness);
    - [Regex]              the regular expressions of the validators, with a
                           derivative matcher and its language;
    - [Sqlite]             the behaviour of the storage engine on the
                           statements the code issues, its errors included;
    - [Database]           [backend/src/database/index.ts];
    - [EmployeeService]    [backend/src/services/employeeService.ts];
    - [Validation]         [backend/src/middleware/validation.ts];
    - [EmployeeValidator]  [frontend/.../validators/employee.validator.ts];
    - [EmployeeController] [backend/src/controllers/employeeController.ts].

    Strings are lists of characters, one [ascii] per UTF-16 code unit, read
    as the code points U+0000..U+00FF.  Numbers are integers or [NaN]; the
    model is exact for the integers a double represents exactly.  Text
    values are taken to be within the length the engine binds and stores
    (1,000,000,000 bytes). *)

From Stdlib Require Import String Ascii List ZArith NArith Lia Bool Permutation.
Import ListNotations.

(* ===================================================================== *)
(** ** JavaScript values *)
(* ===================================================================== *)

Module JS.

Definition jsstring := list ascii.

(** A string literal of the source. *)
Definition js (s : string) : jsstring := list_ascii_of_string s.

Definition code (c : ascii) : N := N_of_ascii c.

Definition str_eqb (a b : jsstring) : bool :=
  if list_eq_dec ascii_dec a b then true else false.

(** WhiteSpace and LineTerminator code points below U+0100: TAB, LF, VT,
    FF, CR, SPACE and NO-BREAK SPACE.  This is the class [\s] of a regular
    expression and the set [String.prototype.trim] strips. *)
Definition is_whitespace (c : ascii) : bool :=
  let n := code c in
  (((9 <=? n) && (n <=? 13)) || (n =? 32) || (n =? 160))%N.

Fixpoint trimStart (s : jsstring) : jsstring :=
  match s with
  | [] => []
  | c :: s' => if is_whitespace c then trimStart s' else s
  end.

Definition trimEnd (s : jsstring) : jsstring := rev (trimStart (rev s)).

Definition trim (s : jsstring) : jsstring := trimEnd (trimStart s).

(** Lower-case mapping of one code point below U+0100: A-Z, and the
    Latin-1 capitals U+00C0..U+00DE except the multiplication sign. *)
Definition lower_char (c : ascii) : ascii :=
  let n := code c in
  if (((65 <=? n) && (n <=? 90))
      || ((192 <=? n) && (n <=? 222) && negb (n =? 215)))%N
  then ascii_of_N (n + 32) else c.

Definition toLowerCase (s : jsstring) : jsstring := map lower_char s.

(** [Boolean(s)] for a string: the empty string is falsy. *)
Definition truthy_str (s : jsstring) : bool :=
  match s with [] => false | _ :: _ => true end.

(** An optional string property: [undefined] is falsy. *)
Definition truthy_opt_str (o : option jsstring) : bool :=
  match o with None => false | Some s => truthy_str s end.

Inductive jsnum := NaN | Num (z : Z).

(** [Boolean(n)]: [0] and [NaN] are falsy. *)
Definition truthy_num (n : jsnum) : bool :=
  match n with NaN => false | Num z => negb (z =? 0)%Z end.

Definition truthy_opt_num (o : option jsnum) : bool :=
  match o with None => false | Some n => truthy_num n end.

Definition digit_value (c : ascii) : option Z :=
  let n := Z.of_N (code c) in
  if ((48 <=? n) && (n <=? 57))%Z then Some (n - 48)%Z
  else if ((97 <=? n) && (n <=? 122))%Z then Some (n - 87)%Z
  else if ((65 <=? n) && (n <=? 90))%Z then Some (n - 55)%Z
  else None.

(** The longest prefix of digits of the radix, as a number; [None] when
    the prefix is empty. *)
Fixpoint parse_digits (radix : Z) (s : jsstring) (acc : option Z) : option Z :=
  match s with
  | [] => acc
  | c :: s' =>
      match digit_value c with
      | Some d =>
          if (d <? radix)%Z
          then parse_digits radix s'
                 (Some (match acc with None => d | Some a => a * radix + d end)%Z)
          else acc
      | None => acc
      end
  end.

(** [parseInt(s)] with no radix argument. *)
Definition parseInt (s : jsstring) : jsnum :=
  let s0 := trimStart s in
  let '(sign, s1) :=
    match s0 with
    | "-"%char :: r => ((-1)%Z, r)
    | "+"%char :: r => (1%Z, r)
    | _ => (1%Z, s0)
    end in
  let '(radix, s2) :=
    match s1 with
    | "0"%char :: "x"%char :: r => (16%Z, r)
    | "0"%char :: "X"%char :: r => (16%Z, r)
    | _ => (10%Z, s1)
    end in
  match parse_digits radix s2 None with
  | None => NaN
  | Some m => Num (sign * m)
  end.

(** [a || b] on numbers. *)
Definition or_num (a : option jsnum) (b : Z) : Z :=
  match a with
  | Some (Num z) => if (z =? 0)%Z then b else z
  | _ => b
  end.

Fixpoint startsWith (s q : jsstring) : bool :=
  match q, s with
  | [], _ => true
  | _ :: _, [] => false
  | a :: q', b :: s' => Ascii.eqb a b && startsWith s' q'
  end.

(** [s.includes(q)] *)
Fixpoint includes (s q : jsstring) : bool :=
  startsWith s q ||
  match s with
  | [] => false
  | _ :: s' => includes s' q
  end.

(** Values of a parsed JSON body. *)
Inductive jsval :=
| JUndefined
| JNull
| JBool (b : bool)
| JNumber (n : jsnum)
| JString (s : jsstring)
| JObject.

Definition truthy (v : jsval) : bool :=
  match v with
  | JUndefined | JNull => false
  | JBool b => b
  | JNumber n => truthy_num n
  | JString s => truthy_str s
  | JObject => true
  end.

Definition is_undefined (v : jsval) : bool :=
  match v with JUndefined => true | _ => false end.


Definition isNaN (n : jsnum) : bool :=
  match n with NaN => true | Num _ => false end.

Definition digit_char (d : Z) : ascii := ascii_of_N (Z.to_N (48 + d)).

(** The decimal digits of [n], most significant first, in front of [acc];
    [fuel] bounds the number of digits after the first. *)
Fixpoint to_digits (fuel : nat) (n : Z) (acc : jsstring) : jsstring :=
  let acc' := digit_char (n mod 10) :: acc in
  match fuel with
  | O => acc'
  | S f => if (n <? 10)%Z then acc' else to_digits f (n / 10) acc'
  end.

(** [n.toString()] and the text of [n] in a template literal, for an
    integer of magnitude below 10^21 (above, the text has an exponent). *)
Definition toString_int (z : Z) : jsstring :=
  if (z <? 0)%Z
  then "-"%char :: to_digits (Z.to_nat (Z.log2 (- z))) (- z) []
  else to_digits (Z.to_nat (Z.log2 z)) z [].

Definition toString (n : jsnum) : jsstring :=
  match n with
  | NaN => js "NaN"
  | Num z => toString_int z
  end.

End JS.

(* ===================================================================== *)
(** ** Regular expressions *)
(* ===================================================================== *)

Module Regex.

Inductive regex :=
| Void
| Eps
| Class (p : ascii -> bool)
| Cat (r1 r2 : regex)
| Alt (r1 r2 : regex)
| Star (r : regex).

Definition Chr (c : ascii) : regex := Class (Ascii.eqb c).
Definition Opt (r : regex) : regex := Alt Eps r.
Definition Plus (r : regex) : regex := Cat r (Star r).

(** [r{0,n}] *)
Fixpoint UpTo (n : nat) (r : regex) : regex :=
  match n with
  | O => Eps
  | S n' => Opt (Cat r (UpTo n' r))
  end.

Fixpoint nullable (r : regex) : bool :=
  match r with
  | Void => false
  | Eps => true
  | Class _ => false
  | Cat r1 r2 => nullable r1 && nullable r2
  | Alt r1 r2 => nullable r1 || nullable r2
  | Star _ => true
  end.

Fixpoint deriv (c : ascii) (r : regex) : regex :=
  match r with
  | Void => Void
  | Eps => Void
  | Class p => if p c then Eps else Void
  | Cat r1 r2 =>
      if nullable r1
      then Alt (Cat (deriv c r1) r2) (deriv c r2)
      else Cat (deriv c r1) r2
  | Alt r1 r2 => Alt (deriv c r1) (deriv c r2)
  | Star r1 => Cat (deriv c r1) (Star r1)
  end.

(** [/^r$/.test(s)] *)
Fixpoint test (r : regex) (s : list ascii) : bool :=
  match s with
  | [] => nullable r
  | c :: s' => test (deriv c r) s'
  end.

(** [s.replace(/[class]/g, empty)]: every character of the class is
    removed. *)
Definition remove_class (p : ascii -> bool) (s : list ascii) : list ascii :=
  filter (fun c => negb (p c)) s.

(** The language of a regular expression. *)
Inductive lang : regex -> list ascii -> Prop :=
| L_eps : lang Eps []
| L_class (p : ascii -> bool) c : p c = true -> lang (Class p) [c]
| L_cat r1 r2 s1 s2 : lang r1 s1 -> lang r2 s2 -> lang (Cat r1 r2) (s1 ++ s2)
| L_alt_l r1 r2 s : lang r1 s -> lang (Alt r1 r2) s
| L_alt_r r1 r2 s : lang r2 s -> lang (Alt r1 r2) s
| L_star_nil r : lang (Star r) []
| L_star_app r s1 s2 : lang r s1 -> lang (Star r) s2 -> lang (Star r) (s1 ++ s2).

(** Every character class of the expression is included in [q]. *)
Fixpoint classes_within (q : ascii -> bool) (r : regex) : Prop :=
  match r with
  | Void | Eps => True
  | Class p => forall c, p c = true -> q c = true
  | Cat r1 r2 | Alt r1 r2 => classes_within q r1 /\ classes_within q r2
  | Star r1 => classes_within q r1
  end.

End Regex.

(* ===================================================================== *)
(** ** Errors and promises *)
(* ===================================================================== *)

Module Promise.
Import JS.

(** The [Error] objects the code sees: the four the engine raises on the
    statements below, and [new Error(message)] thrown by the service. *)
Inductive error :=
| SqliteSyntaxError
| SqliteUniqueConstraint
| SqliteMismatch
| SqliteLikeTooComplex
| Error (msg : jsstring).

Definition dquote : ascii := ascii_of_nat 34.

Definition message (e : error) : jsstring :=
  match e with
  | SqliteSyntaxError =>
      js "SQLITE_ERROR: near " ++ [dquote] ++ js "OFFSET" ++ [dquote]
        ++ js ": syntax error"
  | SqliteUniqueConstraint =>
      js "SQLITE_CONSTRAINT: UNIQUE constraint failed: employees.email"
  | SqliteMismatch => js "SQLITE_MISMATCH: datatype mismatch"
  | SqliteLikeTooComplex => js "SQLITE_ERROR: LIKE or GLOB pattern too complex"
  | Error m => m
  end.

Inductive promise (A : Type) :=
| Resolve (a : A)
| Reject (e : error).

Arguments Resolve {A} a.
Arguments Reject {A} e.

End Promise.

(* ===================================================================== *)
(** ** The storage engine *)
(* ===================================================================== *)

Module Sqlite.
Import JS Promise.

(** [CURRENT_TIMESTAMP], in seconds: the text format of the engine orders
    as the instants do. *)
Definition timestamp := N.

(** A row of
    [employees (id INTEGER PRIMARY KEY AUTOINCREMENT, name TEXT NOT NULL,
     email TEXT UNIQUE NOT NULL, position TEXT NOT NULL, phone TEXT NOT NULL,
     created_at DATETIME DEFAULT CURRENT_TIMESTAMP,
     updated_at DATETIME DEFAULT CURRENT_TIMESTAMP)]. *)
Record Employee := mkEmployee {
  id : Z;
  name : jsstring;
  email : jsstring;
  position : jsstring;
  phone : jsstring;
  created_at : timestamp;
  updated_at : timestamp
}.

(** The table, in rowid order, and the AUTOINCREMENT counter (the largest
    rowid ever given out). *)
Record table := mkTable {
  rows : list Employee;
  seq : Z
}.

Definition empty_table : table := mkTable [] 0.

(** Case folding of LIKE: the 26 ASCII capitals only. *)
Definition fold_ascii (c : ascii) : ascii :=
  let n := code c in
  if ((65 <=? n) && (n <=? 90))%N then ascii_of_N (n + 32) else c.

Definition char_like (p c : ascii) : bool :=
  Ascii.eqb (fold_ascii p) (fold_ascii c).

(** The matcher of LIKE, no ESCAPE clause: [%] matches any run of
    characters, [_] any one character, any other character itself up to
    ASCII case. *)
Fixpoint patternCompare (pat s : jsstring) : bool :=
  match pat with
  | [] => match s with [] => true | _ :: _ => false end
  | p :: pat' =>
      if Ascii.eqb p "%"
      then (fix any_run (s : jsstring) : bool :=
              patternCompare pat' s ||
              match s with [] => false | _ :: s' => any_run s' end) s
      else match s with
           | [] => false
           | c :: s' =>
               (Ascii.eqb p "_" || char_like p c) && patternCompare pat' s'
           end
  end.

(** The matcher reads pattern and text as C strings: each ends at its
    first U+0000. *)
Fixpoint c_string (s : jsstring) : jsstring :=
  match s with
  | [] => []
  | c :: s' => if (code c =? 0)%N then [] else c :: c_string s'
  end.

(** The value of [s LIKE pat] when the pattern is not refused. *)
Definition like (pat s : jsstring) : bool :=
  patternCompare (c_string pat) (c_string s).

(** The bytes of a text value, which the engine holds in UTF-8: one for a
    character below U+0080, two for the others up to U+00FF. *)
Definition utf8_length (s : jsstring) : N :=
  fold_right (fun c n => ((if (code c <? 128)%N then 1 else 2) + n)%N) 0%N s.

Definition SQLITE_MAX_LIKE_PATTERN_LENGTH : N := 50000.

(** LIKE refuses a pattern of more bytes than the limit, whatever follows
    a U+0000 in it included: "LIKE or GLOB pattern too complex". *)
Definition too_complex (pat : jsstring) : bool :=
  (SQLITE_MAX_LIKE_PATTERN_LENGTH <? utf8_length pat)%N.

(** The conditions the code puts in a WHERE clause, with the values bound
    to their placeholders. *)
Inductive cond :=
| NameEmailPhoneLike (p1 p2 p3 : jsstring)
    (* (name LIKE ? OR email LIKE ? OR phone LIKE ?) *)
| PositionEq (v : jsstring).
    (* position = ? *)

Definition eval_cond (r : Employee) (c : cond) : bool :=
  match c with
  | NameEmailPhoneLike p1 p2 p3 =>
      like p1 (name r) || like p2 (email r) || like p3 (phone r)
  | PositionEq v => str_eqb (position r) v
  end.

(** [WHERE c1 AND ... AND cn]; no WHERE clause when there is no condition. *)
Definition where_ (conditions : list cond) (r : Employee) : bool :=
  forallb (eval_cond r) conditions.

(** Whether the evaluation of a condition on a row raises the error of
    LIKE.  OR evaluates its operands from the left and stops at the first
    that is true. *)
Definition raises_cond (r : Employee) (c : cond) : bool :=
  match c with
  | NameEmailPhoneLike p1 p2 p3 =>
      too_complex p1
      || negb (like p1 (name r))
         && (too_complex p2
             || negb (like p2 (email r)) && too_complex p3)
  | PositionEq _ => false
  end.

(** AND evaluates its operands from the left and stops at the first that
    is false. *)
Fixpoint raises (conditions : list cond) (r : Employee) : bool :=
  match conditions with
  | [] => false
  | c :: rest => raises_cond r c || eval_cond r c && raises rest r
  end.

(** The scan of the table, in rowid order: the statement fails at the first
    row on which the WHERE clause raises, and gives the rows that satisfy
    the clause otherwise. *)
Definition scan (conditions : list cond) (t : table)
    : promise (list Employee) :=
  if existsb (raises conditions) (rows t)
  then Reject SqliteLikeTooComplex
  else Resolve (filter (where_ conditions) (rows t)).

(** [ORDER BY created_at DESC]: rows of equal [created_at] stay in scan
    (rowid) order. *)
Fixpoint insert_desc (r : Employee) (l : list Employee) : list Employee :=
  match l with
  | [] => [r]
  | x :: l' =>
      if (created_at x <=? created_at r)%N
      then r :: x :: l'
      else x :: insert_desc r l'
  end.

Fixpoint order_by_created_at_desc (l : list Employee) : list Employee :=
  match l with
  | [] => []
  | r :: l' => insert_desc r (order_by_created_at_desc l')
  end.

(** [LIMIT n]: a negative [n] is no limit. *)
Definition apply_limit (n : Z) (l : list Employee) : list Employee :=
  if (n <? 0)%Z then l else firstn (Z.to_nat n) l.

(** [OFFSET n]: a negative [n] is [0]. *)
Definition apply_offset (n : Z) (l : list Employee) : list Employee :=
  skipn (Z.to_nat n) l.

(** The value bound to LIMIT or OFFSET must be a 64-bit integer:
    "datatype mismatch" otherwise. *)
Definition int64 (n : Z) : bool :=
  (- 2 ^ 63 <=? n)%Z && (n <? 2 ^ 63)%Z.

(** [SELECT * FROM employees [WHERE ...] ORDER BY created_at DESC
     [LIMIT ?] [OFFSET ?]].  The grammar of the engine has OFFSET only
    after LIMIT: a statement with OFFSET and no LIMIT does not parse.  The
    limit is read first, and a limit of 0 ends the statement there; then
    the offset is read; then the table is scanned and the rows sorted. *)
Definition select_all (conditions : list cond) (limit offset : option Z)
    (t : table) : promise (list Employee) :=
  let run (window : list Employee -> list Employee) :=
    match scan conditions t with
    | Reject err => Reject err
    | Resolve matching => Resolve (window (order_by_created_at_desc matching))
    end in
  match limit, offset with
  | None, None => run (fun l => l)
  | Some n, None =>
      if negb (int64 n) then Reject SqliteMismatch
      else if (n =? 0)%Z then Resolve []
      else run (apply_limit n)
  | Some n, Some k =>
      if negb (int64 n) then Reject SqliteMismatch
      else if (n =? 0)%Z then Resolve []
      else if negb (int64 k) then Reject SqliteMismatch
      else run (fun l => apply_limit n (apply_offset k l))
  | None, Some _ => Reject SqliteSyntaxError
  end.

(** [SELECT COUNT( * ) as count FROM employees [WHERE ...]] *)
Definition select_count (conditions : list cond) (t : table) : promise Z :=
  match scan conditions t with
  | Reject err => Reject err
  | Resolve matching => Resolve (Z.of_nat (length matching))
  end.

(** [SELECT * FROM employees WHERE id = ?] with [db.get]: the first row. *)
Definition select_by_id (i : Z) (t : table) : promise (option Employee) :=
  Resolve (find (fun r => (id r =? i)%Z) (rows t)).

(** AUTOINCREMENT: one more than the largest rowid that ever existed. *)
Definition next_rowid (t : table) : Z :=
  (fold_right Z.max (seq t) (map id (rows t)) + 1)%Z.

(** [INSERT INTO employees (name, email, position, phone) VALUES (?,?,?,?)]
    resolves to [lastID]; the UNIQUE index on [email] compares byte for
    byte. *)
Definition insert_employee (n e p ph : jsstring) (now : timestamp)
    (t : table) : promise Z * table :=
  if existsb (fun r => str_eqb (email r) e) (rows t)
  then (Reject SqliteUniqueConstraint, t)
  else
    let i := next_rowid t in
    (Resolve i, mkTable (rows t ++ [mkEmployee i n e p ph now now]) i).

Inductive column := ColName | ColEmail | ColPosition | ColPhone.

Definition assign (r : Employee) (a : column * jsstring) : Employee :=
  match a with
  | (ColName, v) =>
      mkEmployee (id r) v (email r) (position r) (phone r)
        (created_at r) (updated_at r)
  | (ColEmail, v) =>
      mkEmployee (id r) (name r) v (position r) (phone r)
        (created_at r) (updated_at r)
  | (ColPosition, v) =>
      mkEmployee (id r) (name r) (email r) v (phone r)
        (created_at r) (updated_at r)
  | (ColPhone, v) =>
      mkEmployee (id r) (name r) (email r) (position r) v
        (created_at r) (updated_at r)
  end.

Definition touch (now : timestamp) (r : Employee) : Employee :=
  mkEmployee (id r) (name r) (email r) (position r) (phone r)
    (created_at r) now.

Definition is_email (a : column * jsstring) : bool :=
  match fst a with ColEmail => true | _ => false end.

(** [UPDATE employees SET c1 = ?, ..., updated_at = CURRENT_TIMESTAMP
     WHERE id = ?] resolves to [changes].  [id] is the primary key: at most
    one row has it.  The UNIQUE index is checked when [email] is assigned;
    a failed statement changes nothing. *)
Definition update_employee (sets : list (column * jsstring))
    (now : timestamp) (i : Z) (t : table) : promise Z * table :=
  let hit := fun r => (id r =? i)%Z in
  let upd := fun r => touch now (fold_left assign sets r) in
  match find hit (rows t) with
  | None => (Resolve 0%Z, t)
  | Some r =>
      if existsb is_email sets
         && existsb (fun o => negb (hit o) && str_eqb (email o) (email (upd r)))
              (rows t)
      then (Reject SqliteUniqueConstraint, t)
      else
        (Resolve 1%Z,
         mkTable (map (fun x => if hit x then upd x else x) (rows t)) (seq t))
  end.

(** [DELETE FROM employees WHERE id = ?] resolves to [changes]. *)
Definition delete_employee (i : Z) (t : table) : promise Z * table :=
  let hit := fun r => (id r =? i)%Z in
  (Resolve (Z.of_nat (length (filter hit (rows t)))),
   mkTable (filter (fun r => negb (hit r)) (rows t)) (seq t)).

End Sqlite.

(* ===================================================================== *)
(** ** Request types ([backend/src/types/index.ts]) *)
(* ===================================================================== *)

Module Types.
Import JS.

Record CreateEmployeeRequest := mkCreate {
  c_name : jsstring;
  c_email : jsstring;
  c_position : jsstring;
  c_phone : jsstring
}.

(** An absent property is [None]. *)
Record UpdateEmployeeRequest := mkUpdate {
  u_name : option jsstring;
  u_email : option jsstring;
  u_position : option jsstring;
  u_phone : option jsstring
}.

Record SearchEmployeeRequest := mkSearch {
  sp_query : option jsstring;
  sp_position : option jsstring;
  sp_limit : option jsnum;
  sp_offset : option jsnum
}.

End Types.

(* ===================================================================== *)
(** ** The repository ([backend/src/database/index.ts]) *)
(* ===================================================================== *)

Module Database.
Import JS Promise Types.
Import Sqlite(Employee, table, timestamp, cond, column).

(** [searchParams?.field] *)
Definition opt_field {A} (searchParams : option SearchEmployeeRequest)
    (field : SearchEmployeeRequest -> option A) : option A :=
  match searchParams with
  | None => None
  | Some sp => field sp
  end.

(** A number that passed [if (n)], as the engine reads the bound text
    [n.toString()]. *)
Definition bound (o : option jsnum) : option Z :=
  match o with
  | Some (Num z) => if (z =? 0)%Z then None else Some z
  | _ => None
  end.

(** The conditions [getEmployees] and [getEmployeeCount] both build. *)
Definition conditions_of (searchParams : option SearchEmployeeRequest)
    : list cond :=
  let conditions := [] in
  let conditions :=
    match opt_field searchParams sp_query with
    | Some q =>
        if truthy_str q
        then
          let searchTerm := js "%" ++ q ++ js "%" in
          conditions ++ [Sqlite.NameEmailPhoneLike searchTerm searchTerm searchTerm]
        else conditions
    | None => conditions
    end in
  let conditions :=
    match opt_field searchParams sp_position with
    | Some p =>
        if truthy_str p
        then conditions ++ [Sqlite.PositionEq p]
        else conditions
    | None => conditions
    end in
  conditions.

Definition createEmployee (employee : CreateEmployeeRequest)
    (now : timestamp) (t : table) : promise Z * table :=
  Sqlite.insert_employee (c_name employee) (c_email employee)
    (c_position employee) (c_phone employee) now t.

Definition getEmployees (searchParams : option SearchEmployeeRequest)
    (t : table) : promise (list Employee) :=
  Sqlite.select_all (conditions_of searchParams)
    (bound (opt_field searchParams sp_limit))
    (bound (opt_field searchParams sp_offset)) t.

Definition getEmployeeById (i : Z) (t : table) : promise (option Employee) :=
  Sqlite.select_by_id i t.

(** [Object.keys(updates).filter(key => updates[key] !== undefined)] with
    the values; the keys are those of the request type, in the order the
    service sets them. *)
Definition fields_of (updates : UpdateEmployeeRequest)
    : list (column * jsstring) :=
  let field (c : column) (o : option jsstring) :=
    match o with Some v => [(c, v)] | None => [] end in
  field Sqlite.ColName (u_name updates)
  ++ field Sqlite.ColEmail (u_email updates)
  ++ field Sqlite.ColPosition (u_position updates)
  ++ field Sqlite.ColPhone (u_phone updates).

Definition updateEmployee (i : Z) (updates : UpdateEmployeeRequest)
    (now : timestamp) (t : table) : promise bool * table :=
  let fields := fields_of updates in
  if (length fields =? 0)%nat
  then (Resolve false, t)
  else
    match Sqlite.update_employee fields now i t with
    | (Reject err, t') => (Reject err, t')
    | (Resolve changes, t') => (Resolve (0 <? changes)%Z, t')
    end.

Definition deleteEmployee (i : Z) (t : table) : promise bool * table :=
  match Sqlite.delete_employee i t with
  | (Reject err, t') => (Reject err, t')
  | (Resolve changes, t') => (Resolve (0 <? changes)%Z, t')
  end.

Definition getEmployeeCount (searchParams : option SearchEmployeeRequest)
    (t : table) : promise Z :=
  Sqlite.select_count (conditions_of searchParams) t.

End Database.

(* ===================================================================== *)
(** ** The service ([backend/src/services/employeeService.ts]) *)
(* ===================================================================== *)

Module EmployeeService.
Import JS Promise Types.
Import Sqlite(Employee, table, timestamp).

Definition createEmployee (employeeData : CreateEmployeeRequest)
    (now : timestamp) (t : table) : promise Employee * table :=
  match
    Database.createEmployee
      (mkCreate (trim (c_name employeeData))
                (toLowerCase (trim (c_email employeeData)))
                (trim (c_position employeeData))
                (trim (c_phone employeeData)))
      now t
  with
  | (Reject err, t') => (Reject err, t')
  | (Resolve employeeId, t') =>
      match Database.getEmployeeById employeeId t' with
      | Reject err => (Reject err, t')
      | Resolve None =>
          (Reject (Error (js "Failed to retrieve created employee")), t')
      | Resolve (Some newEmployee) => (Resolve newEmployee, t')
      end
  end.

Definition getEmployees (searchParams : option SearchEmployeeRequest)
    (t : table) : promise (list Employee * Z) :=
  match Database.getEmployees searchParams t with
  | Reject err => Reject err
  | Resolve employees =>
      match Database.getEmployeeCount searchParams t with
      | Reject err => Reject err
      | Resolve totalCount => Resolve (employees, totalCount)
      end
  end.


(** The calls of the repository with an [id] that is a parsed number:
    the engine reads [NaN] as NULL (bound as a number) or as the text
    [NaN] (bound as [id.toString()]), and no id equals either. *)
Definition database_getEmployeeById (id : jsnum) (t : table)
    : promise (option Employee) :=
  match id with
  | Num i => Database.getEmployeeById i t
  | NaN => Resolve None
  end.

Definition database_updateEmployee (id : jsnum)
    (updates : UpdateEmployeeRequest) (now : timestamp) (t : table)
    : promise bool * table :=
  match id with
  | Num i => Database.updateEmployee i updates now t
  | NaN => (Resolve false, t)
  end.

Definition database_deleteEmployee (id : jsnum) (t : table)
    : promise bool * table :=
  match id with
  | Num i => Database.deleteEmployee i t
  | NaN => (Resolve false, t)
  end.

Definition getEmployeeById (id : jsnum) (t : table)
    : promise (option Employee) :=
  database_getEmployeeById id t.

(** [`Employee with ID ${id} does not exist`] *)
Definition does_not_exist (id : jsnum) : error :=
  Error (js "Employee with ID " ++ toString id ++ js " does not exist").

(** [updateData]: each defined field trimmed, the email lower-cased too. *)
Definition updateData_of (updates : UpdateEmployeeRequest)
    : UpdateEmployeeRequest :=
  mkUpdate (option_map trim (u_name updates))
    (option_map (fun e => toLowerCase (trim e)) (u_email updates))
    (option_map trim (u_position updates))
    (option_map trim (u_phone updates)).

Definition updateEmployee (id : jsnum) (updates : UpdateEmployeeRequest)
    (now : timestamp) (t : table) : promise Employee * table :=
  match database_getEmployeeById id t with
  | Reject err => (Reject err, t)
  | Resolve None => (Reject (does_not_exist id), t)
  | Resolve (Some existingEmployee) =>
      let updateData := updateData_of updates in
      if (length (Database.fields_of updateData) =? 0)%nat
      then (Reject (Error (js "No data to update")), t)
      else
        match database_updateEmployee id updateData now t with
        | (Reject err, t') => (Reject err, t')
        | (Resolve false, t') =>
            (Reject (Error (js "Employee could not be updated")), t')
        | (Resolve true, t') =>
            match database_getEmployeeById id t' with
            | Reject err => (Reject err, t')
            | Resolve None =>
                (Reject (Error (js "Failed to retrieve updated employee")), t')
            | Resolve (Some updatedEmployee) => (Resolve updatedEmployee, t')
            end
        end
  end.

Definition deleteEmployee (id : jsnum) (t : table) : promise jsnum * table :=
  match database_getEmployeeById id t with
  | Reject err => (Reject err, t)
  | Resolve None => (Reject (does_not_exist id), t)
  | Resolve (Some existingEmployee) =>
      match database_deleteEmployee id t with
      | (Reject err, t') => (Reject err, t')
      | (Resolve false, t') =>
          (Reject (Error (js "Employee could not be deleted")), t')
      | (Resolve true, t') => (Resolve id, t')
      end
  end.

Definition emailExists (email : jsstring) (t : table) : promise bool :=
  match Database.getEmployees (Some (mkSearch (Some email) None None None)) t
  with
  | Reject err => Reject err
  | Resolve employees =>
      Resolve
        (existsb
           (fun emp =>
              str_eqb (toLowerCase (Sqlite.email emp)) (toLowerCase email))
           employees)
  end.

End EmployeeService.

(* ===================================================================== *)
(** ** Server-side validation ([backend/src/middleware/validation.ts]) *)
(* ===================================================================== *)

Module Validation.
Import JS Regex.

Definition not_space_at (c : ascii) : bool :=
  negb (is_whitespace c || Ascii.eqb c "@").

(** [/^[^\s@]+@[^\s@]+\.[^\s@]+$/] *)
Definition emailRegex : regex :=
  Cat (Plus (Class not_space_at))
    (Cat (Chr "@")
       (Cat (Plus (Class not_space_at))
          (Cat (Chr ".") (Plus (Class not_space_at))))).

Definition isValidEmail (email : jsstring) : bool := test emailRegex email.

Definition is_digit (c : ascii) : bool :=
  ((48 <=? code c) && (code c <=? 57))%N.

Definition is_1_9 (c : ascii) : bool :=
  ((49 <=? code c) && (code c <=? 57))%N.

(** [/^[\+]?[1-9][\d]{0,15}$/] *)
Definition phoneRegex : regex :=
  Cat (Opt (Chr "+")) (Cat (Class is_1_9) (UpTo 15 (Class is_digit))).

(** The class of [/[\s\-\(\)]/g]. *)
Definition phone_noise (c : ascii) : bool :=
  is_whitespace c || Ascii.eqb c "-" || Ascii.eqb c "(" || Ascii.eqb c ")".

Definition isValidPhone (phone : jsstring) : bool :=
  test phoneRegex (remove_class phone_noise phone).

Definition isValidString (value : jsval) : bool :=
  match value with
  | JString s => (0 <? length (trim s))%nat
  | _ => false
  end.

(** The body of a JSON request: the four properties the middleware reads. *)
Record body := mkBody {
  b_name : jsval;
  b_email : jsval;
  b_position : jsval;
  b_phone : jsval
}.

(** [next()] or [res.status(400).json({ success: false, error, message })]. *)
Inductive outcome :=
| Next
| Status400 (error message : string).

(** The string a value that passed [isValidString] holds. *)
Definition string_of (v : jsval) : jsstring :=
  match v with JString s => s | _ => [] end.

Definition validateCreateEmployee (b : body) : outcome :=
  if negb (truthy (b_name b)) || negb (truthy (b_email b))
     || negb (truthy (b_position b)) || negb (truthy (b_phone b))
  then Status400 "Missing required fields"
         "Name, email, position, and phone are required"
  else if negb (isValidString (b_name b))
  then Status400 "Invalid name" "Name must be a non-empty string"
  else if negb (isValidString (b_email b))
  then Status400 "Invalid email" "Email must be a non-empty string"
  else if negb (isValidEmail (string_of (b_email b)))
  then Status400 "Invalid email format" "Please provide a valid email address"
  else if negb (isValidString (b_position b))
  then Status400 "Invalid position" "Position must be a non-empty string"
  else if negb (isValidString (b_phone b))
  then Status400 "Invalid phone" "Phone must be a non-empty string"
  else if negb (isValidPhone (string_of (b_phone b)))
  then Status400 "Invalid phone number" "Please provide a valid phone number"
  else Next.

Definition validateUpdateEmployee (b : body) : outcome :=
  if is_undefined (b_name b) && is_undefined (b_email b)
     && is_undefined (b_position b) && is_undefined (b_phone b)
  then Status400 "No data to update"
         "Please provide at least one field to update"
  else if negb (is_undefined (b_name b)) && negb (isValidString (b_name b))
  then Status400 "Invalid name" "Name must be a non-empty string"
  else if negb (is_undefined (b_email b)) && negb (isValidString (b_email b))
  then Status400 "Invalid email" "Email must be a non-empty string"
  else if negb (is_undefined (b_email b))
          && negb (isValidEmail (string_of (b_email b)))
  then Status400 "Invalid email format" "Please provide a valid email address"
  else if negb (is_undefined (b_position b))
          && negb (isValidString (b_position b))
  then Status400 "Invalid position" "Position must be a non-empty string"
  else if negb (is_undefined (b_phone b)) && negb (isValidString (b_phone b))
  then Status400 "Invalid phone" "Phone must be a non-empty string"
  else if negb (is_undefined (b_phone b))
          && negb (isValidPhone (string_of (b_phone b)))
  then Status400 "Invalid phone number" "Please provide a valid phone number"
  else Next.

(** The request the controller hands to the service: [req.body] read as a
    [CreateEmployeeRequest]. *)
Definition request_of (b : body) : Types.CreateEmployeeRequest :=
  Types.mkCreate (string_of (b_name b)) (string_of (b_email b))
    (string_of (b_position b)) (string_of (b_phone b)).


(** [req.params.id] is the path segment, a string. *)
Definition validateEmployeeId (id_param : jsstring) : outcome :=
  let id := parseInt id_param in
  if isNaN id
  then Status400 "Invalid employee ID" "Employee ID must be a number"
  else Next.

(** A property of a body that passed [validateUpdateEmployee], read as a
    property of an [UpdateEmployeeRequest]. *)
Definition optional_string (v : jsval) : option jsstring :=
  match v with JString s => Some s | _ => None end.

Definition update_of (b : body) : Types.UpdateEmployeeRequest :=
  Types.mkUpdate (optional_string (b_name b)) (optional_string (b_email b))
    (optional_string (b_position b)) (optional_string (b_phone b)).

End Validation.

(* ===================================================================== *)
(** ** Client-side validation
       ([frontend/src/app/utils/validators/employee.validator.ts]) *)
(* ===================================================================== *)

Module EmployeeValidator.
Import JS Regex.

Definition isValidEmail (email : jsstring) : bool :=
  test Validation.emailRegex (trim email).

Definition isValidPhone (phone : jsstring) : bool :=
  let phoneRegex := Validation.phoneRegex in
  let cleanPhone := remove_class Validation.phone_noise phone in
  test phoneRegex cleanPhone && (10 <=? length cleanPhone)%nat.

Definition isNotEmpty (value : jsstring) : bool :=
  truthy_str value && (0 <? length (trim value))%nat.


Record ValidationResult := mkResult {
  isValid : bool;
  errors : list string
}.

(** [!s || s.trim().length === 0] on an optional string property. *)
Definition missing (o : option jsstring) : bool :=
  match o with
  | None => true
  | Some s => negb (truthy_str s) || (length (trim s) =? 0)%nat
  end.

(** The value of a property that is not [missing]. *)
Definition value_of (o : option jsstring) : jsstring :=
  match o with Some s => s | None => [] end.

Definition validateEmployeeData (employee : Types.UpdateEmployeeRequest)
    : ValidationResult :=
  let errors := [] in
  let errors :=
    if missing (Types.u_name employee)
    then errors ++ ["Name is required"%string] else errors in
  let errors :=
    if missing (Types.u_email employee)
    then errors ++ ["Email is required"%string]
    else
      if negb (test Validation.emailRegex
                 (trim (value_of (Types.u_email employee))))
      then errors ++ ["Please enter a valid email address"%string]
      else errors in
  let errors :=
    if missing (Types.u_position employee)
    then errors ++ ["Position is required"%string] else errors in
  let errors :=
    if missing (Types.u_phone employee)
    then errors ++ ["Phone number is required"%string]
    else
      let phoneRegex := Validation.phoneRegex in
      let cleanPhone :=
        remove_class Validation.phone_noise
          (value_of (Types.u_phone employee)) in
      if negb (test phoneRegex cleanPhone) || (length cleanPhone <? 10)%nat
      then errors ++ ["Please enter a valid phone number"%string]
      else errors in
  mkResult (length errors =? 0)%nat errors.

(** [requiredFields.every(field => value && value.toString().trim().length > 0)] *)
Definition isValidEmployee (employee : Types.UpdateEmployeeRequest) : bool :=
  forallb
    (fun value : option jsstring =>
       match value with
       | None => false
       | Some s => truthy_str s && (0 <? length (trim s))%nat
       end)
    [Types.u_name employee; Types.u_email employee;
     Types.u_position employee; Types.u_phone employee].

(** The JSON body the client posts for a form: an absent property stays
    absent. *)
Definition json_of (employee : Types.UpdateEmployeeRequest)
    : Validation.body :=
  let prop (o : option jsstring) :=
    match o with Some s => JString s | None => JUndefined end in
  Validation.mkBody (prop (Types.u_name employee))
    (prop (Types.u_email employee)) (prop (Types.u_position employee))
    (prop (Types.u_phone employee)).

End EmployeeValidator.

(* ===================================================================== *)
(** ** The controller ([backend/src/controllers/employeeController.ts]) *)
(* ===================================================================== *)

Module EmployeeController.
Import JS Promise Types.
Import Sqlite(Employee, table).

(** [req.query]: each parameter is a string or absent. *)
Record query_string := mkQuery {
  q_query : option jsstring;
  q_position : option jsstring;
  q_limit : option jsstring;
  q_offset : option jsstring
}.

Record pagination := mkPagination {
  total : Z;
  limit : Z;
  offset : Z;
  hasMore : bool
}.

Inductive response :=
| Json200 (employees : list Employee) (p : pagination)
| Json500 (message : jsstring).

(** [s ? parseInt(s) : undefined] *)
Definition parse_param (s : option jsstring) : option jsnum :=
  match s with
  | Some v => if truthy_str v then Some (parseInt v) else None
  | None => None
  end.

Definition searchParams_of (q : query_string) : SearchEmployeeRequest :=
  mkSearch (q_query q) (q_position q)
    (parse_param (q_limit q)) (parse_param (q_offset q)).

Definition getEmployees (q : query_string) (t : table) : response :=
  let searchParams := searchParams_of q in
  match EmployeeService.getEmployees (Some searchParams) t with
  | Reject err => Json500 (message err)
  | Resolve (employees, totalCount) =>
      Json200 employees
        (mkPagination
           totalCount
           (or_num (sp_limit searchParams) totalCount)
           (or_num (sp_offset searchParams) 0)
           (* searchParams.offset ? offset + (limit || totalCount) < totalCount
                                    : false *)
           (match sp_offset searchParams with
            | Some (Num o) =>
                if (o =? 0)%Z then false
                else (o + or_num (sp_limit searchParams) totalCount
                      <? totalCount)%Z
            | _ => false
            end))
  end.


(** [data] of a response. *)
Inductive payload :=
| OneEmployee (e : Employee)
| DeletedId (id : jsnum).

(** [res.status(status).json({ success: true, data, message })] and
    [res.status(status).json({ success: false, error, message })];
    [res.json] alone answers 200. *)
Inductive reply :=
| Success (status : Z) (data : payload) (msg : jsstring)
| Failure (status : Z) (err : jsstring) (msg : jsstring).

Definition status_of (r : reply) : Z :=
  match r with
  | Success st _ _ => st
  | Failure st _ _ => st
  end.

Definition getEmployeeById (id_param : jsstring) (t : table) : reply :=
  let id := parseInt id_param in
  match EmployeeService.getEmployeeById id t with
  | Reject err => Failure 500 (js "Failed to fetch employee") (message err)
  | Resolve None =>
      Failure 404 (js "Employee not found")
        (js "Employee with ID " ++ toString id ++ js " does not exist")
  | Resolve (Some employee) =>
      Success 200 (OneEmployee employee) (js "Employee retrieved successfully")
  end.

Definition createEmployee (employeeData : CreateEmployeeRequest)
    (now : Sqlite.timestamp) (t : table) : reply * table :=
  match EmployeeService.createEmployee employeeData now t with
  | (Resolve newEmployee, t') =>
      (Success 201 (OneEmployee newEmployee)
         (js "Employee created successfully"), t')
  | (Reject err, t') =>
      if includes (message err) (js "UNIQUE constraint failed")
      then (Failure 409 (js "Email already exists")
              (js "An employee with this email already exists"), t')
      else (Failure 500 (js "Failed to create employee") (message err), t')
  end.

Definition updateEmployee (id_param : jsstring)
    (updateData : UpdateEmployeeRequest) (now : Sqlite.timestamp) (t : table)
    : reply * table :=
  let id := parseInt id_param in
  match EmployeeService.updateEmployee id updateData now t with
  | (Resolve updatedEmployee, t') =>
      (Success 200 (OneEmployee updatedEmployee)
         (js "Employee updated successfully"), t')
  | (Reject err, t') =>
      if includes (message err) (js "UNIQUE constraint failed")
      then (Failure 409 (js "Email already exists")
              (js "An employee with this email already exists"), t')
      else if includes (message err) (js "does not exist")
      then (Failure 404 (js "Employee not found") (message err), t')
      else if includes (message err) (js "No data to update")
      then (Failure 400 (js "No data to update") (message err), t')
      else (Failure 500 (js "Failed to update employee") (message err), t')
  end.

Definition deleteEmployee (id_param : jsstring) (t : table) : reply * table :=
  let id := parseInt id_param in
  match EmployeeService.deleteEmployee id t with
  | (Resolve deletedId, t') =>
      (Success 200 (DeletedId deletedId)
         (js "Employee deleted successfully"), t')
  | (Reject err, t') =>
      if includes (message err) (js "does not exist")
      then (Failure 404 (js "Employee not found") (message err), t')
      else (Failure 500 (js "Failed to delete employee") (message err), t')
  end.

End EmployeeController.

(* ===================================================================== *)
(** ** The routes ([backend/src/routes/employees.ts]) *)
(* ===================================================================== *)

Module Routes.
Import JS Promise Types.
Import Sqlite(table, timestamp).
Import EmployeeController(reply, Failure).

(** The answer of a middleware that did not call [next()]. *)
Definition rejected (error message : string) : reply :=
  Failure 400 (js error) (js message).

(** [router.get("/:id", validateEmployeeId, EmployeeController.getEmployeeById)] *)
Definition get_id (id_param : jsstring) (t : table) : reply :=
  match Validation.validateEmployeeId id_param with
  | Validation.Status400 e m => rejected e m
  | Validation.Next => EmployeeController.getEmployeeById id_param t
  end.

(** [router.post("/", validateCreateEmployee, EmployeeController.createEmployee)] *)
Definition post (b : Validation.body) (now : timestamp) (t : table)
    : reply * table :=
  match Validation.validateCreateEmployee b with
  | Validation.Status400 e m => (rejected e m, t)
  | Validation.Next =>
      EmployeeController.createEmployee (Validation.request_of b) now t
  end.

(** [router.put("/:id", validateEmployeeId, validateUpdateEmployee,
     EmployeeController.updateEmployee)] *)
Definition put (id_param : jsstring) (b : Validation.body) (now : timestamp)
    (t : table) : reply * table :=
  match Validation.validateEmployeeId id_param with
  | Validation.Status400 e m => (rejected e m, t)
  | Validation.Next =>
      match Validation.validateUpdateEmployee b with
      | Validation.Status400 e m => (rejected e m, t)
      | Validation.Next =>
          EmployeeController.updateEmployee id_param (Validation.update_of b)
            now t
      end
  end.

(** [router.delete("/:id", validateEmployeeId, EmployeeController.deleteEmployee)] *)
Definition delete (id_param : jsstring) (t : table) : reply * table :=
  match Validation.validateEmployeeId id_param with
  | Validation.Status400 e m => (rejected e m, t)
  | Validation.Next => EmployeeController.deleteEmployee id_param t
  end.

End Routes.

(* ===================================================================== *)
(** ** The client-side service
       ([frontend/src/app/services/employee.service.ts]) *)
(* ===================================================================== *)

Module FrontendEmployeeService.
Import JS Types.

(** The [HttpParams] of [getEmployees]: a parameter is set when its value
    is truthy. *)
Definition getEmployees_params (searchParams : option SearchEmployeeRequest)
    : EmployeeController.query_string :=
  let text (o : option jsstring) :=
    match o with
    | Some v => if truthy_str v then Some v else None
    | None => None
    end in
  let number (o : option jsnum) :=
    match o with
    | Some n => if truthy_num n then Some (toString n) else None
    | None => None
    end in
  EmployeeController.mkQuery
    (text (Database.opt_field searchParams sp_query))
    (text (Database.opt_field searchParams sp_position))
    (number (Database.opt_field searchParams sp_limit))
    (number (Database.opt_field searchParams sp_offset)).

(** The last segment of [`${this.apiUrl}/${id}`]. *)
Definition id_segment (id : Z) : jsstring := toString (Num id).

(** [searchEmployees(query)] and [filterByPosition(position)] *)
Definition searchEmployees_params (query : jsstring)
    : EmployeeController.query_string :=
  getEmployees_params (Some (mkSearch (Some query) None None None)).

Definition filterByPosition_params (position : jsstring)
    : EmployeeController.query_string :=
  getEmployees_params (Some (mkSearch None (Some position) None None)).

End FrontendEmployeeService.

(* ===================================================================== *)
(** ** The vocabulary of the specification *)
(* ===================================================================== *)

Module Spec.
Import JS Promise Types.
Import Sqlite(Employee, table, timestamp, rows).

(** [q] occurs in [s]. *)
Definition is_substring (q s : jsstring) : Prop :=
  exists pre post, s = pre ++ q ++ post.

(** [q] occurs in [s] when the ASCII letters are compared without case. *)
Definition is_substring_nocase (q s : jsstring) : Prop :=
  exists pre m post,
    s = pre ++ m ++ post /\ map Sqlite.fold_ascii m = map Sqlite.fold_ascii q.

Definition is_wildcard (c : ascii) : bool :=
  Ascii.eqb c "%" || Ascii.eqb c "_".

Definition no_wildcard (q : option jsstring) : Prop :=
  match q with
  | None => True
  | Some s => forallb (fun c => negb (is_wildcard c)) s = true
  end.

(** The free-text condition: the query occurs in name, email or phone,
    for a given reading of "occurs". *)
Definition query_holds_by (occurs : jsstring -> jsstring -> Prop)
    (q : option jsstring) (r : Employee) : Prop :=
  match q with
  | None => True
  | Some s =>
      occurs s (Sqlite.name r) \/ occurs s (Sqlite.email r)
      \/ occurs s (Sqlite.phone r)
  end.

Definition position_holds (p : option jsstring) (r : Employee) : Prop :=
  match p with
  | None => True
  | Some v => Sqlite.position r = v
  end.

(** read-many with the two filters and no window returns exactly the rows
    that satisfy both conditions. *)
Definition read_many_exact_by (occurs : jsstring -> jsstring -> Prop)
    (q p : option jsstring) (t : table) : Prop :=
  exists l,
    Database.getEmployees (Some (mkSearch q p None None)) t = Resolve l /\
    forall r,
      In r l <->
      In r (rows t) /\ query_holds_by occurs q r /\ position_holds p r.

Definition no_nul (q : option jsstring) : Prop :=
  match q with
  | None => True
  | Some s => forallb (fun c => negb (code c =? 0)%N) s = true
  end.

(** The query is a filter, and the search term the code builds from it is
    over the pattern limit of LIKE. *)
Definition term_refused (q : option jsstring) : bool :=
  match q with
  | None => false
  | Some s => truthy_str s && Sqlite.too_complex (js "%" ++ s ++ js "%")
  end.

(** The scan of the table for the query raises: the term is refused on the
    first row, if there is one. *)
Definition scan_refused (q : option jsstring) (t : table) : bool :=
  term_refused q && match rows t with [] => false | _ :: _ => true end.

(** [q] occurs, without case, in the text of [s] up to its first U+0000. *)
Definition occurs_in_text (q s : jsstring) : Prop :=
  is_substring_nocase q (Sqlite.c_string s).

(** The free-text condition of the engine on a query without wildcard and
    without U+0000. *)
Definition query_holds_in_text : option jsstring -> Employee -> Prop :=
  query_holds_by occurs_in_text.

(** An absent or empty position is no condition. *)
Definition position_holds_nonempty (p : option jsstring) (r : Employee)
    : Prop :=
  match p with
  | None => True
  | Some v => v = [] \/ Sqlite.position r = v
  end.

(** Two addresses equal up to letter case. *)
Definition same_email (e1 e2 : jsstring) : Prop :=
  toLowerCase e1 = toLowerCase e2.

(** No row stores the address of the request. *)
Definition email_free (t : table) (e : jsstring) : Prop :=
  ~ In (toLowerCase (trim e)) (map Sqlite.email (rows t)).

(** The row the service stores for a request. *)
Definition stored (r : CreateEmployeeRequest) (now : timestamp) (t : table)
    : Employee :=
  Sqlite.mkEmployee (Sqlite.next_rowid t) (trim (c_name r))
    (toLowerCase (trim (c_email r))) (trim (c_position r)) (trim (c_phone r))
    now now.

(** A named field takes the value of the request, an unnamed one stays. *)
Definition named (o : option jsstring) (prior : jsstring) : jsstring :=
  match o with
  | Some v => v
  | None => prior
  end.

(** The row a partial update leaves: named fields replaced, [id] and
    [created_at] kept, [updated_at] refreshed. *)
Definition updated (u : UpdateEmployeeRequest) (now : timestamp)
    (r : Employee) : Employee :=
  Sqlite.mkEmployee (Sqlite.id r)
    (named (u_name u) (Sqlite.name r))
    (named (u_email u) (Sqlite.email r))
    (named (u_position u) (Sqlite.position r))
    (named (u_phone u) (Sqlite.phone r))
    (Sqlite.created_at r) now.

Definition names_a_field (u : UpdateEmployeeRequest) : Prop :=
  u_name u <> None \/ u_email u <> None \/ u_position u <> None
  \/ u_phone u <> None.

(** An optional [+], a digit 1-9, then at most 15 digits. *)
Definition phone_shape (s : jsstring) : Prop :=
  exists sign d ds,
    s = sign ++ d :: ds /\
    (sign = [] \/ sign = ["+"%char]) /\
    Validation.is_1_9 d = true /\
    Forall (fun c => Validation.is_digit c = true) ds /\
    length ds <= 15.

(** Spaces, dashes and parentheses stripped. *)
Definition stripped (phone : jsstring) : jsstring :=
  Regex.remove_class Validation.phone_noise phone.

(** The phone rule of the specification. *)
Definition phone_ok (phone : jsstring) : Prop :=
  phone_shape (stripped phone) /\ 10 <= length (stripped phone).


(** *** Vocabulary of the further properties *)

(** The keys of the table: ids distinct, positive and at most the
    AUTOINCREMENT counter; emails distinct. *)
Definition well_keyed (t : table) : Prop :=
  NoDup (map Sqlite.id (rows t)) /\
  NoDup (map Sqlite.email (rows t)) /\
  Forall (fun r => (0 < Sqlite.id r <= Sqlite.seq t)%Z) (rows t) /\
  (0 <= Sqlite.seq t)%Z.

(** The tables the repository can produce from the empty table. *)
Inductive reachable : table -> Prop :=
| reach_empty : reachable Sqlite.empty_table
| reach_create e now t :
    reachable t -> reachable (snd (Database.createEmployee e now t))
| reach_update i u now t :
    reachable t -> reachable (snd (Database.updateEmployee i u now t))
| reach_delete i t :
    reachable t -> reachable (snd (Database.deleteEmployee i t)).

(** The tables the service can produce from the empty table. *)
Inductive service_reachable : table -> Prop :=
| sreach_empty : service_reachable Sqlite.empty_table
| sreach_create r now t :
    service_reachable t ->
    service_reachable (snd (EmployeeService.createEmployee r now t))
| sreach_update id u now t :
    service_reachable t ->
    service_reachable (snd (EmployeeService.updateEmployee id u now t))
| sreach_delete id t :
    service_reachable t ->
    service_reachable (snd (EmployeeService.deleteEmployee id t)).

(** Every stored email is in lower case. *)
Definition lowercase_emails (t : table) : Prop :=
  Forall (fun r => toLowerCase (Sqlite.email r) = Sqlite.email r) (rows t).

(** Every row is at least as recent as the rows after it. *)
Fixpoint newest_first (l : list Employee) : Prop :=
  match l with
  | [] => True
  | x :: l' =>
      (forall y, In y l' -> (Sqlite.created_at y <= Sqlite.created_at x)%N)
      /\ newest_first l'
  end.

(** The rows from position [k] on, at most [n] of them. *)
Definition slice (k n : nat) (l : list Employee) : list Employee :=
  firstn n (skipn k l).

(** A row passes the two filters of a search, as the engine evaluates
    them. *)
Definition passes (q p : option jsstring) (r : Employee) : Prop :=
  Sqlite.where_ (Database.conditions_of (Some (mkSearch q p None None))) r
  = true.

Definition ascii_only (s : jsstring) : Prop :=
  Forall (fun c => (code c < 128)%N) s.

(** [local@domain.tld]: three non-empty parts without whitespace or [@]. *)
Definition email_shape (s : jsstring) : Prop :=
  exists local_part domain tld,
    s = local_part ++ "@"%char :: domain ++ "."%char :: tld /\
    local_part <> [] /\ domain <> [] /\ tld <> [] /\
    Forall (fun c => Validation.not_space_at c = true)
      (local_part ++ domain ++ tld).

Definition not_blank (s : jsstring) : Prop := trim s <> [].

(** What the server-side middleware asks of a property of an update. *)
Definition absent_or (ok : jsstring -> Prop) (v : jsval) : Prop :=
  v = JUndefined \/ exists s, v = JString s /\ ok s.

(** What the client-side validator asks of a property of a form. *)
Definition present_and (ok : jsstring -> Prop) (o : option jsstring) : Prop :=
  exists s, o = Some s /\ ok s.

(** An integer a double holds exactly. *)
Definition safe_integer (z : Z) : Prop := (Z.abs z < 2 ^ 53)%Z.

Definition safe_number (o : option jsnum) : Prop :=
  match o with
  | Some (Num z) => safe_integer z
  | _ => True
  end.

End Spec.

(* ===================================================================== *)
(** ** Sample data *)
(* ===================================================================== *)

Module Sample.
Import JS Promise Types.

Definition john : CreateEmployeeRequest :=
  mkCreate (js "John Search") (js "JOHN@EXAMPLE.COM") (js "Developer")
    (js "1234567890").

Definition john_again : CreateEmployeeRequest :=
  mkCreate (js "Jane Doe") (js "john@example.com") (js "Designer")
    (js "0987654321").

Definition jane : CreateEmployeeRequest :=
  mkCreate (js "Jane Smith") (js "jane@example.com") (js "Designer")
    (js "0987654321").

Definition bob : CreateEmployeeRequest :=
  mkCreate (js "Bob Stone") (js "bob@example.com") (js "Developer")
    (js "5551234567").

(** The table after the service created [r] at time [now]. *)
Definition add (r : CreateEmployeeRequest) (now : Sqlite.timestamp)
    (t : Sqlite.table) : Sqlite.table :=
  snd (EmployeeService.createEmployee r now t).

Definition one_row : Sqlite.table := add john 100%N Sqlite.empty_table.

Definition two_rows : Sqlite.table := add jane 101%N one_row.

Definition three_rows : Sqlite.table := add bob 102%N two_rows.

Definition rename : UpdateEmployeeRequest :=
  mkUpdate (Some (js "John Updated")) None None None.

Definition no_field : UpdateEmployeeRequest := mkUpdate None None None None.

(** A create request with a three-digit phone number. *)
Definition short_phone_body : Validation.body :=
  Validation.mkBody (JString (js "Ann Lee")) (JString (js "ann@example.com"))
    (JString (js "Developer")) (JString (js "123")).

(** [GET /api/employees?limit=1&offset=0] *)
Definition first_page : EmployeeController.query_string :=
  EmployeeController.mkQuery None None (Some (js "1")) (Some (js "0")).


(** The first row of [one_row] and of [two_rows]. *)
Definition john_row : Sqlite.Employee :=
  Sqlite.mkEmployee 1 (js "John Search") (js "john@example.com")
    (js "Developer") (js "1234567890") 100%N 100%N.

Definition jane_update : UpdateEmployeeRequest :=
  mkUpdate None (Some (js " Jane@Example.com ")) None None.

Definition valid_form : UpdateEmployeeRequest :=
  mkUpdate (Some (js "Ann Lee")) (Some (js "ann@example.com"))
    (Some (js "Developer")) (Some (js "+1 (555) 123-4567")).

Definition second_page : SearchEmployeeRequest :=
  mkSearch (Some (js "example")) None (Some (Num 2)) (Some (Num 2)).

(** A query whose search term, of 50,001 bytes, is one over the pattern
    limit of LIKE. *)
Definition long_query : jsstring := repeat "a"%char (N.to_nat 49999).

End Sample.

(* ===================================================================== *)
(** * Properties *)
(* ===================================================================== *)

(** ** The matcher decides the language *)

Section RegexFacts.
Import Regex.

Lemma nullable_lang (r : regex) : nullable r = true <-> lang r [].
Proof.
  split.
  - induction r; simpl; intros H; try discriminate.
    + constructor.
    + apply andb_true_iff in H as [H1 H2].
      change (@nil ascii) with (@nil ascii ++ []). constructor; auto.
    + apply orb_true_iff in H as [H | H].
      * apply L_alt_l; auto.
      * apply L_alt_r; auto.
    + constructor.
  - intros H. remember (@nil ascii) as w eqn:Ew.
    induction H; simpl; auto; try discriminate.
    + apply app_eq_nil in Ew as [-> ->].
      rewrite IHlang1, IHlang2; auto.
    + rewrite IHlang; auto.
    + rewrite IHlang; auto using orb_true_r.
Qed.

Lemma lang_deriv (c : ascii) (r : regex) (s : list ascii) :
  lang r (c :: s) -> lang (deriv c r) s.
Proof.
  intros H. remember (c :: s) as w eqn:Ew. revert s Ew.
  induction H as [| p a Hp | r1 r2 s1 s2 H1 IH1 H2 IH2 | r1 r2 w H1 IH1
                  | r1 r2 w H1 IH1 | r1 | r1 s1 s2 H1 IH1 H2 IH2];
    intros u Ew; simpl; try discriminate.
  - injection Ew as -> <-. rewrite Hp. constructor.
  - destruct s1 as [| a s1']; simpl in Ew.
    + subst s2. apply nullable_lang in H1. rewrite H1.
      apply L_alt_r. apply IH2; reflexivity.
    + injection Ew as -> <-.
      assert (Hc : lang (Cat (deriv c r1) r2) (s1' ++ s2)).
      { constructor; auto. }
      destruct (nullable r1); [apply L_alt_l |]; exact Hc.
  - apply L_alt_l; auto.
  - apply L_alt_r; auto.
  - destruct s1 as [| a s1']; simpl in Ew.
    + apply IH2; assumption.
    + injection Ew as -> <-. constructor; auto.
Qed.

Lemma deriv_lang (c : ascii) (r : regex) (s : list ascii) :
  lang (deriv c r) s -> lang r (c :: s).
Proof.
  revert s. induction r; intros s H; simpl in H.
  - inversion H.
  - inversion H.
  - destruct (p c) eqn:Hp; inversion H; subst. constructor; assumption.
  - assert (Hcat : forall w, lang (Cat (deriv c r1) r2) w ->
                             lang (Cat r1 r2) (c :: w)).
    { intros w Hw. inversion Hw; subst.
      change (c :: s1 ++ s2) with ((c :: s1) ++ s2). constructor; auto. }
    destruct (nullable r1) eqn:Hn.
    + inversion H; subst; auto.
      change (c :: s) with ([] ++ c :: s). constructor; auto.
      apply nullable_lang; assumption.
    + auto.
  - inversion H; subst.
    + apply L_alt_l; auto.
    + apply L_alt_r; auto.
  - inversion H; subst.
    change (c :: s1 ++ s2) with ((c :: s1) ++ s2). constructor; auto.
Qed.

Lemma test_lang (r : regex) (s : list ascii) : test r s = true <-> lang r s.
Proof.
  revert r. induction s as [| c s IH]; intros r; simpl.
  - apply nullable_lang.
  - rewrite IH. split; [apply deriv_lang | apply lang_deriv].
Qed.

Lemma lang_classes_within (q : ascii -> bool) (r : regex) (s : list ascii) :
  classes_within q r -> lang r s -> Forall (fun c => q c = true) s.
Proof.
  intros Hq H. induction H; simpl in Hq.
  - constructor.
  - constructor; auto.
  - destruct Hq. apply Forall_app; split; auto.
  - destruct Hq; auto.
  - destruct Hq; auto.
  - constructor.
  - apply Forall_app; split; auto.
Qed.

Lemma lang_upto_class (p : ascii -> bool) (n : nat) (s : list ascii) :
  lang (UpTo n (Class p)) s <->
  Forall (fun c => p c = true) s /\ length s <= n.
Proof.
  revert s. induction n as [| n IH]; intros s; simpl.
  - split.
    + intros H. inversion H; subst. split; [constructor | simpl; lia].
    + intros [_ Hl]. destruct s; [constructor | simpl in Hl; lia].
  - split.
    + intros H. inversion H as [| | | ? ? ? H1 | ? ? ? H1 | |]; subst.
      * inversion H1; subst. split; [constructor | simpl; lia].
      * inversion H1 as [| | ? ? ? ? Hc Hr | | | |]; subst.
        inversion Hc; subst. apply IH in Hr as [Hf Hl].
        split; [constructor; auto | simpl; lia].
    + intros [Hf Hl]. destruct s as [| c s].
      * apply L_alt_l. constructor.
      * apply L_alt_r. inversion Hf; subst.
        change (c :: s) with ([c] ++ s). constructor.
        -- constructor; assumption.
        -- apply IH. split; [assumption | simpl in Hl; lia].
Qed.

End RegexFacts.

(** ** Strings *)

Section StringFacts.
Import JS.

Lemma str_eqb_eq (a b : jsstring) : str_eqb a b = true <-> a = b.
Proof.
  unfold str_eqb. destruct (list_eq_dec ascii_dec a b); split; congruence.
Qed.

Lemma is_whitespace_lower_char (c : ascii) :
  is_whitespace (lower_char c) = is_whitespace c.
Proof.
  destruct c as [b0 b1 b2 b3 b4 b5 b6 b7].
  destruct b0, b1, b2, b3, b4, b5, b6, b7; reflexivity.
Qed.

Lemma trimStart_map (f : ascii -> ascii) (s : jsstring) :
  (forall c, is_whitespace (f c) = is_whitespace c) ->
  trimStart (map f s) = map f (trimStart s).
Proof.
  intros Hf. induction s as [| c s IH]; simpl; auto.
  rewrite Hf. destruct (is_whitespace c); auto.
Qed.

Lemma trim_map (f : ascii -> ascii) (s : jsstring) :
  (forall c, is_whitespace (f c) = is_whitespace c) ->
  trim (map f s) = map f (trim s).
Proof.
  intros Hf. unfold trim, trimEnd.
  rewrite (trimStart_map f s Hf), <- map_rev, (trimStart_map f _ Hf), map_rev.
  reflexivity.
Qed.

Lemma trim_toLowerCase (s : jsstring) :
  trim (toLowerCase s) = toLowerCase (trim s).
Proof. apply trim_map, is_whitespace_lower_char. Qed.

Lemma trimStart_head (s : jsstring) :
  Forall (fun c => is_whitespace c = false) s -> trimStart s = s.
Proof.
  intros H. destruct H as [| c s Hc _]; simpl; auto. rewrite Hc; reflexivity.
Qed.

Lemma trim_no_whitespace (s : jsstring) :
  Forall (fun c => is_whitespace c = false) s -> trim s = s.
Proof.
  intros H. unfold trim, trimEnd. rewrite (trimStart_head s H).
  rewrite trimStart_head by (apply Forall_rev; assumption).
  apply rev_involutive.
Qed.

Lemma startsWith_spec (s q : jsstring) :
  startsWith s q = true <-> exists post, s = q ++ post.
Proof.
  revert s. induction q as [| a q IH]; intros s; simpl.
  - split; [intros _; exists s; reflexivity | destruct s; reflexivity].
  - destruct s as [| b s]; simpl.
    + split; [discriminate | intros [post E]; discriminate].
    + rewrite andb_true_iff, Ascii.eqb_eq, IH. split.
      * intros [-> [post ->]]. exists post; reflexivity.
      * intros [post E]. injection E as -> ->. eauto.
Qed.

Lemma includes_spec (s q : jsstring) :
  includes s q = true <-> Spec.is_substring q s.
Proof.
  unfold Spec.is_substring. induction s as [| b s IH].
  - cbn [includes]. rewrite orb_false_r, startsWith_spec. split.
    + intros [post E]. exists [], post. exact E.
    + intros [pre [post E]]. destruct pre; [eauto |]. discriminate.
  - cbn [includes]. rewrite orb_true_iff, startsWith_spec, IH. split.
    + intros [[post E] | [pre [post E]]].
      * exists [], post; exact E.
      * exists (b :: pre), post. rewrite E; reflexivity.
    + intros [pre [post E]]. destruct pre as [| c pre]; simpl in E.
      * left; eauto.
      * right. injection E as _ E. eauto.
Qed.

Lemma nocase_includes (s q : jsstring) :
  Spec.is_substring_nocase q s <->
  includes (map Sqlite.fold_ascii s) (map Sqlite.fold_ascii q) = true.
Proof.
  rewrite includes_spec. unfold Spec.is_substring_nocase, Spec.is_substring.
  split.
  - intros [pre [m [post [-> Hm]]]].
    exists (map Sqlite.fold_ascii pre), (map Sqlite.fold_ascii post).
    rewrite !map_app, Hm. reflexivity.
  - intros [pre [post E]].
    apply map_eq_app in E as [pre' [rest [-> [_ E]]]].
    apply map_eq_app in E as [m [post' [-> [Hm _]]]].
    exists pre', m, post'. auto.
Qed.

End StringFacts.

(** ** The validators *)

Section ValidatorFacts.
Import JS Regex Validation.

Lemma phoneRegex_shape (s : jsstring) :
  test phoneRegex s = true <-> Spec.phone_shape s.
Proof.
  rewrite test_lang. unfold phoneRegex, Spec.phone_shape. split.
  - intros H. inversion H as [| | ? ? sg rest Hs Hr | | | |]; subst.
    inversion Hr as [| | ? ? d1 ds Hd Hds | | | |]; subst.
    inversion Hd; subst.
    apply (proj1 (lang_upto_class is_digit 15 ds)) in Hds as [Hf Hl].
    exists sg. eexists. exists ds. split; [reflexivity |].
    repeat split; auto.
    inversion Hs as [| | | ? ? ? Hsg | ? ? ? Hsg | |]; subst.
    + inversion Hsg; auto.
    + inversion Hsg as [| p0 c0 E | | | | |]; subst.
      apply Ascii.eqb_eq in E. subst; auto.
  - intros [sg [d [ds [-> [Hsg [Hd [Hf Hl]]]]]]].
    constructor.
    + destruct Hsg as [-> | ->].
      * apply L_alt_l. constructor.
      * apply L_alt_r. constructor. reflexivity.
    + change (d :: ds) with ([d] ++ ds). constructor.
      * constructor; assumption.
      * apply (proj2 (lang_upto_class is_digit 15 ds)); auto.
Qed.

(** The server-side rule is the shape alone. *)
Lemma Validation_isValidPhone_shape (phone : jsstring) :
  Validation.isValidPhone phone = true <->
  Spec.phone_shape (Spec.stripped phone).
Proof. unfold Validation.isValidPhone. apply phoneRegex_shape. Qed.

(** The client-side rule is the rule of the specification. *)
Lemma EmployeeValidator_isValidPhone_ok (phone : jsstring) :
  EmployeeValidator.isValidPhone phone = true <-> Spec.phone_ok phone.
Proof.
  unfold EmployeeValidator.isValidPhone, Spec.phone_ok, Spec.stripped.
  rewrite andb_true_iff, phoneRegex_shape, Nat.leb_le. reflexivity.
Qed.

Lemma emailRegex_no_whitespace (email : jsstring) :
  Validation.isValidEmail email = true ->
  Forall (fun c => is_whitespace c = false) email.
Proof.
  unfold Validation.isValidEmail. rewrite test_lang. intros H.
  apply (lang_classes_within (fun c => negb (is_whitespace c))) in H.
  - eapply Forall_impl; [| exact H]. intros c Hc.
    apply negb_true_iff in Hc; exact Hc.
  - assert (Hx : forall c, not_space_at c = true ->
                           negb (is_whitespace c) = true).
    { intros c Hc. unfold not_space_at in Hc.
      rewrite negb_orb in Hc. apply andb_true_iff in Hc as [Hc _]; exact Hc. }
    assert (Hat : forall c, Ascii.eqb "@" c = true ->
                             negb (is_whitespace c) = true).
    { intros c Hc. apply Ascii.eqb_eq in Hc. subst; reflexivity. }
    assert (Hdot : forall c, Ascii.eqb "." c = true ->
                              negb (is_whitespace c) = true).
    { intros c Hc. apply Ascii.eqb_eq in Hc. subst; reflexivity. }
    simpl. tauto.
Qed.

Lemma valid_email_trim (email : jsstring) :
  Validation.isValidEmail email = true -> trim email = email.
Proof. intros H. apply trim_no_whitespace, emailRegex_no_whitespace, H. Qed.

End ValidatorFacts.

(** ** The engine *)

Section SqliteFacts.
Import JS Promise Sqlite.

Lemma insert_desc_perm (r : Employee) (l : list Employee) :
  Permutation (insert_desc r l) (r :: l).
Proof.
  induction l as [| x l IH]; simpl; auto.
  destruct (created_at x <=? created_at r)%N; auto.
  apply perm_trans with (x :: r :: l); [auto | apply perm_swap].
Qed.

Lemma order_by_perm (l : list Employee) :
  Permutation (order_by_created_at_desc l) l.
Proof.
  induction l as [| r l IH]; simpl; auto.
  apply perm_trans with (r :: order_by_created_at_desc l);
    [apply insert_desc_perm | auto].
Qed.

Lemma order_by_length (l : list Employee) :
  length (order_by_created_at_desc l) = length l.
Proof. apply Permutation_length, order_by_perm. Qed.

Lemma order_by_In (r : Employee) (l : list Employee) :
  In r (order_by_created_at_desc l) <-> In r l.
Proof.
  split; apply Permutation_in;
    [apply order_by_perm | apply Permutation_sym, order_by_perm].
Qed.

(** *** LIKE *)

Lemma patternCompare_percent_nil (pat : jsstring) :
  patternCompare ("%"%char :: pat) [] = patternCompare pat [].
Proof. simpl. apply orb_false_r. Qed.

Lemma patternCompare_percent_cons (pat : jsstring) (c : ascii) (s : jsstring) :
  patternCompare ("%"%char :: pat) (c :: s) = patternCompare pat (c :: s) || patternCompare ("%"%char :: pat) s.
Proof. reflexivity. Qed.

Lemma patternCompare_percent (pat s : jsstring) :
  patternCompare ("%"%char :: pat) s = true <->
  exists pre rest, s = pre ++ rest /\ patternCompare pat rest = true.
Proof.
  induction s as [| c s IH].
  - rewrite patternCompare_percent_nil. split.
    + intros H. exists [], []. auto.
    + intros [pre [rest [E H]]]. symmetry in E.
      apply app_eq_nil in E as [_ ->]. exact H.
  - rewrite patternCompare_percent_cons, orb_true_iff, IH. split.
    + intros [H | [pre [rest [-> H]]]].
      * exists [], (c :: s). auto.
      * exists (c :: pre), rest. auto.
    + intros [pre [rest [E H]]]. destruct pre as [| a pre]; simpl in E.
      * left. subst rest. exact H.
      * right. injection E as _ ->. eauto.
Qed.

Lemma patternCompare_percent_only (s : jsstring) : patternCompare ["%"%char] s = true.
Proof. apply patternCompare_percent. exists s, []. rewrite app_nil_r. auto. Qed.

Lemma fold_ascii_eqb (a c : ascii) :
  char_like a c = true <-> fold_ascii c = fold_ascii a.
Proof. unfold char_like. rewrite Ascii.eqb_eq. split; congruence. Qed.

(** A pattern that starts with literal characters matches a string that
    starts with the same characters up to ASCII case. *)
Lemma patternCompare_literal (q rest_pat s : jsstring) :
  forallb (fun c => negb (Spec.is_wildcard c)) q = true ->
  (patternCompare (q ++ rest_pat) s = true <->
   exists m s', s = m ++ s' /\ map fold_ascii m = map fold_ascii q /\
                patternCompare rest_pat s' = true).
Proof.
  revert s. induction q as [| a q IH]; intros s Hq.
  - simpl. split.
    + intros H. exists [], s. auto.
    + intros [m [s' [-> [Hm H]]]]. destruct m; [exact H | discriminate].
  - simpl in Hq. apply andb_true_iff in Hq as [Ha Hq].
    unfold Spec.is_wildcard in Ha. apply negb_true_iff, orb_false_iff in Ha.
    destruct Ha as [Hp Hu]. destruct s as [| c s]; cbn [app patternCompare]; rewrite Hp.
    + split; [discriminate |].
      intros [m [s' [E [Hm _]]]]. destruct m; discriminate.
    + rewrite Hu, orb_false_l, andb_true_iff, fold_ascii_eqb, (IH s Hq). split.
      * intros [Hc [m [s' [-> [Hm H]]]]].
        exists (c :: m), s'. simpl. rewrite Hc, Hm. auto.
      * intros [m [s' [E [Hm H]]]]. destruct m as [| c' m]; [discriminate |].
        simpl in E, Hm. injection E as -> ->. injection Hm as Hc Hm.
        split; [exact Hc | eauto].
Qed.

Lemma c_string_plain (s rest : jsstring) :
  forallb (fun c => negb (code c =? 0)%N) s = true ->
  c_string (s ++ rest) = s ++ c_string rest.
Proof.
  induction s as [| c s IH]; simpl; intros H; [reflexivity |].
  apply andb_true_iff in H as [Hc Hs]. apply negb_true_iff in Hc.
  rewrite Hc, (IH Hs). reflexivity.
Qed.

(** The search term of the code on a query without wildcard and without
    U+0000, on the text up to its first U+0000. *)
Lemma like_searchTerm (q s : jsstring) :
  forallb (fun c => negb (Spec.is_wildcard c)) q = true ->
  forallb (fun c => negb (code c =? 0)%N) q = true ->
  (like (js "%" ++ q ++ js "%") s = true <->
   Spec.is_substring_nocase q (c_string s)).
Proof.
  intros Hq Hz. unfold like.
  change (js "%" ++ q ++ js "%") with ("%"%char :: q ++ ["%"%char]).
  change (c_string ("%"%char :: q ++ ["%"%char]))
    with ("%"%char :: c_string (q ++ ["%"%char])).
  rewrite (c_string_plain q _ Hz).
  change (c_string ["%"%char]) with ["%"%char].
  generalize (c_string s) as text. intros text.
  rewrite patternCompare_percent. unfold Spec.is_substring_nocase. split.
  - intros [pre [rest [-> H]]].
    apply (patternCompare_literal q ["%"%char] rest Hq)
      in H as [m [post [-> [Hm _]]]].
    exists pre, m, post. auto.
  - intros [pre [m [post [-> Hm]]]]. exists pre, (m ++ post). split; auto.
    apply (patternCompare_literal q ["%"%char] (m ++ post) Hq).
    exists m, post. auto using patternCompare_percent_only.
Qed.

(** *** Keys *)

Lemma next_rowid_fresh (t : table) (r : Employee) :
  In r (rows t) -> (id r < next_rowid t)%Z.
Proof.
  unfold next_rowid. generalize (seq t) as z.
  induction (rows t) as [| x l IH]; intros z H; simpl in *; [tauto |].
  destruct H as [-> | H]; [lia |]. specialize (IH z H). lia.
Qed.

Lemma find_id_app_new (i : Z) (l : list Employee) (e : Employee) :
  (forall r, In r l -> id r <> i) -> id e = i ->
  find (fun r => (id r =? i)%Z) (l ++ [e]) = Some e.
Proof.
  intros H E. induction l as [| x l IH]; simpl.
  - rewrite E, Z.eqb_refl; reflexivity.
  - destruct (Z.eqb_spec (id x) i) as [E' | _].
    + exfalso. apply (H x); simpl; auto.
    + apply IH. intros r Hr. apply H; simpl; auto.
Qed.

Lemma existsb_email (e : jsstring) (l : list Employee) :
  existsb (fun r => str_eqb (email r) e) l = true <-> In e (map email l).
Proof.
  rewrite existsb_exists, in_map_iff. split.
  - intros [r [Hr E]]. apply str_eqb_eq in E. eauto.
  - intros [r [E Hr]]. exists r. split; auto. apply str_eqb_eq; auto.
Qed.

Lemma find_map_same_id (i : Z) (f : Employee -> Employee) (l : list Employee) :
  (forall r, id (f r) = id r) ->
  find (fun r => (id r =? i)%Z) (map f l) =
  option_map f (find (fun r => (id r =? i)%Z) l).
Proof.
  intros Hf. induction l as [| x l IH]; simpl; auto.
  rewrite Hf. destruct (id x =? i)%Z; auto.
Qed.

Lemma find_map_other_id (i j : Z) (f : Employee -> Employee)
    (l : list Employee) :
  j <> i -> (forall r, id (f r) = id r) ->
  find (fun r => (id r =? j)%Z)
       (map (fun x => if (id x =? i)%Z then f x else x) l) =
  find (fun r => (id r =? j)%Z) l.
Proof.
  intros Hji Hf. induction l as [| x l IH]; simpl; auto.
  destruct (Z.eqb_spec (id x) i) as [E | N].
  - rewrite Hf, IH. destruct (Z.eqb_spec (id x) j); [lia | reflexivity].
  - rewrite IH. reflexivity.
Qed.

End SqliteFacts.

(** ** The repository and the service *)

Section RepositoryFacts.
Import JS Promise Types Sqlite.

(** The conditions depend on the two filters only. *)
Lemma conditions_of_filters (q p : option jsstring) (lim off : option jsnum) :
  Database.conditions_of (Some (mkSearch q p lim off)) =
  Database.conditions_of (Some (mkSearch q p None None)).
Proof. reflexivity. Qed.

Lemma where_conditions_of (q p : option jsstring) (r : Employee) :
  Spec.no_wildcard q -> Spec.no_nul q ->
  (where_ (Database.conditions_of (Some (mkSearch q p None None))) r = true <->
   Spec.query_holds_in_text q r /\ Spec.position_holds_nonempty p r).
Proof.
  intros Hq Hz.
  assert (Hempty : forall s, Spec.occurs_in_text [] s).
  { intros s. exists [], [], (c_string s). auto. }
  unfold Spec.query_holds_in_text, Spec.query_holds_by.
  unfold where_, Database.conditions_of, Database.opt_field.
  cbn [sp_query sp_position].
  destruct q as [[| a q] |], p as [[| b p] |];
    cbn [truthy_str forallb app eval_cond negb];
    rewrite ?andb_true_r, ?andb_true_iff, ?orb_true_iff, ?str_eqb_eq.
  all: try rewrite !(like_searchTerm (a :: q) _ Hq Hz).
  all: unfold Spec.occurs_in_text, Spec.position_holds_nonempty.
  all: pose proof (Hempty (name r)) as Hnone; unfold Spec.occurs_in_text in Hnone;
    intuition (auto; try congruence; try discriminate).
Qed.

(** The three patterns of the free-text condition are the one search term:
    the condition raises on a row exactly when the term is refused. *)
Lemma raises_conditions_of (sp : option SearchEmployeeRequest) (r : Employee) :
  raises (Database.conditions_of sp) r =
  Spec.term_refused (Database.opt_field sp sp_query).
Proof.
  unfold Database.conditions_of, Spec.term_refused.
  destruct (Database.opt_field sp sp_query) as [[| a q] |],
           (Database.opt_field sp sp_position) as [[| b p] |];
    cbn [truthy_str app raises raises_cond eval_cond andb orb];
    try reflexivity.
  all: rewrite ?andb_false_r, ?orb_false_r; try reflexivity.
  all: match goal with
       | |- context [too_complex ?x] => destruct (too_complex x)
       end; cbn [orb andb]; try reflexivity.
  all: repeat match goal with
         | |- context [like ?a ?b] => destruct (like a b); cbn [negb orb andb]
         end; reflexivity.
Qed.

Lemma scan_conditions_of (sp : option SearchEmployeeRequest) (t : table) :
  scan (Database.conditions_of sp) t =
  if Spec.scan_refused (Database.opt_field sp sp_query) t
  then Reject SqliteLikeTooComplex
  else Resolve (filter (where_ (Database.conditions_of sp)) (rows t)).
Proof.
  unfold scan, Spec.scan_refused.
  assert (E : existsb (raises (Database.conditions_of sp)) (rows t) =
              Spec.term_refused (Database.opt_field sp sp_query)
              && match rows t with [] => false | _ :: _ => true end).
  { induction (rows t) as [| r l IH]; cbn [existsb].
    - rewrite andb_false_r. reflexivity.
    - rewrite raises_conditions_of, IH.
      destruct (Spec.term_refused _), l; reflexivity. }
  rewrite E. reflexivity.
Qed.

(** A number that passed [if (n)] is not 0. *)
Lemma bound_nonzero (o : option jsnum) (z : Z) :
  Database.bound o = Some z -> z <> 0%Z.
Proof.
  destruct o as [[| n] |]; simpl; try discriminate.
  destruct (Z.eqb_spec n 0); [discriminate |]. intros H. injection H as <-.
  assumption.
Qed.

Lemma safe_integer_int64 (z : Z) : Spec.safe_integer z -> int64 z = true.
Proof.
  unfold Spec.safe_integer, int64. intros H.
  apply andb_true_iff. split; [apply Z.leb_le | apply Z.ltb_lt]; lia.
Qed.

(** read-many with no window. *)
Lemma getEmployees_unwindowed (q p : option jsstring) (t : table) :
  Database.getEmployees (Some (mkSearch q p None None)) t =
  if Spec.scan_refused q t
  then Reject SqliteLikeTooComplex
  else Resolve
         (order_by_created_at_desc
            (filter
               (where_ (Database.conditions_of (Some (mkSearch q p None None))))
               (rows t))).
Proof.
  unfold Database.getEmployees, select_all.
  cbn [Database.bound Database.opt_field sp_limit sp_offset].
  rewrite scan_conditions_of. cbn [Database.opt_field sp_query].
  destruct (Spec.scan_refused q t); reflexivity.
Qed.

Lemma getEmployees_unfiltered (t : table) :
  Database.getEmployees None t =
  Resolve (order_by_created_at_desc (rows t)).
Proof.
  unfold Database.getEmployees, select_all, scan.
  cbn [Database.bound Database.opt_field Database.conditions_of raises
       where_ forallb].
  assert (E : existsb (fun _ : Employee => false) (rows t) = false).
  { induction (rows t); simpl; auto. }
  rewrite E. clear E. f_equal. f_equal.
  induction (rows t) as [| r l IH]; simpl; [reflexivity | rewrite IH; reflexivity].
Qed.

(** The count, whatever the window of the parameters. *)
Lemma getEmployeeCount_filters (q p : option jsstring) (lim off : option jsnum)
    (t : table) :
  Database.getEmployeeCount (Some (mkSearch q p lim off)) t =
  if Spec.scan_refused q t
  then Reject SqliteLikeTooComplex
  else Resolve
         (Z.of_nat
            (length
               (filter
                  (where_
                     (Database.conditions_of (Some (mkSearch q p None None))))
                  (rows t)))).
Proof.
  unfold Database.getEmployeeCount, select_count.
  rewrite scan_conditions_of. cbn [Database.opt_field sp_query].
  rewrite (conditions_of_filters q p lim off).
  destruct (Spec.scan_refused q t); reflexivity.
Qed.

(** read-many with a limit other than 0 and an offset, both 64-bit
    integers: skip, then cap. *)
Lemma getEmployees_windowed (q p : option jsstring) (n k : Z) (t : table) :
  n <> 0%Z -> int64 n = true -> int64 k = true ->
  Database.getEmployees (Some (mkSearch q p (Some (Num n)) (Some (Num k)))) t =
  if Spec.scan_refused q t
  then Reject SqliteLikeTooComplex
  else Resolve
         (apply_limit n
            (apply_offset k
               (order_by_created_at_desc
                  (filter
                     (where_
                        (Database.conditions_of
                           (Some (mkSearch q p None None))))
                     (rows t))))).
Proof.
  intros Hn In64 Ik64. unfold Database.getEmployees, select_all.
  cbn [Database.bound Database.opt_field sp_limit sp_offset].
  rewrite scan_conditions_of. cbn [Database.opt_field sp_query].
  rewrite (conditions_of_filters q p (Some (Num n)) (Some (Num k))).
  destruct (Z.eqb_spec n 0); [contradiction |].
  destruct (Z.eqb_spec k 0) as [-> | Hk].
  - rewrite In64. cbn [negb]. destruct (Z.eqb_spec n 0); [contradiction |].
    destruct (Spec.scan_refused q t); reflexivity.
  - rewrite In64, Ik64. cbn [negb]. destruct (Z.eqb_spec n 0); [contradiction |].
    destruct (Spec.scan_refused q t); reflexivity.
Qed.

Lemma updated_fields (u : UpdateEmployeeRequest) (now : timestamp)
    (r : Employee) :
  touch now (fold_left assign (Database.fields_of u) r) = Spec.updated u now r.
Proof.
  destruct u as [[n |] [e |] [p |] [ph |]]; reflexivity.
Qed.

Lemma fields_of_named (u : UpdateEmployeeRequest) :
  (length (Database.fields_of u) =? 0)%nat = false -> Spec.names_a_field u.
Proof.
  unfold Spec.names_a_field.
  destruct u as [[n |] [e |] [p |] [ph |]]; simpl; intros H;
    try discriminate;
    try (left; discriminate);
    try (right; left; discriminate);
    try (right; right; left; discriminate);
    try (right; right; right; discriminate).
Qed.

Lemma service_create_fresh (r : CreateEmployeeRequest) (now : timestamp)
    (t : table) :
  Spec.email_free t (c_email r) ->
  EmployeeService.createEmployee r now t =
  (Resolve (Spec.stored r now t),
   mkTable (rows t ++ [Spec.stored r now t]) (next_rowid t)).
Proof.
  intros Hfree. unfold Spec.email_free in Hfree.
  unfold EmployeeService.createEmployee, Database.createEmployee,
    insert_employee; simpl.
  destruct (existsb _ (rows t)) eqn:Hex.
  - apply existsb_email in Hex. contradiction.
  - unfold Database.getEmployeeById, select_by_id; simpl.
    rewrite find_id_app_new.
    + reflexivity.
    + intros x Hx E. apply next_rowid_fresh in Hx. lia.
    + reflexivity.
Qed.

Lemma service_create_taken (r : CreateEmployeeRequest) (now : timestamp)
    (t : table) :
  In (toLowerCase (trim (c_email r))) (map email (rows t)) ->
  EmployeeService.createEmployee r now t = (Reject SqliteUniqueConstraint, t).
Proof.
  intros Hin. apply existsb_email in Hin.
  unfold EmployeeService.createEmployee, Database.createEmployee,
    insert_employee; simpl.
  rewrite Hin. reflexivity.
Qed.

End RepositoryFacts.

(** ** Count and page *)

Section Claims.
Import JS Promise Types Sqlite.

(** C1: for every filter combination (free-text query and position, each
    optional, or no search parameters at all) and every table state,
    [getEmployeeCount] settles as [getEmployees] does with the same filters
    and neither limit nor offset, on the same table: when read-many
    resolves, the count resolves to the number of rows it resolves to, and
    when read-many rejects, the count rejects with the same error.  With no
    search parameters both resolve. *)
Theorem C1_count_equals_read_many_length :
  forall (q p : option jsstring) (lim off : option jsnum) (t : table),
    (forall l,
        Database.getEmployees (Some (mkSearch q p None None)) t = Resolve l ->
        Database.getEmployeeCount (Some (mkSearch q p lim off)) t =
        Resolve (Z.of_nat (length l)))
    /\
    (forall err,
        Database.getEmployees (Some (mkSearch q p None None)) t = Reject err ->
        Database.getEmployeeCount (Some (mkSearch q p lim off)) t = Reject err)
    /\
    (exists l,
        Database.getEmployees None t = Resolve l /\
        Database.getEmployeeCount None t = Resolve (Z.of_nat (length l))).
Proof.
  intros q p lim off t.
  rewrite getEmployees_unwindowed, (getEmployeeCount_filters q p lim off).
  split; [| split].
  - destruct (Spec.scan_refused q t); intros l H; [discriminate H |].
    injection H as <-. rewrite order_by_length. reflexivity.
  - destruct (Spec.scan_refused q t); intros err H; [| discriminate H].
    injection H as <-. reflexivity.
  - rewrite getEmployees_unfiltered. eexists. split; [reflexivity |].
    unfold Database.getEmployeeCount, select_count, scan.
    cbn [Database.conditions_of Database.opt_field raises where_ forallb].
    assert (E : existsb (fun _ : Employee => false) (rows t) = false).
    { induction (rows t); simpl; auto. }
    rewrite E, order_by_length. clear E. do 2 f_equal.
    induction (rows t) as [| r l IH]; simpl; [reflexivity |].
    rewrite IH. reflexivity.
Qed.

Lemma C1_count_equals_read_many_length_witness :
  (exists l,
      Database.getEmployees
        (Some (mkSearch (Some (js "example")) (Some (js "Developer"))
                 None None)) Sample.three_rows = Resolve l /\
      Database.getEmployeeCount
        (Some (mkSearch (Some (js "example")) (Some (js "Developer"))
                 (Some (Num 1)) (Some (Num 1)))) Sample.three_rows =
      Resolve (Z.of_nat (length l)))
  /\
  Database.getEmployeeCount
    (Some (mkSearch (Some Sample.long_query) None None None))
    Sample.three_rows = Reject SqliteLikeTooComplex.
Proof.
  split.
  - eexists. split; [reflexivity |].
    apply (proj1 (C1_count_equals_read_many_length (Some (js "example"))
                    (Some (js "Developer")) (Some (Num 1)) (Some (Num 1))
                    Sample.three_rows)).
    reflexivity.
  - apply (proj1 (proj2 (C1_count_equals_read_many_length
                           (Some Sample.long_query) None None None
                           Sample.three_rows))).
    vm_compute. reflexivity.
Defined.

(** ** Search *)

(** C2, as stated, fails under either reading of "occurs as a substring".
    Read with case: on the table that holds the one employee "John Search",
    the query "john search" returns that row, and "john search" occurs in
    none of its name, email and phone.  Read without case: the query "j_hn"
    returns that row too, and "j_hn" occurs in none of the three. *)
Lemma C2_counterexample_like_is_not_substring :
  ~ Spec.read_many_exact_by Spec.is_substring
      (Some (js "john search")) None Sample.one_row
  /\
  ~ Spec.read_many_exact_by Spec.is_substring_nocase
      (Some (js "j_hn")) None Sample.one_row.
Proof.
  split.
  - intros [l [Hl H]]. vm_compute in Hl. injection Hl as <-.
    destruct (proj1 (H _) (or_introl eq_refl)) as [_ [Hq _]].
    unfold Spec.query_holds_by in Hq. rewrite <- !includes_spec in Hq.
    vm_compute in Hq. destruct Hq as [Hq | [Hq | Hq]]; discriminate Hq.
  - intros [l [Hl H]]. vm_compute in Hl. injection Hl as <-.
    destruct (proj1 (H _) (or_introl eq_refl)) as [_ [Hq _]].
    unfold Spec.query_holds_by in Hq. rewrite !nocase_includes in Hq.
    vm_compute in Hq. destruct Hq as [Hq | [Hq | Hq]]; discriminate Hq.
Qed.

(** C2, amended: for every table state and every query that holds none of
    [%], [_] and U+0000, what read-many resolves to is exactly the rows in
    which the query occurs in name, email or phone, each read up to its
    first U+0000, when ASCII letters are compared without case; with a
    non-empty position filter, exactly those of them whose position equals
    the filter value; an absent or empty filter imposes no condition. *)
Theorem C2_read_many_filters :
  forall (q p : option jsstring) (t : table) (l : list Employee),
    Spec.no_wildcard q ->
    Spec.no_nul q ->
    Database.getEmployees (Some (mkSearch q p None None)) t = Resolve l ->
    forall r,
      In r l <->
      In r (rows t) /\ Spec.query_holds_in_text q r
      /\ Spec.position_holds_nonempty p r.
Proof.
  intros q p t l Hq Hz. rewrite getEmployees_unwindowed.
  destruct (Spec.scan_refused q t); intros H; [discriminate H |].
  injection H as <-.
  intros r. rewrite order_by_In, filter_In, (where_conditions_of q p r Hq Hz).
  reflexivity.
Qed.

Lemma C2_read_many_filters_witness :
  exists l,
    Database.getEmployees
      (Some (mkSearch (Some (js "john search")) (Some (js "Developer"))
               None None)) Sample.two_rows = Resolve l /\
    forall r,
      In r l <->
      In r (rows Sample.two_rows)
      /\ Spec.query_holds_in_text (Some (js "john search")) r
      /\ Spec.position_holds_nonempty (Some (js "Developer")) r.
Proof.
  eexists. split; [reflexivity |].
  apply (C2_read_many_filters (Some (js "john search"))
           (Some (js "Developer")) Sample.two_rows); reflexivity.
Defined.

(** ** Unique email *)

(** C3: on a table that does not yet store the address of the first
    request, two create requests whose emails are equal up to letter case
    end with the first created and the second rejected with the UNIQUE
    constraint error of the engine, the table left as the first create made
    it; two validated create requests whose emails differ, neither stored
    yet, are both created. *)
Theorem C3_duplicate_email_conflict :
  forall (r1 r2 : CreateEmployeeRequest) (now1 now2 : timestamp) (t : table),
    Spec.email_free t (c_email r1) ->
    (Spec.same_email (c_email r1) (c_email r2) ->
     exists e1 t1,
       EmployeeService.createEmployee r1 now1 t = (Resolve e1, t1) /\
       rows t1 = rows t ++ [e1] /\
       EmployeeService.createEmployee r2 now2 t1 =
       (Reject SqliteUniqueConstraint, t1))
    /\
    (~ Spec.same_email (c_email r1) (c_email r2) ->
     Validation.isValidEmail (c_email r1) = true ->
     Validation.isValidEmail (c_email r2) = true ->
     Spec.email_free t (c_email r2) ->
     exists e1 t1 e2 t2,
       EmployeeService.createEmployee r1 now1 t = (Resolve e1, t1) /\
       EmployeeService.createEmployee r2 now2 t1 = (Resolve e2, t2) /\
       rows t2 = rows t ++ [e1; e2]).
Proof.
  intros r1 r2 now1 now2 t Hfree. split.
  - intros Hsame. do 2 eexists. split; [| split].
    + apply service_create_fresh; assumption.
    + reflexivity.
    + apply service_create_taken. simpl. rewrite map_app, in_app_iff.
      right. simpl. left. unfold Spec.same_email in Hsame.
      rewrite <- !trim_toLowerCase, Hsame. reflexivity.
  - intros Hdiff Hv1 Hv2 Hfree2. do 4 eexists. split; [| split].
    + apply service_create_fresh; assumption.
    + apply service_create_fresh. unfold Spec.email_free in *. simpl.
      rewrite map_app, in_app_iff. simpl. intros [H | [H | []]].
      * contradiction.
      * apply Hdiff. unfold Spec.same_email.
        rewrite (valid_email_trim _ Hv1), (valid_email_trim _ Hv2) in H.
        exact H.
    + simpl. rewrite <- app_assoc. reflexivity.
Qed.

Lemma C3_duplicate_email_conflict_witness :
  (exists e1 t1,
      EmployeeService.createEmployee Sample.john 100%N empty_table
      = (Resolve e1, t1) /\
      rows t1 = rows empty_table ++ [e1] /\
      EmployeeService.createEmployee Sample.john_again 101%N t1
      = (Reject SqliteUniqueConstraint, t1))
  /\
  (exists e1 t1 e2 t2,
      EmployeeService.createEmployee Sample.john 100%N empty_table
      = (Resolve e1, t1) /\
      EmployeeService.createEmployee Sample.jane 101%N t1
      = (Resolve e2, t2) /\
      rows t2 = rows empty_table ++ [e1; e2]).
Proof.
  assert (Hfree : forall e, Spec.email_free empty_table e).
  { intros e H. exact H. }
  split.
  - apply (proj1 (C3_duplicate_email_conflict Sample.john Sample.john_again
                    100%N 101%N empty_table (Hfree _))).
    reflexivity.
  - apply (proj2 (C3_duplicate_email_conflict Sample.john Sample.jane
                    100%N 101%N empty_table (Hfree _))).
    + intros H. vm_compute in H. discriminate H.
    + reflexivity.
    + reflexivity.
    + apply Hfree.
Defined.

(** ** Partial update *)

(** C4: when [updateEmployee] resolves to true, the request names at
    least one field, a row with the id existed, and in the new table that
    row has the named fields at their new values, [updated_at] at the
    current time, and its unnamed fields, [created_at] and [id] as before;
    every other row, the order of the rows and the AUTOINCREMENT counter are
    as before. *)
Theorem C4_update_changes_named_fields_only :
  forall (i : Z) (u : UpdateEmployeeRequest) (now : timestamp) (t t' : table),
    Database.updateEmployee i u now t = (Resolve true, t') ->
    Spec.names_a_field u /\
    exists old,
      Database.getEmployeeById i t = Resolve (Some old) /\
      Database.getEmployeeById i t' = Resolve (Some (Spec.updated u now old)) /\
      (forall j, j <> i ->
                 Database.getEmployeeById j t' = Database.getEmployeeById j t) /\
      rows t' =
      map (fun r => if (id r =? i)%Z then Spec.updated u now r else r) (rows t) /\
      seq t' = seq t.
Proof.
  intros i u now t t' H. unfold Database.updateEmployee in H.
  destruct (length (Database.fields_of u) =? 0)%nat eqn:Hlen;
    [discriminate H |].
  split; [apply fields_of_named; exact Hlen |].
  unfold update_employee in H.
  destruct (find (fun r => (id r =? i)%Z) (rows t)) as [old |] eqn:Hfind;
    [| discriminate H].
  destruct (existsb is_email (Database.fields_of u) && _); [discriminate H |].
  injection H as <-. exists old.
  assert (Hrows :
    map (fun x => if (id x =? i)%Z
                  then touch now (fold_left assign (Database.fields_of u) x)
                  else x) (rows t) =
    map (fun r => if (id r =? i)%Z then Spec.updated u now r else r) (rows t)).
  { apply map_ext. intros x. rewrite updated_fields. reflexivity. }
  unfold Database.getEmployeeById, select_by_id. cbn [rows seq].
  rewrite Hrows. repeat split.
  - rewrite Hfind. reflexivity.
  - rewrite find_map_same_id, Hfind by (intros r; destruct (id r =? i)%Z; reflexivity).
    apply find_some in Hfind as [_ Hid]. simpl. rewrite Hid. reflexivity.
  - intros j Hj. f_equal. apply find_map_other_id; auto.
Qed.

Lemma C4_update_changes_named_fields_only_witness :
  Spec.names_a_field Sample.rename /\
  exists old,
    Database.getEmployeeById 1 Sample.two_rows = Resolve (Some old) /\
    Database.getEmployeeById 1
      (snd (Database.updateEmployee 1 Sample.rename 200%N Sample.two_rows))
    = Resolve (Some (Spec.updated Sample.rename 200%N old)) /\
    (forall j, j <> 1%Z ->
       Database.getEmployeeById j
         (snd (Database.updateEmployee 1 Sample.rename 200%N Sample.two_rows))
       = Database.getEmployeeById j Sample.two_rows) /\
    rows (snd (Database.updateEmployee 1 Sample.rename 200%N Sample.two_rows))
    = map (fun r => if (id r =? 1)%Z
                    then Spec.updated Sample.rename 200%N r else r)
        (rows Sample.two_rows) /\
    seq (snd (Database.updateEmployee 1 Sample.rename 200%N Sample.two_rows))
    = seq Sample.two_rows.
Proof.
  apply (C4_update_changes_named_fields_only 1 Sample.rename 200%N
           Sample.two_rows).
  reflexivity.
Defined.

(** An update of an existing row that names a field succeeds unless it
    assigns an email another row stores. *)
Lemma updateEmployee_succeeds (i : Z) (u : UpdateEmployeeRequest)
    (now : timestamp) (t : table) (old : Employee) :
  Spec.names_a_field u ->
  Database.getEmployeeById i t = Resolve (Some old) ->
  (forall e o, u_email u = Some e -> In o (rows t) -> id o <> i ->
               email o <> e) ->
  exists t', Database.updateEmployee i u now t = (Resolve true, t').
Proof.
  intros Hnamed Hold Hfree.
  unfold Database.getEmployeeById, select_by_id in Hold. injection Hold as Hold.
  unfold Database.updateEmployee, update_employee. rewrite Hold.
  assert (Hlen : (length (Database.fields_of u) =? 0)%nat = false).
  { unfold Spec.names_a_field in Hnamed.
    destruct u as [[n |] [e |] [p |] [ph |]]; simpl in *;
      try reflexivity; intuition congruence. }
  rewrite Hlen.
  destruct (existsb is_email (Database.fields_of u) && _) eqn:Hdup;
    [| eexists; reflexivity].
  exfalso. apply andb_true_iff in Hdup as [Hset Hdup].
  apply existsb_exists in Hdup as [o [Ho Hdup]].
  apply andb_true_iff in Hdup as [Hid Heq].
  apply negb_true_iff, Z.eqb_neq in Hid. apply str_eqb_eq in Heq.
  rewrite updated_fields in Heq. simpl in Heq.
  destruct (u_email u) as [e |] eqn:He.
  - apply (Hfree e o eq_refl Ho Hid). exact Heq.
  - destruct u as [[n |] [e |] [p |] [ph |]]; simpl in *; discriminate.
Qed.

(** C5: for every id, [updateEmployee] with no field resolves to false
    and leaves the table as it is; for every id no row has,
    [updateEmployee] with any fields resolves to false and leaves the table
    as it is. *)
Theorem C5_update_without_effect :
  forall (i : Z) (now : timestamp) (t : table),
    Database.updateEmployee i (mkUpdate None None None None) now t =
    (Resolve false, t)
    /\
    (forall u : UpdateEmployeeRequest,
        Database.getEmployeeById i t = Resolve None ->
        Database.updateEmployee i u now t = (Resolve false, t)).
Proof.
  intros i now t. split; [reflexivity |].
  intros u H. unfold Database.getEmployeeById, select_by_id in H.
  injection H as H. unfold Database.updateEmployee, update_employee.
  rewrite H. destruct (length (Database.fields_of u) =? 0)%nat; reflexivity.
Qed.

Lemma C5_update_without_effect_witness :
  Database.updateEmployee 999 Sample.no_field 200%N Sample.two_rows
  = (Resolve false, Sample.two_rows)
  /\
  Database.updateEmployee 999 Sample.rename 200%N Sample.two_rows
  = (Resolve false, Sample.two_rows).
Proof.
  split.
  - apply (proj1 (C5_update_without_effect 999 200%N Sample.two_rows)).
  - apply (proj2 (C5_update_without_effect 999 200%N Sample.two_rows)).
    reflexivity.
Defined.

(** ** The pagination window *)

(** With a limit and an offset that are both numbers other than 0 and
    64-bit integers, read-many skips, then caps. *)
Lemma getEmployees_window (q p : option jsstring) (n k : Z) (t : table)
    (l : list Employee) :
  n <> 0%Z -> k <> 0%Z -> int64 n = true -> int64 k = true ->
  Database.getEmployees (Some (mkSearch q p None None)) t = Resolve l ->
  Database.getEmployees (Some (mkSearch q p (Some (Num n)) (Some (Num k)))) t =
  Resolve (apply_limit n (apply_offset k l)).
Proof.
  intros Hn Hk In64 Ik64.
  rewrite getEmployees_unwindowed, (getEmployees_windowed q p n k t Hn In64 Ik64).
  destruct (Spec.scan_refused q t); [discriminate |].
  intros H. injection H as <-. reflexivity.
Qed.

(** C6: for every filter combination, every limit and every table state,
    [getEmployees] with offset 0 settles as it does with no offset.  When
    read-many with the filters alone resolves, that is with all matching
    rows in order when there is no limit, and with the first [n] of them
    under a positive limit [n] that a double holds exactly; and the
    controller answers a request with [offset=0] as it answers the request
    without the parameter. *)
Theorem C6_offset_zero_is_no_offset :
  forall (q p : option jsstring) (lim : option jsnum) (t : table),
    Database.getEmployees (Some (mkSearch q p lim (Some (Num 0)))) t =
    Database.getEmployees (Some (mkSearch q p lim None)) t
    /\
    (forall l,
        Database.getEmployees (Some (mkSearch q p None None)) t = Resolve l ->
        Database.getEmployees (Some (mkSearch q p None (Some (Num 0)))) t =
        Resolve l /\
        forall n : Z,
          (0 < n)%Z ->
          Spec.safe_integer n ->
          Database.getEmployees
            (Some (mkSearch q p (Some (Num n)) (Some (Num 0)))) t =
          Resolve (firstn (Z.to_nat n) l))
    /\
    (forall ql : option jsstring,
        EmployeeController.getEmployees
          (EmployeeController.mkQuery q p ql (Some (js "0"))) t =
        EmployeeController.getEmployees
          (EmployeeController.mkQuery q p ql None) t).
Proof.
  intros q p lim t. split; [reflexivity |]. split.
  - intros l Hl. split; [exact Hl |].
    intros n Hn Hsafe. rewrite getEmployees_unwindowed in Hl.
    rewrite (getEmployees_windowed q p n 0 t);
      [| lia | apply safe_integer_int64; assumption | reflexivity].
    destruct (Spec.scan_refused q t); [discriminate Hl |].
    injection Hl as <-. unfold apply_limit, apply_offset.
    destruct (Z.ltb_spec n 0); [lia | reflexivity].
  - intros ql. reflexivity.
Qed.

Lemma C6_offset_zero_is_no_offset_witness :
  exists l,
    Database.getEmployees
      (Some (mkSearch (Some (js "example")) None None None))
      Sample.three_rows = Resolve l /\
    Database.getEmployees
      (Some (mkSearch (Some (js "example")) None None (Some (Num 0))))
      Sample.three_rows = Resolve l /\
    Database.getEmployees
      (Some (mkSearch (Some (js "example")) None (Some (Num 2))
               (Some (Num 0))))
      Sample.three_rows = Resolve (firstn (Z.to_nat 2) l).
Proof.
  eexists. split; [reflexivity |].
  destruct (proj1 (proj2 (C6_offset_zero_is_no_offset (Some (js "example"))
                            None None Sample.three_rows)) _ eq_refl)
    as [Hzero Hlimit].
  split; [exact Hzero | apply Hlimit; reflexivity].
Defined.

(** C7, on the code: with an offset other than 0 and no limit,
    [getEmployees] rejects with the syntax error of the engine, for every
    filter combination and every table state, where the claim has it
    resolve to the matching rows without the first [k]. *)
Theorem C7_offset_without_limit_rejects :
  forall (q p : option jsstring) (k : Z) (t : table),
    (0 < k)%Z ->
    Database.getEmployees (Some (mkSearch q p None (Some (Num k)))) t =
    Reject SqliteSyntaxError.
Proof.
  intros q p k t Hk. unfold Database.getEmployees, select_all. simpl.
  destruct (Z.eqb_spec k 0); [lia | reflexivity].
Qed.

Lemma C7_offset_without_limit_rejects_witness :
  Database.getEmployees (Some (mkSearch None None None (Some (Num 1))))
    Sample.three_rows = Reject SqliteSyntaxError.
Proof.
  apply (C7_offset_without_limit_rejects None None 1 Sample.three_rows).
  reflexivity.
Defined.

(** C10: for every filter combination, every offset and every table
    state, [getEmployees] with limit 0 settles as it does with no limit;
    with no offset, when read-many with the filters alone resolves, that is
    with the list of all matching rows, as many as [getEmployeeCount]
    counts. *)
Theorem C10_limit_zero_is_no_limit :
  forall (q p : option jsstring) (off : option jsnum) (t : table),
    Database.getEmployees (Some (mkSearch q p (Some (Num 0)) off)) t =
    Database.getEmployees (Some (mkSearch q p None off)) t
    /\
    (forall l,
      Database.getEmployees (Some (mkSearch q p None None)) t = Resolve l ->
      Database.getEmployees (Some (mkSearch q p (Some (Num 0)) None)) t
      = Resolve l /\
      Database.getEmployeeCount (Some (mkSearch q p (Some (Num 0)) None)) t
      = Resolve (Z.of_nat (length l))).
Proof.
  intros q p off t. split; [reflexivity |].
  intros l Hl. split; [exact Hl |].
  rewrite getEmployees_unwindowed in Hl.
  rewrite (getEmployeeCount_filters q p (Some (Num 0)) None).
  destruct (Spec.scan_refused q t); [discriminate Hl |].
  injection Hl as <-. rewrite order_by_length. reflexivity.
Qed.

Lemma C10_limit_zero_is_no_limit_witness :
  exists l,
    Database.getEmployees
      (Some (mkSearch (Some (js "example")) None None None))
      Sample.three_rows = Resolve l /\
    Database.getEmployees
      (Some (mkSearch (Some (js "example")) None (Some (Num 0)) None))
      Sample.three_rows = Resolve l /\
    Database.getEmployeeCount
      (Some (mkSearch (Some (js "example")) None (Some (Num 0)) None))
      Sample.three_rows = Resolve (Z.of_nat (length l)) /\
    length l = 3.
Proof.
  eexists. split; [reflexivity |].
  split; [| split; [| reflexivity]].
  - apply (proj2 (C10_limit_zero_is_no_limit (Some (js "example")) None None
                    Sample.three_rows)).
    reflexivity.
  - apply (proj2 (C10_limit_zero_is_no_limit (Some (js "example")) None None
                    Sample.three_rows)).
    reflexivity.
Defined.

(** ** Phone validation *)

(** C8, on the code: the server-side middleware lets a create request and
    an update request with the phone "123" through, though the stripped
    phone has 3 characters, fewer than the 10 the rule asks for; the
    client-side validator rejects the same phone. *)
Theorem C8_server_accepts_short_phone :
  Validation.validateCreateEmployee Sample.short_phone_body = Validation.Next
  /\ Validation.validateUpdateEmployee Sample.short_phone_body
     = Validation.Next
  /\ Validation.isValidPhone (js "123") = true
  /\ ~ Spec.phone_ok (js "123")
  /\ EmployeeValidator.isValidPhone (js "123") = false.
Proof.
  repeat split.
  intros [_ H]. vm_compute in H. lia.
Qed.

(** ** Pagination metadata *)

(** C9, on the code: for [GET /api/employees?limit=1&offset=0] on a table of
    three employees the controller answers with total 3, limit 1, offset 0
    and [hasMore] false, though 0 + 1 < 3. *)
Theorem C9_first_page_reports_no_more :
  exists employees,
    EmployeeController.getEmployees Sample.first_page Sample.three_rows =
    EmployeeController.Json200 employees
      (EmployeeController.mkPagination 3 1 0 false)
    /\ length employees = 1
    /\ (0 + 1 <? 3)%Z = true.
Proof.
  eexists. split; [vm_compute; reflexivity | split; reflexivity].
Qed.

(** With the offset parameter [0] the controller reports [hasMore] false,
    whatever the total. *)
Lemma hasMore_offset_zero (q p ql : option jsstring) (t : table)
    (employees : list Employee) (pg : EmployeeController.pagination) :
  EmployeeController.getEmployees
    (EmployeeController.mkQuery q p ql (Some (js "0"))) t =
  EmployeeController.Json200 employees pg ->
  EmployeeController.hasMore pg = false.
Proof.
  unfold EmployeeController.getEmployees.
  destruct (EmployeeService.getEmployees _ t) as [[l n] | e];
    [| discriminate].
  intros H. injection H as _ <-. reflexivity.
Qed.

(** With an offset parameter that parses to a number other than 0, the
    controller reports [hasMore] as [offset + limit < total]. *)
Lemma hasMore_offset_nonzero (qs : EmployeeController.query_string) (k : Z)
    (t : table) (employees : list Employee)
    (pg : EmployeeController.pagination) :
  EmployeeController.parse_param (EmployeeController.q_offset qs)
  = Some (Num k) ->
  k <> 0%Z ->
  EmployeeController.getEmployees qs t =
  EmployeeController.Json200 employees pg ->
  EmployeeController.offset pg = k /\
  EmployeeController.hasMore pg =
  (EmployeeController.offset pg + EmployeeController.limit pg
   <? EmployeeController.total pg)%Z.
Proof.
  intros Hoff Hk. unfold EmployeeController.getEmployees.
  destruct (EmployeeService.getEmployees _ t) as [[l n] | e];
    [| discriminate].
  intros H. injection H as _ <-. simpl. rewrite Hoff. simpl.
  destruct (Z.eqb_spec k 0); [contradiction |]. auto.
Qed.

(** [GET /api/employees?offset=1]: the rejection reaches the client as a
    500 response. *)
Example offset_without_limit_is_500 :
  EmployeeController.getEmployees
    (EmployeeController.mkQuery None None None (Some (js "1")))
    Sample.three_rows =
  EmployeeController.Json500 (message SqliteSyntaxError).
Proof. reflexivity. Qed.

(** The controller recognises the rejection of a duplicate email by this
    text of its message. *)
Example unique_constraint_message :
  includes (message SqliteUniqueConstraint) (js "UNIQUE constraint failed")
  = true.
Proof. reflexivity. Qed.

(** A wildcard in the query is a wildcard of LIKE: the query [%] returns a
    row in which no [%] occurs. *)
Example wildcard_query_matches_everything :
  exists r,
    Database.getEmployees (Some (mkSearch (Some (js "%")) None None None))
      Sample.one_row = Resolve [r] /\
    includes (name r) (js "%") = false /\
    includes (email r) (js "%") = false /\
    includes (phone r) (js "%") = false.
Proof. eexists. repeat split. Qed.

(** An empty position filter is no filter. *)
Example empty_position_is_no_filter :
  Database.getEmployees (Some (mkSearch None (Some []) None None))
    Sample.two_rows =
  Database.getEmployees (Some (mkSearch None None None None)) Sample.two_rows.
Proof. reflexivity. Qed.

(** [GET /api/employees?limit=9223372036854775808]: the engine takes only
    a 64-bit integer for LIMIT, and the rejection reaches the client as a
    500 response. *)
Example limit_out_of_range_is_500 :
  EmployeeController.getEmployees
    (EmployeeController.mkQuery None None
       (Some (js "9223372036854775808")) None)
    Sample.three_rows =
  EmployeeController.Json500 (message SqliteMismatch).
Proof. reflexivity. Qed.

(** LIKE reads the search term and the text up to their first U+0000: the
    query "a", U+0000, "b" finds the name "Ana", and the query "hn" does
    not find the name "Jo", U+0000, "hn". *)
Example like_ends_at_nul :
  like (js "%" ++ (js "a" ++ [Ascii.zero] ++ js "b") ++ js "%") (js "Ana")
  = true
  /\
  like (js "%" ++ js "hn" ++ js "%") (js "Jo" ++ [Ascii.zero] ++ js "hn")
  = false.
Proof. split; reflexivity. Qed.

(** A search term of 50,001 bytes is refused on a table that has a row,
    and is not looked at on the empty table. *)
Example long_query_is_refused :
  Database.getEmployees
    (Some (mkSearch (Some Sample.long_query) None None None)) Sample.one_row
  = Reject SqliteLikeTooComplex
  /\
  Database.getEmployees
    (Some (mkSearch (Some Sample.long_query) None None None)) empty_table
  = Resolve [].
Proof. split; vm_compute; reflexivity. Qed.

End Claims.

(* ===================================================================== *)
(** * Further properties *)
(* ===================================================================== *)

(** ** Numbers as text *)

Lemma digit_cases (d : Z) :
  (0 <= d < 10)%Z ->
  d = 0%Z \/ d = 1%Z \/ d = 2%Z \/ d = 3%Z \/ d = 4%Z \/ d = 5%Z \/ d = 6%Z
  \/ d = 7%Z \/ d = 8%Z \/ d = 9%Z.
Proof. lia. Qed.

Ltac each_digit H :=
  apply digit_cases in H;
  repeat (destruct H as [H | H]; [subst |]); subst.

Ltac literal_digits :=
  repeat match goal with
  | |- context [JS.digit_char ?k] =>
      let c := eval vm_compute in (JS.digit_char k) in
      change (JS.digit_char k) with c
  | H : context [JS.digit_char ?k] |- _ =>
      let c := eval vm_compute in (JS.digit_char k) in
      change (JS.digit_char k) with c in H
  end.

Section NumberFacts.
Import JS.

Lemma digit_value_digit_char (d : Z) :
  (0 <= d < 10)%Z -> digit_value (digit_char d) = Some d.
Proof. intros H. each_digit H; reflexivity. Qed.

Lemma digit_char_plain (d : Z) :
  (0 <= d < 10)%Z ->
  is_whitespace (digit_char d) = false /\
  digit_char d <> "-"%char /\ digit_char d <> "+"%char /\
  digit_char d <> "x"%char /\ digit_char d <> "X"%char.
Proof. intros H. each_digit H; repeat split; discriminate. Qed.

Lemma parse_to_digits (f : nat) (n : Z) (rest : jsstring) :
  (0 <= n < 2 ^ (Z.of_nat f + 1))%Z ->
  parse_digits 10 (to_digits f n rest) None = parse_digits 10 rest (Some n).
Proof.
  assert (Hstep : forall m tail,
             (0 <= m < 10)%Z ->
             parse_digits 10 (digit_char m :: tail) None =
             parse_digits 10 tail (Some m)).
  { intros m tail Hm. cbn [parse_digits].
    rewrite (digit_value_digit_char m Hm).
    destruct (Z.ltb_spec m 10); [reflexivity | lia]. }
  revert n rest. induction f as [| f IH]; intros n rest Hn.
  - cbn [to_digits]. change (2 ^ (Z.of_nat 0 + 1))%Z with 2%Z in Hn.
    rewrite Z.mod_small by lia. apply Hstep. lia.
  - cbn [to_digits]. destruct (Z.ltb_spec n 10) as [Hlt | Hge].
    + rewrite Z.mod_small by lia. apply Hstep. lia.
    + rewrite IH.
      * cbn [parse_digits].
        assert (Hd : (0 <= n mod 10 < 10)%Z) by (apply Z.mod_pos_bound; lia).
        rewrite (digit_value_digit_char _ Hd).
        destruct (Z.ltb_spec (n mod 10) 10); [| lia].
        f_equal. f_equal. pose proof (Z.div_mod n 10). lia.
      * replace (Z.of_nat (S f) + 1)%Z with (Z.succ (Z.of_nat f + 1))%Z in Hn
          by lia.
        rewrite Z.pow_succ_r in Hn by lia.
        split; [apply Z.div_pos; lia |].
        apply Z.div_lt_upper_bound; lia.
Qed.

(** The text starts with a digit, and a second character, when there is
    one in front of [acc], is a digit too. *)
Lemma to_digits_shape (f : nat) (n : Z) (acc : jsstring) :
  (0 <= n)%Z ->
  exists d tail,
    to_digits f n acc = digit_char d :: tail /\ (0 <= d < 10)%Z /\
    (tail = acc \/
     exists d2 tail2, tail = digit_char d2 :: tail2 /\ (0 <= d2 < 10)%Z).
Proof.
  revert n acc. induction f as [| f IH]; intros n acc Hn; cbn [to_digits].
  - exists (n mod 10)%Z, acc. split; [reflexivity |].
    split; [apply Z.mod_pos_bound; lia | left; reflexivity].
  - destruct (Z.ltb_spec n 10) as [Hlt | Hge].
    + exists (n mod 10)%Z, acc. split; [reflexivity |].
      split; [apply Z.mod_pos_bound; lia | left; reflexivity].
    + destruct (IH (n / 10)%Z (digit_char (n mod 10) :: acc))
        as [d [tail [E [Hd Htail]]]]; [apply Z.div_pos; lia |].
      exists d, tail. split; [exact E |]. split; [exact Hd |]. right.
      destruct Htail as [-> | Htail]; [| exact Htail].
      exists (n mod 10)%Z, acc. split; [reflexivity |].
      apply Z.mod_pos_bound; lia.
Qed.

Lemma radix_of_single (c : ascii) :
  match [c] with
  | "0"%char :: "x"%char :: r => (16%Z, r)
  | "0"%char :: "X"%char :: r => (16%Z, r)
  | _ => (10%Z, [c])
  end = (10%Z, [c]).
Proof.
  destruct c as [b0 b1 b2 b3 b4 b5 b6 b7].
  destruct b0, b1, b2, b3, b4, b5, b6, b7; reflexivity.
Qed.

Lemma radix_of_plain (c1 c2 : ascii) (s : jsstring) :
  c2 <> "x"%char -> c2 <> "X"%char ->
  match c1 :: c2 :: s with
  | "0"%char :: "x"%char :: r => (16%Z, r)
  | "0"%char :: "X"%char :: r => (16%Z, r)
  | _ => (10%Z, c1 :: c2 :: s)
  end = (10%Z, c1 :: c2 :: s).
Proof.
  intros Hx HX. destruct c1 as [b0 b1 b2 b3 b4 b5 b6 b7].
  destruct b0, b1, b2, b3, b4, b5, b6, b7; try reflexivity.
  destruct c2 as [b0 b1 b2 b3 b4 b5 b6 b7].
  destruct b0, b1, b2, b3, b4, b5, b6, b7;
    try reflexivity; exfalso; auto.
Qed.

(** On the decimal text of a natural number, no radix prefix is found. *)
Lemma radix_of_digits (n : Z) :
  (0 <= n)%Z ->
  let s := to_digits (Z.to_nat (Z.log2 n)) n [] in
  match s with
  | "0"%char :: "x"%char :: r => (16%Z, r)
  | "0"%char :: "X"%char :: r => (16%Z, r)
  | _ => (10%Z, s)
  end = (10%Z, s).
Proof.
  intros Hn s. subst s.
  destruct (to_digits_shape (Z.to_nat (Z.log2 n)) n [] Hn)
    as [d [tail [-> [Hd [-> | [d2 [tail2 [-> Hd2]]]]]]]].
  - apply radix_of_single.
  - apply radix_of_plain; apply (digit_char_plain d2 Hd2).
Qed.

Lemma log2_fuel (n : Z) :
  (0 <= n)%Z -> (0 <= n < 2 ^ (Z.of_nat (Z.to_nat (Z.log2 n)) + 1))%Z.
Proof.
  intros Hn. rewrite Z2Nat.id by apply Z.log2_nonneg.
  split; [exact Hn |].
  destruct (Z.eq_dec n 0) as [-> | Hne]; [reflexivity |].
  replace (Z.log2 n + 1)%Z with (Z.succ (Z.log2 n)) by lia.
  apply Z.log2_spec. lia.
Qed.

Lemma parseInt_natural (n : Z) :
  (0 <= n)%Z ->
  parseInt (to_digits (Z.to_nat (Z.log2 n)) n []) = Num n /\
  parseInt ("-"%char :: to_digits (Z.to_nat (Z.log2 n)) n []) = Num (- n).
Proof.
  intros Hn. pose proof (radix_of_digits n Hn) as Hradix. cbv zeta in Hradix.
  pose proof (parse_to_digits (Z.to_nat (Z.log2 n)) n [] (log2_fuel n Hn))
    as Hparse.
  destruct (to_digits_shape (Z.to_nat (Z.log2 n)) n [] Hn)
    as [d [tail [E [Hd _]]]].
  unfold parseInt. rewrite E in *. clear E.
  change (parse_digits 10 [] (Some n)) with (Some n) in Hparse.
  split.
  - each_digit Hd; literal_digits; cbn [trimStart];
      match goal with
      | |- context [is_whitespace ?c] =>
          let b := eval vm_compute in (is_whitespace c) in
          change (is_whitespace c) with b
      end; cbv iota beta; rewrite ?Hradix, Hparse; f_equal; lia.
  - cbn [trimStart]. change (is_whitespace "-") with false. cbv iota beta.
    rewrite Hradix, Hparse. f_equal; lia.
Qed.

Lemma parseInt_toString_int (z : Z) : parseInt (toString_int z) = Num z.
Proof.
  unfold toString_int. destruct (Z.ltb_spec z 0) as [Hneg | Hpos].
  - destruct (parseInt_natural (- z)) as [_ H]; [lia |].
    rewrite H. f_equal. lia.
  - apply parseInt_natural; assumption.
Qed.

Lemma toString_int_truthy (z : Z) : truthy_str (toString_int z) = true.
Proof.
  unfold toString_int. destruct (Z.ltb_spec z 0) as [Hneg | Hpos];
    [reflexivity |].
  destruct (to_digits_shape (Z.to_nat (Z.log2 z)) z [] Hpos)
    as [d [tail [-> _]]].
  reflexivity.
Qed.

End NumberFacts.

(** ** Keys of the table *)

Section KeyFacts.
Import JS Promise Types Sqlite.

Lemma NoDup_map_In_eq {A B : Type} (f : A -> B) (l : list A) (x y : A) :
  NoDup (map f l) -> In x l -> In y l -> f x = f y -> x = y.
Proof.
  induction l as [| a l IH]; simpl; intros Hnd Hx Hy E; [tauto |].
  inversion Hnd as [| ? ? Hnotin Hnd']; subst.
  destruct Hx as [-> | Hx], Hy as [-> | Hy]; auto.
  - exfalso. apply Hnotin. rewrite E. apply in_map; assumption.
  - exfalso. apply Hnotin. rewrite <- E. apply in_map; assumption.
Qed.

Lemma filter_keeps_keys_distinct {K : Type} (key : Employee -> K)
    (keep : Employee -> bool) (rs : list Employee)
    (Hnd : NoDup (map key rs)) :
  NoDup (map key (filter keep rs)).
Proof.
  induction rs as [| r rs IH]; simpl in *; [constructor |].
  apply NoDup_cons_iff in Hnd as [Hfresh Hnd].
  destruct (keep r); simpl; [| exact (IH Hnd)].
  apply NoDup_cons; [| exact (IH Hnd)].
  rewrite in_map_iff. intros [r' [Ekey Hr']].
  apply filter_In in Hr' as [Hr' _].
  apply Hfresh. rewrite <- Ekey. apply in_map. exact Hr'.
Qed.

Lemma NoDup_snoc {A : Type} (l : list A) (x : A) :
  NoDup l -> ~ In x l -> NoDup (l ++ [x]).
Proof.
  intros Hnd Hx. rewrite <- (rev_involutive (l ++ [x])).
  apply NoDup_rev. rewrite rev_app_distr. simpl.
  constructor; [rewrite <- in_rev; assumption | apply NoDup_rev; assumption].
Qed.

Lemma find_id_none (i : Z) (l : list Employee) :
  (forall r, In r l -> id r <> i) -> find (fun r => (id r =? i)%Z) l = None.
Proof.
  intros H. induction l as [| x l IH]; simpl; auto.
  destruct (Z.eqb_spec (id x) i) as [E | _].
  - exfalso. apply (H x); simpl; auto.
  - apply IH. intros r Hr. apply H; simpl; auto.
Qed.

Lemma next_rowid_above_seq (t : table) : (seq t < next_rowid t)%Z.
Proof.
  unfold next_rowid. induction (rows t) as [| x l IH]; simpl; lia.
Qed.

Lemma create_well_keyed (e : CreateEmployeeRequest) (now : timestamp)
    (t : table) :
  Spec.well_keyed t -> Spec.well_keyed (snd (Database.createEmployee e now t)).
Proof.
  intros [Hid [Hem [Hall Hseq]]].
  unfold Database.createEmployee, insert_employee.
  destruct (existsb _ (rows t)) eqn:Hex; [repeat split; assumption |].
  pose proof (next_rowid_above_seq t) as Hnext.
  unfold Spec.well_keyed. cbn [snd rows seq]. rewrite !map_app. cbn [map].
  repeat split.
  - apply NoDup_snoc; [assumption |]. cbn [id].
    intros Hin. apply in_map_iff in Hin as [r [E Hr]].
    apply next_rowid_fresh in Hr. lia.
  - apply NoDup_snoc; [assumption |]. cbn [email].
    intros Hin. apply existsb_email in Hin. congruence.
  - apply Forall_app. split.
    + rewrite Forall_forall in *. intros r Hr. specialize (Hall r Hr).
      apply next_rowid_fresh in Hr. lia.
    + constructor; [cbn [id]; lia | constructor].
  - lia.
Qed.

Lemma update_rows_email (i : Z) (f : Employee -> Employee)
    (l : list Employee) :
  NoDup (map id l) -> NoDup (map email l) ->
  (forall x y, In x l -> In y l -> id x = i -> id y <> i ->
               email y <> email (f x)) ->
  NoDup (map email (map (fun x => if (id x =? i)%Z then f x else x) l)).
Proof.
  intros Hid Hem Hfree.
  assert (Hkeep : forall x y, In x l -> In y l -> id x <> i ->
            email x = email (if (id y =? i)%Z then f y else y) -> x = y).
  { intros x y Hx Hy Hxi E. destruct (Z.eqb_spec (id y) i) as [Hyi | Hyi].
    - exfalso. apply (Hfree y x Hy Hx Hyi Hxi). exact E.
    - apply (NoDup_map_In_eq email l x y Hem Hx Hy E). }
  induction l as [| a l IH]; simpl; [constructor |].
  inversion Hid as [| ? ? Hida Hid']; subst.
  inversion Hem as [| ? ? Hema Hem']; subst.
  constructor.
  - intros Hin. apply in_map_iff in Hin as [y' [E Hy']].
    apply in_map_iff in Hy' as [y [<- Hy]].
    destruct (Z.eqb_spec (id a) i) as [Hai | Hai].
    + destruct (Z.eqb_spec (id y) i) as [Hyi | Hyi].
      * apply Hida. rewrite Hai, <- Hyi. apply in_map; assumption.
      * apply (Hfree a y (or_introl eq_refl) (or_intror Hy) Hai Hyi).
        exact E.
    + assert (a = y).
      { apply (Hkeep a y (or_introl eq_refl) (or_intror Hy) Hai).
        symmetry; exact E. }
      subst y. apply Hida. apply in_map; assumption.
  - apply IH; auto.
    + intros x y Hx Hy. apply Hfree; right; assumption.
    + intros x y Hx Hy. apply Hkeep; right; assumption.
Qed.

Lemma update_well_keyed (i : Z) (u : UpdateEmployeeRequest) (now : timestamp)
    (t : table) :
  Spec.well_keyed t ->
  Spec.well_keyed (snd (Database.updateEmployee i u now t)).
Proof.
  intros Hwk. pose proof Hwk as [Hid [Hem [Hall Hseq]]].
  unfold Database.updateEmployee.
  destruct (length (Database.fields_of u) =? 0)%nat; [exact Hwk |].
  unfold update_employee.
  destruct (find (fun r => (id r =? i)%Z) (rows t)) as [old |] eqn:Hfind;
    [| exact Hwk].
  destruct (existsb is_email (Database.fields_of u) && _) eqn:Hdup;
    [exact Hwk |].
  unfold Spec.well_keyed. cbn [snd rows seq].
  assert (Hids : forall l,
    map id (map (fun x => if (id x =? i)%Z
                          then touch now (fold_left assign (Database.fields_of u) x)
                          else x) l) = map id l).
  { intros l. rewrite map_map. apply map_ext. intros x.
    rewrite updated_fields. destruct (id x =? i)%Z; reflexivity. }
  repeat split.
  - rewrite Hids. assumption.
  - apply update_rows_email; auto.
    intros x y Hx Hy Hxi Hyi E. rewrite updated_fields in E. cbn [email Spec.updated] in E.
    destruct (u_email u) as [e |] eqn:He; cbn [Spec.named] in E.
    + apply andb_false_iff in Hdup as [Hdup | Hdup].
      * destruct u as [[n |] [e' |] [p |] [ph |]]; simpl in *; discriminate.
      * rewrite <- not_true_iff_false in Hdup. apply Hdup.
        apply existsb_exists. exists y. split; [assumption |].
        apply andb_true_iff. split.
        -- apply negb_true_iff, Z.eqb_neq; assumption.
        -- rewrite updated_fields. cbn [email Spec.updated]. rewrite He.
           cbn [Spec.named]. apply str_eqb_eq; assumption.
    + assert (y = x) by (apply (NoDup_map_In_eq email (rows t)); auto).
      subst y. contradiction.
  - rewrite Forall_forall in *. intros r Hr.
    apply in_map_iff in Hr as [x [<- Hx]]. specialize (Hall x Hx).
    destruct (id x =? i)%Z; [rewrite updated_fields |]; exact Hall.
  - assumption.
Qed.

Lemma delete_well_keyed (i : Z) (t : table) :
  Spec.well_keyed t -> Spec.well_keyed (snd (Database.deleteEmployee i t)).
Proof.
  intros [Hid [Hem [Hall Hseq]]].
  unfold Database.deleteEmployee, delete_employee, Spec.well_keyed.
  cbn [snd rows seq]. repeat split.
  - apply filter_keeps_keys_distinct; assumption.
  - apply filter_keeps_keys_distinct; assumption.
  - rewrite Forall_forall in *. intros r Hr. apply filter_In in Hr as [Hr _].
    auto.
  - assumption.
Qed.

Lemma empty_well_keyed : Spec.well_keyed empty_table.
Proof. repeat split; simpl; try constructor; lia. Qed.

Lemma reachable_well_keyed (t : table) :
  Spec.reachable t -> Spec.well_keyed t.
Proof.
  intros H. induction H.
  - apply empty_well_keyed.
  - apply create_well_keyed; assumption.
  - apply update_well_keyed; assumption.
  - apply delete_well_keyed; assumption.
Qed.

Lemma delete_missing (i : Z) (t : table) :
  Database.getEmployeeById i t = Resolve None ->
  Database.deleteEmployee i t = (Resolve false, t).
Proof.
  unfold Database.getEmployeeById, select_by_id,
    Database.deleteEmployee, delete_employee.
  intros H. injection H as H.
  assert (Hno : forall x, In x (rows t) -> (id x =? i)%Z = false).
  { intros x Hx. apply (find_none _ _ H x Hx). }
  assert (Hnone : filter (fun r => (id r =? i)%Z) (rows t) = []).
  { clear H. induction (rows t) as [| x l IH]; simpl; auto.
    rewrite (Hno x) by (simpl; auto). apply IH.
    intros y Hy. apply Hno; simpl; auto. }
  assert (Hall : filter (fun r => negb (id r =? i)%Z) (rows t) = rows t).
  { clear H Hnone. induction (rows t) as [| x l IH]; simpl; auto.
    rewrite (Hno x) by (simpl; auto). simpl. f_equal. apply IH.
    intros y Hy. apply Hno; simpl; auto. }
  rewrite Hnone, Hall. destruct t; reflexivity.
Qed.

Lemma delete_found (i : Z) (t : table) (r : Employee) :
  Database.getEmployeeById i t = Resolve (Some r) ->
  exists t',
    Database.deleteEmployee i t = (Resolve true, t') /\
    Database.getEmployeeById i t' = Resolve None /\
    (forall j, j <> i ->
               Database.getEmployeeById j t' = Database.getEmployeeById j t)
    /\ seq t' = seq t.
Proof.
  unfold Database.getEmployeeById, select_by_id,
    Database.deleteEmployee, delete_employee.
  intros H. injection H as H. eexists. split; [| split; [| split]].
  - apply find_some in H as [Hr Hid].
    assert (Hlen : (0 <? Z.of_nat
                      (length (filter (fun r => (id r =? i)%Z) (rows t))))%Z
                   = true).
    { apply Z.ltb_lt.
      assert (Hin : In r (filter (fun r => (id r =? i)%Z) (rows t)))
        by (apply filter_In; auto).
      destruct (filter (fun r => (id r =? i)%Z) (rows t));
        [destruct Hin | simpl; lia]. }
    rewrite Hlen. reflexivity.
  - cbn [rows]. f_equal. apply find_id_none.
    intros x Hx. apply filter_In in Hx as [_ Hx].
    apply negb_true_iff, Z.eqb_neq in Hx. exact Hx.
  - intros j Hj. cbn [rows]. f_equal. clear H.
    induction (rows t) as [| x l IH]; simpl; auto.
    destruct (Z.eqb_spec (id x) i) as [E | N]; simpl.
    + destruct (Z.eqb_spec (id x) j); [lia | exact IH].
    + destruct (id x =? j)%Z; auto.
  - reflexivity.
Qed.

End KeyFacts.

(** ** The repository, further *)

Section RepositoryMore.
Import JS Promise Types Sqlite.

(** X1: in every table the repository produces from the empty table, by
    any sequence of [createEmployee], [updateEmployee] and [deleteEmployee]
    calls, successful or not, two rows with the same id are the same row,
    two rows with the same email are the same row, and every id is positive
    and at most the AUTOINCREMENT counter. *)
Theorem X1_reachable_tables_have_unique_keys :
  forall t : table,
    Spec.reachable t ->
    (forall r1 r2, In r1 (rows t) -> In r2 (rows t) ->
                   id r1 = id r2 -> r1 = r2) /\
    (forall r1 r2, In r1 (rows t) -> In r2 (rows t) ->
                   email r1 = email r2 -> r1 = r2) /\
    (forall r, In r (rows t) -> (0 < id r <= seq t)%Z).
Proof.
  intros t H. apply reachable_well_keyed in H as [Hid [Hem [Hall _]]].
  repeat split.
  - intros r1 r2. apply NoDup_map_In_eq; assumption.
  - intros r1 r2. apply NoDup_map_In_eq; assumption.
  - rewrite Forall_forall in Hall. apply Hall; assumption.
  - rewrite Forall_forall in Hall. apply Hall; assumption.
Qed.

Lemma X1_reachable_tables_have_unique_keys_witness :
  let t :=
    snd (Database.updateEmployee 2 Sample.jane_update 7%N
           (snd (Database.deleteEmployee 1
                   (snd (Database.createEmployee Sample.jane 6%N
                           (snd (Database.createEmployee Sample.john 5%N
                                   empty_table))))))) in
  (forall r1 r2, In r1 (rows t) -> In r2 (rows t) ->
                 id r1 = id r2 -> r1 = r2) /\
  (forall r1 r2, In r1 (rows t) -> In r2 (rows t) ->
                 email r1 = email r2 -> r1 = r2) /\
  (forall r, In r (rows t) -> (0 < id r <= seq t)%Z).
Proof.
  intros t. apply (X1_reachable_tables_have_unique_keys t).
  repeat constructor.
Defined.

(** X2: when [createEmployee] resolves to an id, no row had that id, it
    is larger than every id in the table and than the AUTOINCREMENT
    counter; [getEmployeeById] on the new table finds under it the four
    fields as given, with both timestamps at the current time, and finds
    under every other id what it found before. *)
Theorem X2_create_then_read_back :
  forall (e : CreateEmployeeRequest) (now : timestamp) (t t' : table) (i : Z),
    Database.createEmployee e now t = (Resolve i, t') ->
    Database.getEmployeeById i t = Resolve None /\
    (seq t < i)%Z /\
    (forall r, In r (rows t) -> (id r < i)%Z) /\
    Database.getEmployeeById i t' =
    Resolve (Some (mkEmployee i (c_name e) (c_email e) (c_position e)
                     (c_phone e) now now)) /\
    (forall j, j <> i ->
               Database.getEmployeeById j t' = Database.getEmployeeById j t).
Proof.
  intros e now t t' i H.
  unfold Database.createEmployee, insert_employee in H.
  destruct (existsb _ (rows t)); [discriminate H |].
  injection H as <- <-.
  assert (Hfresh : forall r, In r (rows t) -> id r <> next_rowid t).
  { intros r Hr E. apply next_rowid_fresh in Hr. lia. }
  unfold Database.getEmployeeById, select_by_id. cbn [rows].
  repeat split.
  - f_equal. apply find_id_none. exact Hfresh.
  - apply next_rowid_above_seq.
  - apply next_rowid_fresh.
  - f_equal. apply find_id_app_new; auto.
  - intros j Hj. f_equal. clear Hfresh.
    induction (rows t) as [| x l IH]; simpl.
    + destruct (Z.eqb_spec (next_rowid t) j); [congruence | reflexivity].
    + destruct (id x =? j)%Z; auto.
Qed.

Lemma X2_create_then_read_back_witness :
  Database.getEmployeeById 3 Sample.two_rows = Resolve None /\
  (seq Sample.two_rows < 3)%Z /\
  (forall r, In r (rows Sample.two_rows) -> (id r < 3)%Z) /\
  Database.getEmployeeById 3
    (snd (Database.createEmployee Sample.bob 9%N Sample.two_rows)) =
  Resolve (Some (mkEmployee 3 (c_name Sample.bob) (c_email Sample.bob)
                   (c_position Sample.bob) (c_phone Sample.bob) 9%N 9%N)) /\
  (forall j, j <> 3%Z ->
     Database.getEmployeeById j
       (snd (Database.createEmployee Sample.bob 9%N Sample.two_rows)) =
     Database.getEmployeeById j Sample.two_rows).
Proof.
  apply (X2_create_then_read_back Sample.bob 9%N Sample.two_rows).
  reflexivity.
Defined.

(** X3: in a table the repository produced, the id of a deleted row is
    not given out again: a create that follows the delete of a row
    resolves to a larger id. *)
Theorem X3_deleted_id_is_not_reused :
  forall (t t' : table) (r : Employee) (e : CreateEmployeeRequest)
         (now : timestamp) (j : Z),
    Spec.reachable t ->
    In r (rows t) ->
    Database.createEmployee e now (snd (Database.deleteEmployee (id r) t)) =
    (Resolve j, t') ->
    (id r < j)%Z /\ Database.getEmployeeById (id r) t' = Resolve None.
Proof.
  intros t t' r e now j Hreach Hr H.
  destruct (reachable_well_keyed t Hreach) as [_ [_ [Hall _]]].
  rewrite Forall_forall in Hall. specialize (Hall r Hr).
  remember (snd (Database.deleteEmployee (id r) t)) as t1 eqn:Et1.
  assert (Hseq1 : seq t1 = seq t) by (subst t1; reflexivity).
  assert (Hrows1 : forall x, In x (rows t1) -> id x <> id r).
  { subst t1. cbn [snd Database.deleteEmployee delete_employee rows].
    intros x Hx. apply filter_In in Hx as [_ Hx].
    apply negb_true_iff, Z.eqb_neq in Hx. exact Hx. }
  clear Et1. unfold Database.createEmployee, insert_employee in H.
  destruct (existsb _ _); [discriminate H |]. injection H as <- <-.
  pose proof (next_rowid_above_seq t1) as Hnext.
  split; [lia |].
  unfold Database.getEmployeeById, select_by_id. f_equal.
  apply find_id_none. intros x Hx. cbn [rows] in Hx.
  apply in_app_iff in Hx as [Hx | [<- | []]].
  - auto.
  - cbn [id]. lia.
Qed.

Lemma X3_deleted_id_is_not_reused_witness :
  (id Sample.john_row < 3)%Z /\
  Database.getEmployeeById (id Sample.john_row)
    (snd (Database.createEmployee Sample.bob 9%N
            (snd (Database.deleteEmployee (id Sample.john_row)
                    Sample.two_rows)))) =
  Resolve None.
Proof.
  assert (Hreach : Spec.reachable Sample.two_rows).
  { change Sample.two_rows with
      (snd (Database.createEmployee
              (mkCreate (js "Jane Smith") (js "jane@example.com")
                 (js "Designer") (js "0987654321")) 101%N
              (snd (Database.createEmployee
                      (mkCreate (js "John Search") (js "john@example.com")
                         (js "Developer") (js "1234567890")) 100%N
                      empty_table)))).
    repeat constructor. }
  apply (X3_deleted_id_is_not_reused Sample.two_rows _ Sample.john_row
           Sample.bob 9%N 3 Hreach).
  - left. reflexivity.
  - reflexivity.
Defined.

(** X4: [deleteEmployee] resolves to true when a row has the id and to
    false when none has; a false delete leaves the rows and the counter
    as they are; after a true delete [getEmployeeById] finds nothing under
    the id, and finds under every other id what it found before. *)
Theorem X4_delete_then_read :
  forall (i : Z) (t : table),
    (Database.getEmployeeById i t = Resolve None ->
     Database.deleteEmployee i t = (Resolve false, t))
    /\
    (forall r, Database.getEmployeeById i t = Resolve (Some r) ->
     exists t',
       Database.deleteEmployee i t = (Resolve true, t') /\
       Database.getEmployeeById i t' = Resolve None /\
       (forall j, j <> i ->
                  Database.getEmployeeById j t' = Database.getEmployeeById j t)
       /\ seq t' = seq t).
Proof.
  intros i t. split.
  - apply delete_missing.
  - intros r. apply delete_found.
Qed.

Lemma X4_delete_then_read_witness :
  Database.deleteEmployee 999 Sample.two_rows = (Resolve false, Sample.two_rows)
  /\
  exists t',
    Database.deleteEmployee 1 Sample.two_rows = (Resolve true, t') /\
    Database.getEmployeeById 1 t' = Resolve None /\
    (forall j, j <> 1%Z ->
       Database.getEmployeeById j t' = Database.getEmployeeById j Sample.two_rows)
    /\ seq t' = seq Sample.two_rows.
Proof.
  split.
  - apply (proj1 (X4_delete_then_read 999 Sample.two_rows)). reflexivity.
  - apply (proj2 (X4_delete_then_read 1 Sample.two_rows) Sample.john_row).
    reflexivity.
Defined.

(** X5: an update that assigns an email stored by a row with another id
    rejects with the UNIQUE constraint error and leaves the table as it
    is, whatever else it assigns; in a table with distinct emails, an
    update of an existing row that assigns the row its own email, or no
    email, resolves to true. *)
Theorem X5_update_email_conflict :
  forall (i : Z) (u : UpdateEmployeeRequest) (now : timestamp) (t : table)
         (old : Employee),
    Database.getEmployeeById i t = Resolve (Some old) ->
    (forall e other,
        u_email u = Some e -> In other (rows t) -> id other <> i ->
        email other = e ->
        Database.updateEmployee i u now t = (Reject SqliteUniqueConstraint, t))
    /\
    (NoDup (map email (rows t)) ->
     Spec.names_a_field u ->
     u_email u = None \/ u_email u = Some (email old) ->
     exists t', Database.updateEmployee i u now t = (Resolve true, t')).
Proof.
  intros i u now t old Hold. split.
  - intros e other He Hother Hid Hemail.
    unfold Database.getEmployeeById, select_by_id in Hold.
    injection Hold as Hold.
    unfold Database.updateEmployee, update_employee. rewrite Hold.
    assert (Hlen : (length (Database.fields_of u) =? 0)%nat = false).
    { destruct u as [[n |] [e' |] [p |] [ph |]]; simpl in *;
        try reflexivity; discriminate. }
    assert (Hset : existsb is_email (Database.fields_of u) = true).
    { destruct u as [[n |] [e' |] [p |] [ph |]]; simpl in *;
        try reflexivity; discriminate. }
    rewrite Hlen, Hset. cbn [andb].
    assert (Hdup : existsb
              (fun o => negb (id o =? i)%Z &&
                        str_eqb (email o)
                          (email (touch now
                                    (fold_left assign (Database.fields_of u) old))))
              (rows t) = true).
    { apply existsb_exists. exists other. split; [assumption |].
      apply andb_true_iff. split.
      - apply negb_true_iff, Z.eqb_neq; assumption.
      - rewrite updated_fields. cbn [email Spec.updated]. rewrite He.
        apply str_eqb_eq; assumption. }
    rewrite Hdup. reflexivity.
  - intros Hnd Hnamed Hemail.
    apply (updateEmployee_succeeds i u now t old Hnamed Hold).
    intros e o He Ho Hid E.
    destruct Hemail as [Hemail | Hemail]; [congruence |].
    rewrite He in Hemail. injection Hemail as ->.
    unfold Database.getEmployeeById, select_by_id in Hold.
    injection Hold as Hold. apply find_some in Hold as [Hin Hold].
    apply Z.eqb_eq in Hold.
    assert (o = old) by (apply (NoDup_map_In_eq email (rows t)); auto).
    subst o. contradiction.
Qed.

Lemma X5_update_email_conflict_witness :
  Database.updateEmployee 1
    (mkUpdate None (Some (js "jane@example.com")) None None) 9%N
    Sample.two_rows = (Reject SqliteUniqueConstraint, Sample.two_rows)
  /\
  exists t',
    Database.updateEmployee 1
      (mkUpdate None (Some (js "john@example.com")) None None) 9%N
      Sample.two_rows = (Resolve true, t').
Proof.
  split.
  - apply (proj1 (X5_update_email_conflict 1
                    (mkUpdate None (Some (js "jane@example.com")) None None)
                    9%N Sample.two_rows Sample.john_row eq_refl)
             (js "jane@example.com")
             (mkEmployee 2 (js "Jane Smith") (js "jane@example.com")
                (js "Designer") (js "0987654321") 101%N 101%N)).
    + reflexivity.
    + right. left. reflexivity.
    + discriminate.
    + reflexivity.
  - apply (proj2 (X5_update_email_conflict 1
                    (mkUpdate None (Some (js "john@example.com")) None None)
                    9%N Sample.two_rows Sample.john_row eq_refl)).
    + repeat constructor; simpl; intuition discriminate.
    + right. left. discriminate.
    + right. reflexivity.
Defined.

(** *** Order and pages *)

Lemma insert_desc_In (r x : Employee) (l : list Employee) :
  In x (insert_desc r l) <-> x = r \/ In x l.
Proof.
  split.
  - intros H. apply (Permutation_in _ (insert_desc_perm r l)) in H.
    destruct H; auto.
  - intros H. apply (Permutation_in _ (Permutation_sym (insert_desc_perm r l))).
    destruct H; [left | right]; auto.
Qed.

Lemma insert_desc_newest_first (r : Employee) (l : list Employee) :
  Spec.newest_first l -> Spec.newest_first (insert_desc r l).
Proof.
  induction l as [| x l IH]; simpl; intros H.
  - split; [intros y [] | exact I].
  - destruct H as [Hx Hl].
    destruct (N.leb_spec (created_at x) (created_at r)) as [Hle | Hgt].
    + simpl. split; [| split; assumption].
      intros y [<- | Hy]; [assumption |].
      specialize (Hx y Hy). lia.
    + simpl. split; [| apply IH; assumption].
      intros y Hy. apply insert_desc_In in Hy as [-> | Hy]; [lia | auto].
Qed.

Lemma order_by_newest_first (l : list Employee) :
  Spec.newest_first (order_by_created_at_desc l).
Proof.
  induction l as [| r l IH]; simpl; [exact I |].
  apply insert_desc_newest_first; assumption.
Qed.

Lemma In_firstn {A : Type} (n : nat) (l : list A) (x : A) :
  In x (firstn n l) -> In x l.
Proof.
  revert l. induction n as [| n IH]; intros [| a l]; simpl; try tauto.
  intros [-> | H]; auto.
Qed.

Lemma In_skipn {A : Type} (n : nat) (l : list A) (x : A) :
  In x (skipn n l) -> In x l.
Proof.
  revert l. induction n as [| n IH]; intros [| a l]; simpl; try tauto.
  intros H; auto.
Qed.

Lemma newest_first_firstn (n : nat) (l : list Employee) :
  Spec.newest_first l -> Spec.newest_first (firstn n l).
Proof.
  revert l. induction n as [| n IH]; intros [| a l]; simpl; try tauto.
  intros [Ha Hl]. split; [| apply IH; assumption].
  intros y Hy. apply Ha. apply (In_firstn n l y Hy).
Qed.

Lemma newest_first_skipn (n : nat) (l : list Employee) :
  Spec.newest_first l -> Spec.newest_first (skipn n l).
Proof.
  revert l. induction n as [| n IH]; intros [| a l]; simpl; try tauto.
  intros [_ Hl]. apply IH; assumption.
Qed.

(** What [getEmployees] resolves to is a part of the ordered matching
    rows, and the scan did not raise. *)
Lemma getEmployees_part (sp : option SearchEmployeeRequest) (t : table)
    (l : list Employee) :
  Database.getEmployees sp t = Resolve l ->
  Spec.scan_refused (Database.opt_field sp sp_query) t = false /\
  exists k n,
    l = Spec.slice k n
          (order_by_created_at_desc
             (filter (where_ (Database.conditions_of sp)) (rows t))) /\
    (forall z, Database.bound (Database.opt_field sp sp_limit) = Some z ->
               (0 < z)%Z -> n = Z.to_nat z).
Proof.
  unfold Database.getEmployees, select_all, Spec.slice, apply_limit,
    apply_offset.
  rewrite scan_conditions_of.
  set (all := order_by_created_at_desc _).
  destruct (Database.bound (Database.opt_field sp sp_limit)) as [n |] eqn:En,
           (Database.bound (Database.opt_field sp sp_offset)) as [k |];
    try (apply bound_nonzero in En; destruct (Z.eqb_spec n 0); [contradiction |]);
    repeat match goal with
      | |- context [int64 ?z] => destruct (int64 z); cbn [negb]
      end;
    destruct (Spec.scan_refused _ t);
    intros H; try discriminate H; injection H as <-; (split; [reflexivity |]).
  - destruct (Z.ltb_spec n 0).
    + exists (Z.to_nat k), (length all). split.
      * rewrite firstn_all2; [reflexivity |].
        rewrite length_skipn. lia.
      * intros z Hz. injection Hz as <-. lia.
    + exists (Z.to_nat k), (Z.to_nat n). split; [reflexivity |].
      intros z Hz. injection Hz as <-. reflexivity.
  - destruct (Z.ltb_spec n 0).
    + exists 0, (length all). split.
      * simpl. rewrite firstn_all. reflexivity.
      * intros z Hz. injection Hz as <-. lia.
    + exists 0, (Z.to_nat n). split; [reflexivity |].
      intros z Hz. injection Hz as <-. reflexivity.
  - exists 0, (length all). split.
    + simpl. rewrite firstn_all. reflexivity.
    + intros z Hz. discriminate Hz.
Qed.

(** X6: whatever the filters and the window, the list [getEmployees]
    resolves to is ordered by [created_at], most recent first. *)
Theorem X6_read_many_is_newest_first :
  forall (sp : option SearchEmployeeRequest) (t : table) (l : list Employee),
    Database.getEmployees sp t = Resolve l -> Spec.newest_first l.
Proof.
  intros sp t l H. apply getEmployees_part in H as [_ [k [n [-> _]]]].
  unfold Spec.slice. apply newest_first_firstn, newest_first_skipn,
    order_by_newest_first.
Qed.

Lemma X6_read_many_is_newest_first_witness :
  exists l,
    Database.getEmployees (Some Sample.second_page) Sample.three_rows
    = Resolve l /\ Spec.newest_first l.
Proof.
  eexists. split; [reflexivity |].
  apply (X6_read_many_is_newest_first (Some Sample.second_page)
           Sample.three_rows).
  reflexivity.
Defined.

(** X7: whatever the window, every row [getEmployees] resolves to is a
    row of the table that passes both filters; the list is no longer than
    the count [getEmployeeCount] resolves to for the same parameters, and
    no longer than a positive limit. *)
Theorem X7_page_within_matches :
  forall (q p : option jsstring) (lim off : option jsnum) (t : table)
         (l : list Employee),
    Database.getEmployees (Some (mkSearch q p lim off)) t = Resolve l ->
    (forall r, In r l -> In r (rows t) /\ Spec.passes q p r) /\
    (exists total,
        Database.getEmployeeCount (Some (mkSearch q p lim off)) t
        = Resolve total /\ (Z.of_nat (length l) <= total)%Z) /\
    (forall n, lim = Some (Num n) -> (0 < n)%Z -> (Z.of_nat (length l) <= n)%Z).
Proof.
  intros q p lim off t l H.
  apply getEmployees_part in H as [Hscan [k [n [-> Hlim]]]].
  cbn [Database.opt_field sp_query] in Hscan.
  rewrite (conditions_of_filters q p lim off). unfold Spec.slice.
  repeat split.
  - apply In_firstn, In_skipn, order_by_In, filter_In in H as [H _]. exact H.
  - apply In_firstn, In_skipn, order_by_In, filter_In in H as [_ H]. exact H.
  - eexists. split.
    + rewrite (getEmployeeCount_filters q p lim off), Hscan. reflexivity.
    + rewrite length_firstn, length_skipn, order_by_length. lia.
  - intros z -> Hz. rewrite (Hlim z).
    + rewrite length_firstn. lia.
    + simpl. destruct (Z.eqb_spec z 0); [lia | reflexivity].
    + exact Hz.
Qed.

Lemma X7_page_within_matches_witness :
  exists l,
    Database.getEmployees (Some Sample.second_page) Sample.three_rows
    = Resolve l /\
    (forall r, In r l ->
       In r (rows Sample.three_rows) /\
       Spec.passes (Some (js "example")) None r) /\
    (exists total,
        Database.getEmployeeCount (Some Sample.second_page) Sample.three_rows
        = Resolve total /\ (Z.of_nat (length l) <= total)%Z) /\
    (forall n, Some (Num 2) = Some (Num n) -> (0 < n)%Z ->
               (Z.of_nat (length l) <= n)%Z).
Proof.
  eexists. split; [reflexivity |].
  apply (X7_page_within_matches (Some (js "example")) None (Some (Num 2))
           (Some (Num 2)) Sample.three_rows).
  reflexivity.
Defined.

Lemma firstn_then_next {A : Type} (n m : nat) (l : list A) :
  firstn n l ++ firstn m (skipn n l) = firstn (n + m) l.
Proof.
  revert l. induction n as [| n IH]; intros l; simpl; [reflexivity |].
  destruct l as [| a l]; simpl.
  - rewrite firstn_nil. reflexivity.
  - rewrite IH. reflexivity.
Qed.

Lemma skipn_add {A : Type} (k n : nat) (l : list A) :
  skipn (k + n) l = skipn n (skipn k l).
Proof.
  revert l. induction k as [| k IH]; intros l; simpl; [reflexivity |].
  destruct l as [| a l]; simpl; [rewrite skipn_nil; reflexivity | apply IH].
Qed.

(** X8: for a positive limit [n] and an offset [k] that is not negative,
    with [2 n] and [k + n] numbers a double holds exactly, and a search
    whose unwindowed result the engine gives, the page at offset [k] and the
    page at offset [k + n] are consecutive parts of that result: together,
    in this order, they are the page of limit [2 n] at offset [k], with no
    row lost or repeated. *)
Theorem X8_consecutive_pages :
  forall (q p : option jsstring) (n k : Z) (t : table) (all : list Employee),
    (0 < n)%Z -> (0 <= k)%Z ->
    Spec.safe_integer (2 * n) -> Spec.safe_integer (k + n) ->
    Database.getEmployees (Some (mkSearch q p None None)) t = Resolve all ->
    Database.getEmployees
      (Some (mkSearch q p (Some (Num n)) (Some (Num k)))) t =
    Resolve (Spec.slice (Z.to_nat k) (Z.to_nat n) all) /\
    Database.getEmployees
      (Some (mkSearch q p (Some (Num n)) (Some (Num (k + n))))) t =
    Resolve (Spec.slice (Z.to_nat k + Z.to_nat n) (Z.to_nat n) all) /\
    Database.getEmployees
      (Some (mkSearch q p (Some (Num (2 * n))) (Some (Num k)))) t =
    Resolve (Spec.slice (Z.to_nat k) (Z.to_nat n) all
             ++ Spec.slice (Z.to_nat k + Z.to_nat n) (Z.to_nat n) all).
Proof.
  intros q p n k t all Hn Hk Hsafe2 Hsafe Hall.
  rewrite getEmployees_unwindowed in Hall.
  assert (Hwin : forall m j, (0 < m)%Z -> (0 <= j)%Z ->
    Spec.safe_integer m -> Spec.safe_integer j ->
    Database.getEmployees (Some (mkSearch q p (Some (Num m)) (Some (Num j)))) t
    = Resolve (Spec.slice (Z.to_nat j) (Z.to_nat m) all)).
  { intros m j Hm Hj Sm Sj.
    rewrite (getEmployees_windowed q p m j t);
      [| lia | apply safe_integer_int64; assumption
       | apply safe_integer_int64; assumption].
    destruct (Spec.scan_refused q t); [discriminate Hall |].
    injection Hall as <-.
    unfold Spec.slice, apply_limit, apply_offset.
    destruct (Z.ltb_spec m 0); [lia | reflexivity]. }
  unfold Spec.safe_integer in *.
  split; [apply Hwin; unfold Spec.safe_integer; lia |]. split.
  - rewrite Hwin by (unfold Spec.safe_integer; lia).
    rewrite Z2Nat.inj_add by lia. reflexivity.
  - rewrite Hwin by (unfold Spec.safe_integer; lia). f_equal. unfold Spec.slice.
    rewrite skipn_add, firstn_then_next. f_equal. lia.
Qed.

Lemma X8_consecutive_pages_witness :
  exists all,
    Database.getEmployees (Some (mkSearch None None None None))
      Sample.three_rows = Resolve all /\
    Database.getEmployees
      (Some (mkSearch None None (Some (Num 1)) (Some (Num 0))))
      Sample.three_rows = Resolve (Spec.slice 0 1 all) /\
    Database.getEmployees
      (Some (mkSearch None None (Some (Num 1)) (Some (Num 1))))
      Sample.three_rows = Resolve (Spec.slice 1 1 all) /\
    Database.getEmployees
      (Some (mkSearch None None (Some (Num 2)) (Some (Num 0))))
      Sample.three_rows = Resolve (Spec.slice 0 1 all ++ Spec.slice 1 1 all).
Proof.
  eexists. split; [reflexivity |].
  apply (X8_consecutive_pages None None 1 0 Sample.three_rows);
    [lia | lia | reflexivity | reflexivity | reflexivity].
Defined.

End RepositoryMore.

(** ** The service, further *)

Section ServiceMore.
Import JS Promise Types Sqlite.

Lemma lower_char_idempotent (c : ascii) :
  lower_char (lower_char c) = lower_char c.
Proof.
  destruct c as [b0 b1 b2 b3 b4 b5 b6 b7].
  destruct b0, b1, b2, b3, b4, b5, b6, b7; reflexivity.
Qed.

Lemma toLowerCase_idempotent (s : jsstring) :
  toLowerCase (toLowerCase s) = toLowerCase s.
Proof.
  unfold toLowerCase. rewrite map_map. apply map_ext, lower_char_idempotent.
Qed.

(** The table a service call leaves is the table its repository call
    leaves. *)
Lemma service_create_table (r : CreateEmployeeRequest) (now : timestamp)
    (t : table) :
  snd (EmployeeService.createEmployee r now t) =
  snd (Database.createEmployee
         (mkCreate (trim (c_name r)) (toLowerCase (trim (c_email r)))
            (trim (c_position r)) (trim (c_phone r))) now t).
Proof.
  unfold EmployeeService.createEmployee.
  destruct (Database.createEmployee _ now t) as [[i | err] t']; [| reflexivity].
  destruct (Database.getEmployeeById i t') as [[x |] | err]; reflexivity.
Qed.

Lemma service_update_table (id : jsnum) (u : UpdateEmployeeRequest)
    (now : timestamp) (t : table) :
  snd (EmployeeService.updateEmployee id u now t) = t \/
  exists i,
    id = Num i /\
    snd (EmployeeService.updateEmployee id u now t) =
    snd (Database.updateEmployee i (EmployeeService.updateData_of u) now t).
Proof.
  unfold EmployeeService.updateEmployee.
  destruct id as [| i];
    cbn [EmployeeService.database_getEmployeeById
         EmployeeService.database_updateEmployee]; auto.
  destruct (Database.getEmployeeById i t) as [[old |] | err]; auto.
  destruct (length _ =? 0)%nat; auto.
  right. exists i. split; [reflexivity |].
  destruct (Database.updateEmployee i _ now t) as [[[|] | err] t'];
    try reflexivity.
  destruct (Database.getEmployeeById i t') as [[x |] | err]; reflexivity.
Qed.

Lemma service_delete_table (id : jsnum) (t : table) :
  snd (EmployeeService.deleteEmployee id t) = t \/
  exists i,
    id = Num i /\
    snd (EmployeeService.deleteEmployee id t) =
    snd (Database.deleteEmployee i t).
Proof.
  unfold EmployeeService.deleteEmployee.
  destruct id as [| i];
    cbn [EmployeeService.database_getEmployeeById
         EmployeeService.database_deleteEmployee]; auto.
  destruct (Database.getEmployeeById i t) as [[old |] | err]; auto.
  right. exists i. split; [reflexivity |].
  destruct (Database.deleteEmployee i t) as [[[|] | err] t']; reflexivity.
Qed.

Lemma create_lowercase (e : CreateEmployeeRequest) (now : timestamp)
    (t : table) :
  toLowerCase (c_email e) = c_email e ->
  Spec.lowercase_emails t ->
  Spec.lowercase_emails (snd (Database.createEmployee e now t)).
Proof.
  intros He H. unfold Database.createEmployee, insert_employee.
  destruct (existsb _ (rows t)); [exact H |].
  unfold Spec.lowercase_emails. cbn [snd rows].
  apply Forall_app. split; [exact H |]. constructor; [exact He | constructor].
Qed.

Lemma update_lowercase (i : Z) (u : UpdateEmployeeRequest) (now : timestamp)
    (t : table) :
  (forall e, u_email u = Some e -> toLowerCase e = e) ->
  Spec.lowercase_emails t ->
  Spec.lowercase_emails (snd (Database.updateEmployee i u now t)).
Proof.
  intros He H. unfold Database.updateEmployee.
  destruct (length (Database.fields_of u) =? 0)%nat; [exact H |].
  unfold update_employee.
  destruct (find _ (rows t)) as [old |]; [| exact H].
  destruct (existsb is_email _ && _); [exact H |].
  unfold Spec.lowercase_emails in *. cbn [snd rows].
  rewrite Forall_forall in *. intros r Hr.
  apply in_map_iff in Hr as [x [<- Hx]].
  destruct (id x =? i)%Z; [| auto].
  rewrite updated_fields. cbn [email Spec.updated].
  destruct (u_email u) as [e |]; cbn [Spec.named]; auto.
Qed.

Lemma delete_lowercase (i : Z) (t : table) :
  Spec.lowercase_emails t ->
  Spec.lowercase_emails (snd (Database.deleteEmployee i t)).
Proof.
  unfold Spec.lowercase_emails, Database.deleteEmployee, delete_employee.
  cbn [snd rows]. rewrite !Forall_forall. intros H r Hr.
  apply filter_In in Hr as [Hr _]. auto.
Qed.

Lemma service_reachable_keys (t : table) :
  Spec.service_reachable t -> Spec.well_keyed t /\ Spec.lowercase_emails t.
Proof.
  intros H. induction H as [| r now t H [IHk IHl] | id u now t H [IHk IHl]
                            | id t H [IHk IHl]].
  - split; [apply empty_well_keyed | constructor].
  - rewrite service_create_table. split.
    + apply create_well_keyed; assumption.
    + apply create_lowercase; [apply toLowerCase_idempotent | assumption].
  - destruct (service_update_table id u now t) as [-> | [i [_ ->]]];
      [split; assumption |].
    split.
    + apply update_well_keyed; assumption.
    + apply update_lowercase; [| assumption].
      intros e He. unfold EmployeeService.updateData_of in He. cbn [u_email] in He.
      destruct (u_email u); [| discriminate].
      injection He as <-. apply toLowerCase_idempotent.
  - destruct (service_delete_table id t) as [-> | [i [_ ->]]];
      [split; assumption |].
    split; [apply delete_well_keyed | apply delete_lowercase]; assumption.
Qed.

(** X9: in every table the service produces from the empty table, by any
    sequence of its [createEmployee], [updateEmployee] and [deleteEmployee]
    calls, every stored email is in lower case, and two rows whose emails
    are equal up to letter case are the same row. *)
Theorem X9_service_emails_unique_up_to_case :
  forall t : table,
    Spec.service_reachable t ->
    (forall r, In r (rows t) -> toLowerCase (email r) = email r) /\
    (forall r1 r2, In r1 (rows t) -> In r2 (rows t) ->
                   Spec.same_email (email r1) (email r2) -> r1 = r2).
Proof.
  intros t H. apply service_reachable_keys in H as [[_ [Hem _]] Hlow].
  unfold Spec.lowercase_emails in Hlow. rewrite Forall_forall in Hlow.
  split; [exact Hlow |].
  intros r1 r2 H1 H2 Hsame. unfold Spec.same_email in Hsame.
  rewrite (Hlow r1 H1), (Hlow r2 H2) in Hsame.
  apply (NoDup_map_In_eq email (rows t)); assumption.
Qed.

Lemma X9_service_emails_unique_up_to_case_witness :
  let t :=
    snd (EmployeeService.updateEmployee (Num 2) Sample.jane_update 7%N
           (snd (EmployeeService.createEmployee Sample.jane 6%N
                   (snd (EmployeeService.createEmployee Sample.john 5%N
                           empty_table))))) in
  (forall r, In r (rows t) -> toLowerCase (email r) = email r) /\
  (forall r1 r2, In r1 (rows t) -> In r2 (rows t) ->
                 Spec.same_email (email r1) (email r2) -> r1 = r2).
Proof.
  intros t. apply (X9_service_emails_unique_up_to_case t).
  repeat constructor.
Defined.

Lemma names_a_field_updateData (u : UpdateEmployeeRequest) :
  Spec.names_a_field (EmployeeService.updateData_of u) <->
  Spec.names_a_field u.
Proof.
  unfold Spec.names_a_field, EmployeeService.updateData_of.
  destruct u as [[n |] [e |] [p |] [ph |]]; simpl;
    intuition (try discriminate; try congruence).
Qed.

Lemma fields_of_none (u : UpdateEmployeeRequest) :
  ~ Spec.names_a_field u -> (length (Database.fields_of u) =? 0)%nat = true.
Proof.
  unfold Spec.names_a_field.
  destruct u as [[n |] [e |] [p |] [ph |]]; simpl; intros H;
    try reflexivity; exfalso; apply H;
    try (left; discriminate);
    try (right; left; discriminate);
    try (right; right; left; discriminate);
    try (right; right; right; discriminate).
Qed.

Lemma fields_of_some (u : UpdateEmployeeRequest) :
  Spec.names_a_field u -> (length (Database.fields_of u) =? 0)%nat = false.
Proof.
  unfold Spec.names_a_field.
  destruct u as [[n |] [e |] [p |] [ph |]]; simpl; intros H;
    try reflexivity; intuition congruence.
Qed.

(** An update of an existing row that names a field either fails on the
    UNIQUE index or rewrites the rows with the id. *)
Lemma update_existing (i : Z) (u : UpdateEmployeeRequest) (now : timestamp)
    (t : table) (old : Employee) :
  Database.getEmployeeById i t = Resolve (Some old) ->
  Spec.names_a_field u ->
  Database.updateEmployee i u now t = (Reject SqliteUniqueConstraint, t) \/
  (Database.updateEmployee i u now t =
   (Resolve true,
    mkTable (map (fun r => if (id r =? i)%Z then Spec.updated u now r else r)
               (rows t)) (seq t)) /\
   Database.getEmployeeById i
     (mkTable (map (fun r => if (id r =? i)%Z then Spec.updated u now r else r)
                 (rows t)) (seq t)) =
   Resolve (Some (Spec.updated u now old))).
Proof.
  intros Hold Hnamed.
  unfold Database.getEmployeeById, select_by_id in *. injection Hold as Hold.
  unfold Database.updateEmployee, update_employee.
  rewrite (fields_of_some u Hnamed), Hold.
  destruct (existsb is_email (Database.fields_of u) && _); [left; reflexivity |].
  right. cbn [rows]. split.
  - f_equal. f_equal. apply map_ext. intros x. rewrite updated_fields.
    reflexivity.
  - rewrite find_map_same_id, Hold
      by (intros r; destruct (id r =? i)%Z; reflexivity).
    apply find_some in Hold as [_ Hid]. simpl. rewrite Hid. reflexivity.
Qed.

(** The service's update of an existing row that names a field. *)
Lemma service_update_existing (i : Z) (u : UpdateEmployeeRequest)
    (now : timestamp) (t : table) (old : Employee) :
  Database.getEmployeeById i t = Resolve (Some old) ->
  Spec.names_a_field u ->
  EmployeeService.updateEmployee (Num i) u now t =
  (Reject SqliteUniqueConstraint, t)
  \/
  exists t',
    EmployeeService.updateEmployee (Num i) u now t =
    (Resolve (Spec.updated (EmployeeService.updateData_of u) now old), t') /\
    Database.getEmployeeById i t' =
    Resolve (Some (Spec.updated (EmployeeService.updateData_of u) now old)).
Proof.
  intros H Hnamed. unfold EmployeeService.updateEmployee.
  cbn [EmployeeService.database_getEmployeeById
       EmployeeService.database_updateEmployee].
  rewrite H. rewrite <- names_a_field_updateData in Hnamed.
  rewrite (fields_of_some _ Hnamed).
  destruct (update_existing i _ now t old H Hnamed) as [-> | [-> Hread]].
  - left. reflexivity.
  - right. eexists. rewrite Hread. split; [reflexivity | exact Hread].
Qed.

(** The service's delete of an existing row. *)
Lemma service_delete_existing (i : Z) (t : table) (old : Employee) :
  Database.getEmployeeById i t = Resolve (Some old) ->
  exists t',
    EmployeeService.deleteEmployee (Num i) t = (Resolve (Num i), t') /\
    Database.getEmployeeById i t' = Resolve None /\
    (forall j, j <> i ->
       Database.getEmployeeById j t' = Database.getEmployeeById j t).
Proof.
  intros H. unfold EmployeeService.deleteEmployee.
  cbn [EmployeeService.database_getEmployeeById
       EmployeeService.database_deleteEmployee].
  rewrite H. destruct (delete_found i t old H) as [t' [-> [Hgone [Hkeep _]]]].
  exists t'. auto.
Qed.

(** X10: the service's [updateEmployee] rejects with "Employee with ID
    <id> does not exist" when no row has the id, and with "No data to
    update" when the row exists and no field is defined, in both cases
    without a write; for an existing row and a defined field it either
    rejects with the UNIQUE constraint error, the table unchanged, or
    resolves to the row as it is stored afterwards: the defined fields
    trimmed, the email in lower case too, [updated_at] at the current
    time. *)
Theorem X10_service_update_outcomes :
  forall (n : jsnum) (u : UpdateEmployeeRequest) (now : timestamp)
         (t : table),
    (EmployeeService.getEmployeeById n t = Resolve None ->
     EmployeeService.updateEmployee n u now t =
     (Reject (EmployeeService.does_not_exist n), t))
    /\
    (forall old,
        EmployeeService.getEmployeeById n t = Resolve (Some old) ->
        (~ Spec.names_a_field u ->
         EmployeeService.updateEmployee n u now t =
         (Reject (Error (js "No data to update")), t))
        /\
        (Spec.names_a_field u ->
         EmployeeService.updateEmployee n u now t =
         (Reject SqliteUniqueConstraint, t)
         \/
         exists t',
           EmployeeService.updateEmployee n u now t =
           (Resolve (Spec.updated (EmployeeService.updateData_of u) now old),
            t') /\
           EmployeeService.getEmployeeById n t' =
           Resolve (Some (Spec.updated (EmployeeService.updateData_of u)
                            now old)))).
Proof.
  intros n u now t. unfold EmployeeService.getEmployeeById. split.
  - intros H. unfold EmployeeService.updateEmployee. rewrite H. reflexivity.
  - intros old H. split.
    + intros Hno. unfold EmployeeService.updateEmployee. rewrite H.
      rewrite <- names_a_field_updateData in Hno.
      rewrite (fields_of_none _ Hno). reflexivity.
    + intros Hnamed. destruct n as [| i]; [discriminate H |].
      cbn [EmployeeService.database_getEmployeeById] in *.
      apply service_update_existing; assumption.
Qed.

Lemma X10_service_update_outcomes_witness :
  EmployeeService.updateEmployee (Num 9) Sample.jane_update 7%N Sample.two_rows
  = (Reject (EmployeeService.does_not_exist (Num 9)), Sample.two_rows)
  /\
  (EmployeeService.updateEmployee (Num 1) Sample.no_field 7%N Sample.two_rows
   = (Reject (Error (js "No data to update")), Sample.two_rows))
  /\
  (EmployeeService.updateEmployee (Num 1) Sample.jane_update 7%N
     Sample.two_rows = (Reject SqliteUniqueConstraint, Sample.two_rows)
   \/
   exists t',
     EmployeeService.updateEmployee (Num 1) Sample.jane_update 7%N
       Sample.two_rows =
     (Resolve (Spec.updated (EmployeeService.updateData_of Sample.jane_update)
                 7%N Sample.john_row), t') /\
     EmployeeService.getEmployeeById (Num 1) t' =
     Resolve (Some (Spec.updated
                      (EmployeeService.updateData_of Sample.jane_update)
                      7%N Sample.john_row))).
Proof.
  split; [| split].
  - apply (proj1 (X10_service_update_outcomes (Num 9) Sample.jane_update 7%N
                    Sample.two_rows)).
    reflexivity.
  - apply (proj1 (proj2 (X10_service_update_outcomes (Num 1) Sample.no_field
                           7%N Sample.two_rows) Sample.john_row eq_refl)).
    unfold Spec.names_a_field. simpl. intuition congruence.
  - apply (proj2 (proj2 (X10_service_update_outcomes (Num 1)
                           Sample.jane_update 7%N Sample.two_rows)
                    Sample.john_row eq_refl)).
    right. left. discriminate.
Defined.

(** X11: the service's [deleteEmployee] rejects with "Employee with ID
    <id> does not exist" when no row has the id, without a write; when a
    row has it, it resolves to the id, and afterwards no row has the id
    while every other id is found as before. *)
Theorem X11_service_delete_outcomes :
  forall (n : jsnum) (t : table),
    (EmployeeService.getEmployeeById n t = Resolve None ->
     EmployeeService.deleteEmployee n t =
     (Reject (EmployeeService.does_not_exist n), t))
    /\
    (forall old,
        EmployeeService.getEmployeeById n t = Resolve (Some old) ->
        exists t',
          EmployeeService.deleteEmployee n t = (Resolve n, t') /\
          EmployeeService.getEmployeeById n t' = Resolve None /\
          (forall j, Num j <> n ->
             Database.getEmployeeById j t' = Database.getEmployeeById j t)).
Proof.
  intros n t. unfold EmployeeService.getEmployeeById. split.
  - intros H. unfold EmployeeService.deleteEmployee. rewrite H. reflexivity.
  - intros old H. destruct n as [| i]; [discriminate H |].
    cbn [EmployeeService.database_getEmployeeById] in *.
    destruct (service_delete_existing i t old H) as [t' [Hdel [Hgone Hkeep]]].
    exists t'. split; [exact Hdel |]. split; [exact Hgone |].
    intros j Hj. apply Hkeep. congruence.
Qed.

Lemma X11_service_delete_outcomes_witness :
  EmployeeService.deleteEmployee (Num 9) Sample.two_rows =
  (Reject (EmployeeService.does_not_exist (Num 9)), Sample.two_rows)
  /\
  exists t',
    EmployeeService.deleteEmployee (Num 1) Sample.two_rows = (Resolve (Num 1), t')
    /\ EmployeeService.getEmployeeById (Num 1) t' = Resolve None
    /\ (forall j, Num j <> Num 1 ->
          Database.getEmployeeById j t' =
          Database.getEmployeeById j Sample.two_rows).
Proof.
  split.
  - apply (proj1 (X11_service_delete_outcomes (Num 9) Sample.two_rows)).
    reflexivity.
  - apply (proj2 (X11_service_delete_outcomes (Num 1) Sample.two_rows)
             Sample.john_row).
    reflexivity.
Defined.

(** *** emailExists *)

Lemma ascii_lower_is_fold (c : ascii) :
  (code c < 128)%N -> lower_char c = fold_ascii c.
Proof.
  destruct c as [b0 b1 b2 b3 b4 b5 b6 b7].
  destruct b0, b1, b2, b3, b4, b5, b6, b7; intros H;
    try reflexivity; vm_compute in H; discriminate H.
Qed.

Lemma ascii_same_email_fold (a b : jsstring) :
  Spec.ascii_only a -> Spec.ascii_only b -> Spec.same_email a b ->
  map fold_ascii a = map fold_ascii b.
Proof.
  unfold Spec.ascii_only, Spec.same_email, toLowerCase. intros Ha Hb E.
  rewrite <- (map_ext_Forall _ _ (Forall_impl _ ascii_lower_is_fold Ha)).
  rewrite <- (map_ext_Forall _ _ (Forall_impl _ ascii_lower_is_fold Hb)).
  exact E.
Qed.

(** A pattern matches every string equal to it up to ASCII case, whatever
    wildcards it holds. *)
Lemma patternCompare_fold_equal (pat rest_pat m s' : jsstring) :
  map fold_ascii pat = map fold_ascii m ->
  patternCompare rest_pat s' = true ->
  patternCompare (pat ++ rest_pat) (m ++ s') = true.
Proof.
  revert m. induction pat as [| a pat IH]; intros m E Hrest.
  - destruct m; [exact Hrest | discriminate E].
  - destruct m as [| c m]; [discriminate E |].
    simpl in E. injection E as Ec E. specialize (IH m E Hrest).
    change ((a :: pat) ++ rest_pat) with (a :: pat ++ rest_pat).
    change ((c :: m) ++ s') with (c :: m ++ s').
    destruct (Ascii.eqb_spec a "%") as [-> | Hp].
    + rewrite patternCompare_percent_cons. apply orb_true_iff. right.
      apply patternCompare_percent. exists [], (m ++ s'). auto.
    + cbn [patternCompare]. destruct (Ascii.eqb_spec a "%"); [contradiction |].
      rewrite IH, andb_true_r. apply orb_true_iff. right.
      apply fold_ascii_eqb. symmetry; exact Ec.
Qed.

(** Folding the case neither makes nor removes a U+0000. *)
Lemma fold_ascii_nul (c : ascii) :
  (code (fold_ascii c) =? 0)%N = (code c =? 0)%N.
Proof.
  destruct c as [b0 b1 b2 b3 b4 b5 b6 b7].
  destruct b0, b1, b2, b3, b4, b5, b6, b7; reflexivity.
Qed.

Lemma c_string_fold_equal (a b : jsstring) :
  map fold_ascii a = map fold_ascii b ->
  map fold_ascii (c_string a) = map fold_ascii (c_string b).
Proof.
  revert b. induction a as [| x a IH]; intros [| y b] E; try discriminate E.
  - reflexivity.
  - simpl in E. injection E as Exy E. cbn [c_string].
    rewrite <- (fold_ascii_nul x), <- (fold_ascii_nul y), Exy.
    destruct (code (fold_ascii y) =? 0)%N; [reflexivity |].
    simpl. rewrite Exy, (IH b E). reflexivity.
Qed.

(** A [%] after the query survives in the pattern unless the query holds a
    U+0000. *)
Lemma c_string_then_percent (q : jsstring) :
  c_string (q ++ ["%"%char]) = c_string q ++ ["%"%char]
  \/ c_string (q ++ ["%"%char]) = c_string q ++ [].
Proof.
  induction q as [| c q IH]; [left; reflexivity |].
  cbn [app c_string]. destruct (code c =? 0)%N; [right; reflexivity |].
  destruct IH as [-> | ->]; [left | right]; reflexivity.
Qed.

(** The search term of an address matches every text equal to the address
    up to ASCII case. *)
Lemma like_searchTerm_fold_equal (e s : jsstring) :
  map fold_ascii e = map fold_ascii s ->
  like (js "%" ++ e ++ js "%") s = true.
Proof.
  intros E. unfold like.
  change (c_string (js "%" ++ e ++ js "%"))
    with ("%"%char :: c_string (e ++ ["%"%char])).
  apply patternCompare_percent. exists [], (c_string s).
  split; [reflexivity |].
  rewrite <- (app_nil_r (c_string s)).
  apply c_string_fold_equal in E.
  destruct (c_string_then_percent e) as [-> | ->];
    apply patternCompare_fold_equal; auto.
Qed.

(** X12: on a table whose emails are ASCII, what [emailExists] of an
    ASCII address resolves to is true exactly when some row stores an email
    equal to the address up to letter case, whatever wildcard characters and
    U+0000 the address holds: the search of the address never drops such a
    row. *)
Theorem X12_emailExists_on_ascii :
  forall (e : jsstring) (t : table) (b : bool),
    Spec.ascii_only e ->
    (forall r, In r (rows t) -> Spec.ascii_only (email r)) ->
    EmployeeService.emailExists e t = Resolve b ->
    (b = true <->
     exists r, In r (rows t) /\ Spec.same_email (email r) e).
Proof.
  intros e t b He Ht. unfold EmployeeService.emailExists.
  rewrite getEmployees_unwindowed.
  destruct (Spec.scan_refused (Some e) t); intros H; [discriminate H |].
  injection H as <-.
  rewrite existsb_exists. split.
  - intros [r [Hr E]]. apply order_by_In, filter_In in Hr as [Hr _].
    apply str_eqb_eq in E. exists r. split; assumption.
  - intros [r [Hr E]]. exists r. split; [| apply str_eqb_eq; exact E].
    apply order_by_In, filter_In. split; [exact Hr |].
    unfold where_, Database.conditions_of, Database.opt_field.
    cbn [sp_query sp_position].
    destruct e as [| c e']; [reflexivity |].
    cbn [truthy_str app forallb eval_cond]. rewrite andb_true_r.
    apply orb_true_iff. left. apply orb_true_iff. right.
    apply (like_searchTerm_fold_equal (c :: e') (email r)).
    symmetry. apply ascii_same_email_fold; auto.
Qed.

Lemma X12_emailExists_on_ascii_witness :
  EmployeeService.emailExists (js "JANE@example.com") Sample.two_rows
  = Resolve true /\
  (true = true <->
   exists r, In r (rows Sample.two_rows)
             /\ Spec.same_email (email r) (js "JANE@example.com")).
Proof.
  split; [reflexivity |].
  apply (X12_emailExists_on_ascii (js "JANE@example.com") Sample.two_rows).
  - repeat constructor.
  - intros r [<- | [<- | []]]; repeat constructor.
  - reflexivity.
Defined.

End ServiceMore.

(** ** Validation, further *)

Ltac pass_check H :=
  match type of H with
  | (if negb ?c then _ else _) = _ =>
      destruct c eqn:?; cbn [negb] in H; [| discriminate H]
  | (if negb ?c && negb ?d then _ else _) = _ =>
      destruct c eqn:?; cbn [negb andb] in H;
      [| destruct d eqn:?; cbn [negb] in H; [| discriminate H]]
  | (if ?c then _ else _) = _ =>
      destruct c eqn:?; [discriminate H |]
  end.

Section ValidationMore.
Import JS Regex Validation Types.

Lemma lang_star_class (p : ascii -> bool) (s : list ascii) :
  lang (Star (Class p)) s <-> Forall (fun c => p c = true) s.
Proof.
  split.
  - intros H. remember (Star (Class p)) as r eqn:Er.
    induction H as [| | | | | r1 | r1 s1 s2 H1 _ H2 IH2]; try discriminate Er.
    + constructor.
    + injection Er as ->. inversion H1; subst. constructor; auto.
  - induction s as [| c s IH]; intros H.
    + constructor.
    + inversion H; subst. change (c :: s) with ([c] ++ s).
      constructor; [constructor; assumption | auto].
Qed.

Lemma lang_plus_class (p : ascii -> bool) (s : list ascii) :
  lang (Plus (Class p)) s <-> s <> [] /\ Forall (fun c => p c = true) s.
Proof.
  unfold Plus. split.
  - intros H. inversion H as [| | ? ? s1 s2 H1 H2 | | | |]; subst.
    inversion H1; subst. apply lang_star_class in H2.
    split; [discriminate | constructor; assumption].
  - intros [Hne H]. destruct s as [| c s]; [contradiction |].
    inversion H; subst. change (c :: s) with ([c] ++ s).
    constructor; [constructor; assumption | apply lang_star_class; assumption].
Qed.

Lemma lang_chr (a : ascii) (s : list ascii) : lang (Chr a) s <-> s = [a].
Proof.
  unfold Chr. split.
  - intros H. inversion H as [| p c E | | | | |]; subst.
    apply Ascii.eqb_eq in E. subst. reflexivity.
  - intros ->. constructor. apply Ascii.eqb_refl.
Qed.

Lemma lang_cat (r1 r2 : regex) (s : list ascii) :
  lang (Cat r1 r2) s <-> exists s1 s2, s = s1 ++ s2 /\ lang r1 s1 /\ lang r2 s2.
Proof.
  split.
  - intros H. inversion H; subst. eauto.
  - intros [s1 [s2 [-> [H1 H2]]]]. constructor; assumption.
Qed.

Lemma isValidEmail_shape (email : jsstring) :
  Validation.isValidEmail email = true <-> Spec.email_shape email.
Proof.
  unfold Validation.isValidEmail, emailRegex, Spec.email_shape.
  rewrite test_lang, lang_cat. split.
  - intros [l [rest [-> [Hl H]]]].
    apply lang_cat in H as [at_ [rest' [-> [Hat H]]]].
    apply lang_cat in H as [d [rest'' [-> [Hd H]]]].
    apply lang_cat in H as [dot [tl [-> [Hdot Htl]]]].
    apply lang_chr in Hat, Hdot. subst.
    apply lang_plus_class in Hl as [Hl1 Hl2], Hd as [Hd1 Hd2],
      Htl as [Ht1 Ht2].
    exists l, d, tl. split; [reflexivity |].
    repeat (split; [assumption |]). rewrite !Forall_app. auto.
  - intros [l [d [tl [-> [Hl [Hd [Htl Hall]]]]]]].
    rewrite !Forall_app in Hall. destruct Hall as [Hal [Had Hat]].
    exists l, ("@"%char :: d ++ "."%char :: tl). split; [reflexivity |].
    split; [apply lang_plus_class; auto |].
    apply lang_cat. exists ["@"%char], (d ++ "."%char :: tl).
    split; [reflexivity |]. split; [apply lang_chr; reflexivity |].
    apply lang_cat. exists d, ("."%char :: tl). split; [reflexivity |].
    split; [apply lang_plus_class; auto |].
    apply lang_cat. exists ["."%char], tl. split; [reflexivity |].
    split; [apply lang_chr; reflexivity | apply lang_plus_class; auto].
Qed.

(** *** Blank strings *)

Lemma In_trimStart (c : ascii) (s : jsstring) :
  In c s -> is_whitespace c = false -> In c (trimStart s).
Proof.
  intros Hin Hc. induction s as [| a s IH]; simpl in *; [tauto |].
  destruct (is_whitespace a) eqn:Ha.
  - destruct Hin as [-> | Hin]; [congruence | auto].
  - exact Hin.
Qed.

Lemma In_trim (c : ascii) (s : jsstring) :
  In c s -> is_whitespace c = false -> In c (trim s).
Proof.
  intros Hin Hc. unfold trim, trimEnd. rewrite <- in_rev.
  apply In_trimStart; [| exact Hc]. rewrite <- in_rev.
  apply In_trimStart; assumption.
Qed.

Lemma isValidString_not_blank (v : jsval) :
  Validation.isValidString v = true <->
  exists s, v = JString s /\ Spec.not_blank s.
Proof.
  unfold Validation.isValidString, Spec.not_blank. split.
  - destruct v; try discriminate. intros H. exists s. split; [reflexivity |].
    apply Nat.ltb_lt in H. destruct (trim s); [simpl in H; lia | discriminate].
  - intros [s [-> H]]. apply Nat.ltb_lt.
    destruct (trim s); [contradiction | simpl; lia].
Qed.

Lemma not_blank_truthy (s : jsstring) : Spec.not_blank s -> truthy_str s = true.
Proof. unfold Spec.not_blank. destruct s; [intros H; exfalso; auto | reflexivity]. Qed.

Lemma email_shape_not_blank (s : jsstring) :
  Spec.email_shape s -> Spec.not_blank s.
Proof.
  intros H. apply isValidEmail_shape in H. unfold Spec.not_blank.
  rewrite (valid_email_trim s H). apply isValidEmail_shape in H.
  destruct H as [l [d [tl [-> [Hl _]]]]]. destruct l; [contradiction | discriminate].
Qed.

Lemma phone_shape_not_blank (s : jsstring) :
  Spec.phone_shape (Spec.stripped s) -> Spec.not_blank s.
Proof.
  intros [sg [d [ds [E _]]]]. unfold Spec.not_blank.
  assert (Hin : In d (Spec.stripped s)) by (rewrite E; apply in_elt).
  unfold Spec.stripped, remove_class in Hin. apply filter_In in Hin as [Hin Hd].
  unfold phone_noise in Hd. rewrite !negb_orb in Hd.
  apply andb_true_iff in Hd as [Hd _]. apply andb_true_iff in Hd as [Hd _].
  apply andb_true_iff in Hd as [Hd _]. apply negb_true_iff in Hd.
  intros Hnil. pose proof (In_trim d s Hin Hd) as H. rewrite Hnil in H.
  destruct H.
Qed.

(** X13: the server-side [isValidEmail] accepts exactly the strings
    [local@domain.tld] whose three parts are non-empty and hold neither
    whitespace nor [@]; the client-side [isValidEmail] accepts exactly the
    strings that have this shape once trimmed, so it accepts every address
    the server accepts. *)
Theorem X13_email_rule_of_both_validators :
  forall email : jsstring,
    (Validation.isValidEmail email = true <-> Spec.email_shape email) /\
    (EmployeeValidator.isValidEmail email = true <->
     Spec.email_shape (trim email)) /\
    (Validation.isValidEmail email = true ->
     EmployeeValidator.isValidEmail email = true).
Proof.
  intros email. split; [apply isValidEmail_shape |]. split.
  - unfold EmployeeValidator.isValidEmail.
    apply (isValidEmail_shape (trim email)).
  - intros H. unfold EmployeeValidator.isValidEmail.
    rewrite (valid_email_trim email H). exact H.
Qed.

(** A body of four strings that satisfy the rules passes both
    middlewares. *)
Lemma string_body_accepted (n e p ph : jsstring) :
  Spec.not_blank n -> Spec.email_shape e -> Spec.not_blank p ->
  Spec.phone_shape (Spec.stripped ph) ->
  Validation.validateCreateEmployee
    (Validation.mkBody (JString n) (JString e) (JString p) (JString ph))
  = Validation.Next /\
  Validation.validateUpdateEmployee
    (Validation.mkBody (JString n) (JString e) (JString p) (JString ph))
  = Validation.Next.
Proof.
  intros Hn He Hp Hph.
  pose proof (email_shape_not_blank e He) as Hbe.
  pose proof (phone_shape_not_blank ph Hph) as Hbph.
  unfold Validation.validateCreateEmployee, Validation.validateUpdateEmployee.
  cbn [b_name b_email b_position b_phone truthy string_of is_undefined].
  rewrite !not_blank_truthy by assumption. cbn [negb orb andb].
  rewrite (proj2 (isValidString_not_blank (JString n)))
    by (exists n; auto).
  rewrite (proj2 (isValidString_not_blank (JString e)))
    by (exists e; auto).
  rewrite (proj2 (isValidString_not_blank (JString p)))
    by (exists p; auto).
  rewrite (proj2 (isValidString_not_blank (JString ph)))
    by (exists ph; auto).
  rewrite (proj2 (isValidEmail_shape e) He).
  rewrite (proj2 (Validation_isValidPhone_shape ph) Hph).
  split; reflexivity.
Qed.

(** X14: [validateCreateEmployee] calls [next()] exactly for the bodies
    whose four properties are strings, the name and the position not blank,
    the email of the shape [local@domain.tld], and the phone, once spaces,
    dashes and parentheses are stripped, an optional [+], a digit 1-9 and at
    most 15 more digits; every other body is answered with status 400. *)
Theorem X14_create_body_accepted :
  forall b : Validation.body,
    Validation.validateCreateEmployee b = Validation.Next <->
    exists n e p ph,
      b = Validation.mkBody (JString n) (JString e) (JString p) (JString ph) /\
      Spec.not_blank n /\ Spec.email_shape e /\ Spec.not_blank p /\
      Spec.phone_shape (Spec.stripped ph).
Proof.
  intros [vn ve vp vph]. unfold Validation.validateCreateEmployee.
  cbn [b_name b_email b_position b_phone]. split.
  - intros H. do 7 pass_check H.
    repeat match goal with
    | Hs : Validation.isValidString _ = true |- _ =>
        apply isValidString_not_blank in Hs as [? [-> ?]]
    end.
    cbn [string_of] in *. do 4 eexists. split; [reflexivity |].
    repeat split; try assumption.
    + apply isValidEmail_shape; assumption.
    + apply Validation_isValidPhone_shape; assumption.
  - intros [n [e [p [ph [E [Hn [He [Hp Hph]]]]]]]].
    injection E as -> -> -> ->.
    apply (string_body_accepted n e p ph); assumption.
Qed.

(** X15: [validateUpdateEmployee] calls [next()] exactly for the bodies
    that define at least one of the four properties and whose defined
    properties are strings that satisfy the rule of the create request for
    that property; every other body is answered with status 400. *)
Theorem X15_update_body_accepted :
  forall b : Validation.body,
    Validation.validateUpdateEmployee b = Validation.Next <->
    ~ (b_name b = JUndefined /\ b_email b = JUndefined /\
       b_position b = JUndefined /\ b_phone b = JUndefined) /\
    Spec.absent_or Spec.not_blank (b_name b) /\
    Spec.absent_or Spec.email_shape (b_email b) /\
    Spec.absent_or Spec.not_blank (b_position b) /\
    Spec.absent_or (fun s => Spec.phone_shape (Spec.stripped s)) (b_phone b).
Proof.
  intros [vn ve vp vph]. unfold Validation.validateUpdateEmployee.
  cbn [b_name b_email b_position b_phone].
  assert (Hundef : forall v, is_undefined v = true <-> v = JUndefined).
  { intros v. destruct v; simpl; split; congruence. }
  assert (Hstr : forall v (ok : jsstring -> Prop),
             (forall s, ok s -> Spec.not_blank s) ->
             Spec.absent_or ok v ->
             is_undefined v = true \/
             (is_undefined v = false /\ Validation.isValidString v = true /\
              ok (string_of v))).
  { intros v ok Hok [-> | [s [-> Hs]]]; [left; reflexivity |].
    right. split; [reflexivity |]. split; [| exact Hs].
    apply isValidString_not_blank. exists s. auto. }
  split.
  - intros H. pass_check H.
    assert (Hone : forall v (ok : jsstring -> Prop),
               (is_undefined v = true \/
                (Validation.isValidString v = true /\ ok (string_of v))) ->
               Spec.absent_or ok v).
    { intros v ok [Hu | [Hs Hv]]; [left; apply Hundef; exact Hu |].
      apply isValidString_not_blank in Hs as [s [-> _]]. right. eauto. }
    split.
    + intros [-> [-> [-> ->]]]. discriminate.
    + repeat pass_check H; cbn [negb andb] in *;
        repeat split;
        try (apply Hone; auto; fail);
        try (apply Hone; right; split;
             [assumption
             | first [ apply isValidEmail_shape; assumption
                     | apply Validation_isValidPhone_shape; assumption
                     | match goal with
                       | Hs : Validation.isValidString ?v = true |- _ =>
                           apply isValidString_not_blank in Hs
                             as [? [-> ?]]; assumption
                       end ]]; fail).
  - intros [Hsome [Hn [He [Hp Hph]]]].
    apply (Hstr vn) in Hn; [| auto].
    apply (Hstr ve) in He; [| apply email_shape_not_blank].
    apply (Hstr vp) in Hp; [| auto].
    apply (Hstr vph) in Hph; [| apply phone_shape_not_blank].
    destruct (is_undefined vn && is_undefined ve && is_undefined vp
              && is_undefined vph) eqn:Hall.
    + exfalso. apply Hsome. rewrite !andb_true_iff, !Hundef in Hall. tauto.
    + destruct Hn as [-> | [-> [-> _]]], He as [-> | [-> [-> He]]],
        Hp as [-> | [-> [-> _]]], Hph as [-> | [-> [-> Hph]]];
        cbn [negb andb];
        try rewrite (proj2 (isValidEmail_shape _) He);
        try rewrite (proj2 (Validation_isValidPhone_shape _) Hph);
        reflexivity.
Qed.

(** X16: for every integer a double holds exactly, the path segment the
    client-side service writes for the id passes [validateEmployeeId], and
    [parseInt], which the middleware and the controller apply to the
    segment, gives the id back. *)
Theorem X16_id_path_segment_round_trip :
  forall z : Z,
    Spec.safe_integer z ->
    parseInt (FrontendEmployeeService.id_segment z) = Num z /\
    Validation.validateEmployeeId (FrontendEmployeeService.id_segment z)
    = Validation.Next.
Proof.
  intros z _. unfold FrontendEmployeeService.id_segment, toString.
  pose proof (parseInt_toString_int z) as H. split; [exact H |].
  unfold Validation.validateEmployeeId. rewrite H. reflexivity.
Qed.

Lemma X16_id_path_segment_round_trip_witness :
  parseInt (FrontendEmployeeService.id_segment 42) = Num 42 /\
  Validation.validateEmployeeId (FrontendEmployeeService.id_segment 42)
  = Validation.Next.
Proof.
  apply (X16_id_path_segment_round_trip 42). reflexivity.
Defined.

Lemma missing_not_blank (o : option jsstring) :
  EmployeeValidator.missing o = false <->
  Spec.present_and Spec.not_blank o.
Proof.
  unfold EmployeeValidator.missing, Spec.present_and, Spec.not_blank. split.
  - destruct o as [s |]; [| discriminate]. intros H.
    apply orb_false_iff in H as [_ H]. apply Nat.eqb_neq in H.
    exists s. split; [reflexivity |]. intros E. rewrite E in H. auto.
  - intros [s [-> H]]. apply orb_false_iff. split.
    + apply negb_false_iff. destruct s; [exfalso; auto | reflexivity].
    + apply Nat.eqb_neq. destruct (trim s); [contradiction | discriminate].
Qed.

(** The forms the client-side validator reports valid. *)
Lemma client_form_valid (employee : UpdateEmployeeRequest) :
  EmployeeValidator.isValid
    (EmployeeValidator.validateEmployeeData employee) = true <->
  Spec.present_and Spec.not_blank (u_name employee) /\
  Spec.present_and (fun s => Spec.email_shape (trim s)) (u_email employee) /\
  Spec.present_and Spec.not_blank (u_position employee) /\
  Spec.present_and Spec.phone_ok (u_phone employee).
Proof.
  destruct employee as [on oe op oph].
  unfold EmployeeValidator.validateEmployeeData.
  cbn [u_name u_email u_position u_phone EmployeeValidator.isValid].
  pose proof (missing_not_blank on) as Hn.
  pose proof (missing_not_blank oe) as He.
  pose proof (missing_not_blank op) as Hp.
  pose proof (missing_not_blank oph) as Hph.
  pose proof (isValidEmail_shape (trim (EmployeeValidator.value_of oe)))
    as Hshape. unfold Validation.isValidEmail in Hshape.
  pose proof (EmployeeValidator_isValidPhone_ok (EmployeeValidator.value_of oph))
    as Hok. unfold EmployeeValidator.isValidPhone in Hok. cbv zeta in Hok.
  cbv zeta.
  set (clean := Regex.remove_class Validation.phone_noise
                  (EmployeeValidator.value_of oph)) in *.
  assert (Hlen : (length clean <? 10)%nat = negb (10 <=? length clean)%nat).
  { destruct (Nat.ltb_spec (length clean) 10), (Nat.leb_spec 10 (length clean));
      simpl; auto; lia. }
  rewrite Hlen. clear Hlen.
  assert (Hemail : Spec.present_and (fun s => Spec.email_shape (trim s)) oe <->
                   EmployeeValidator.missing oe = false /\
                   Regex.test Validation.emailRegex
                     (trim (EmployeeValidator.value_of oe)) = true).
  { rewrite He, Hshape. unfold Spec.present_and. split.
    - intros [s [-> Hs]]. split; [| exact Hs]. exists s. split; auto.
      apply email_shape_not_blank in Hs. unfold Spec.not_blank in *.
      intros E. apply Hs. rewrite E. reflexivity.
    - intros [[s [-> _]] Hs]. eauto. }
  assert (Hphone : Spec.present_and Spec.phone_ok oph <->
                   EmployeeValidator.missing oph = false /\
                   Regex.test Validation.phoneRegex clean
                   && (10 <=? length clean)%nat = true).
  { rewrite Hph, Hok. unfold Spec.present_and. split.
    - intros [s [-> Hs]]. split; [| exact Hs]. exists s. split; auto.
      apply phone_shape_not_blank. apply Hs.
    - intros [[s [-> _]] Hs]. eauto. }
  rewrite Hemail, Hphone, <- Hn, <- Hp. clear.
  destruct (EmployeeValidator.missing on), (EmployeeValidator.missing oe),
    (Regex.test Validation.emailRegex _), (EmployeeValidator.missing op),
    (EmployeeValidator.missing oph), (Regex.test Validation.phoneRegex clean),
    (10 <=? length clean)%nat; simpl;
    repeat split; intros; try discriminate; try reflexivity;
    intuition discriminate.
Qed.

(** X17: the client-side [validateEmployeeData] reports a form valid
    exactly when its four properties are present, the name and the position
    not blank, the trimmed email of the shape [local@domain.tld], and the
    phone, once stripped, of the phone shape and at least 10 characters
    long; a valid form has no error message, an invalid one between one
    and four. *)
Theorem X17_client_form_valid :
  forall employee : UpdateEmployeeRequest,
    let result := EmployeeValidator.validateEmployeeData employee in
    (EmployeeValidator.isValid result = true <->
     Spec.present_and Spec.not_blank (u_name employee) /\
     Spec.present_and (fun s => Spec.email_shape (trim s)) (u_email employee) /\
     Spec.present_and Spec.not_blank (u_position employee) /\
     Spec.present_and Spec.phone_ok (u_phone employee))
    /\
    (EmployeeValidator.isValid result = true ->
     EmployeeValidator.errors result = [])
    /\
    (EmployeeValidator.isValid result = false ->
     1 <= length (EmployeeValidator.errors result) <= 4).
Proof.
  intros employee result. split; [apply client_form_valid |].
  subst result. unfold EmployeeValidator.validateEmployeeData.
  cbn [EmployeeValidator.isValid EmployeeValidator.errors]. cbv zeta.
  repeat match goal with
         | |- context [if ?c then _ else _] => destruct c
         end;
    simpl; split; intros; try discriminate; try reflexivity; lia.
Qed.

(** X18: a form the client-side validator reports valid, whose email has
    no whitespace at either end, is a body the server-side
    [validateCreateEmployee] and [validateUpdateEmployee] both let
    through. *)
Theorem X18_client_valid_is_server_valid :
  forall employee : UpdateEmployeeRequest,
    EmployeeValidator.isValid
      (EmployeeValidator.validateEmployeeData employee) = true ->
    (forall e, u_email employee = Some e -> trim e = e) ->
    Validation.validateCreateEmployee (EmployeeValidator.json_of employee)
    = Validation.Next /\
    Validation.validateUpdateEmployee (EmployeeValidator.json_of employee)
    = Validation.Next.
Proof.
  intros employee Hvalid Htrim.
  apply client_form_valid in Hvalid
    as [[n [En Hn]] [[e [Ee He]] [[p [Ep Hp]] [ph [Eph Hph]]]]].
  destruct employee as [on oe op oph].
  cbn [u_name u_email u_position u_phone] in *. subst.
  rewrite (Htrim e eq_refl) in He. destruct Hph as [Hph _].
  apply (string_body_accepted n e p ph); assumption.
Qed.

Lemma X18_client_valid_is_server_valid_witness :
  Validation.validateCreateEmployee
    (EmployeeValidator.json_of Sample.valid_form) = Validation.Next /\
  Validation.validateUpdateEmployee
    (EmployeeValidator.json_of Sample.valid_form) = Validation.Next.
Proof.
  apply (X18_client_valid_is_server_valid Sample.valid_form).
  - reflexivity.
  - intros e H. injection H as <-. reflexivity.
Defined.

End ValidationMore.

(** ** The controller and the routes *)

Section RouteFacts.
Import JS Promise Types Sqlite.
Import EmployeeController(Success, Failure, OneEmployee, DeletedId, status_of).

Lemma to_digits_chars (f : nat) (n : Z) (acc : jsstring) :
  (0 <= n)%Z ->
  Forall (fun c => exists d, (0 <= d < 10)%Z /\ c = digit_char d) acc ->
  Forall (fun c => exists d, (0 <= d < 10)%Z /\ c = digit_char d)
    (to_digits f n acc).
Proof.
  revert n acc. induction f as [| f IH]; intros n acc Hn Hacc;
    cbn [to_digits].
  - constructor; [| exact Hacc]. exists (n mod 10)%Z.
    split; [apply Z.mod_pos_bound; lia | reflexivity].
  - assert (Hcons : Forall (fun c => exists d, (0 <= d < 10)%Z /\ c = digit_char d)
                      (digit_char (n mod 10) :: acc)).
    { constructor; [| exact Hacc]. exists (n mod 10)%Z.
      split; [apply Z.mod_pos_bound; lia | reflexivity]. }
    destruct (n <? 10)%Z; [exact Hcons |].
    apply IH; [apply Z.div_pos; lia | exact Hcons].
Qed.

(** The text of an integer holds no letter [U]. *)
Lemma toString_int_no_U (z : Z) : ~ In "U"%char (toString_int z).
Proof.
  assert (Hd : forall n, (0 <= n)%Z ->
                 ~ In "U"%char (to_digits (Z.to_nat (Z.log2 n)) n [])).
  { intros n Hn Hin.
    pose proof (to_digits_chars (Z.to_nat (Z.log2 n)) n [] Hn (Forall_nil _))
      as Hall.
    rewrite Forall_forall in Hall. destruct (Hall _ Hin) as [d [Hd E]].
    each_digit Hd; discriminate E. }
  unfold toString_int. destruct (Z.ltb_spec z 0).
  - intros [E | Hin]; [discriminate E |]. apply (Hd (- z)%Z); [lia | exact Hin].
  - apply Hd; assumption.
Qed.

Lemma includes_needs_first (s q : jsstring) (c : ascii) :
  ~ In c s -> includes s (c :: q) = false.
Proof.
  intros Hc. apply not_true_iff_false. intros H.
  apply includes_spec in H as [pre [post E]]. apply Hc. rewrite E.
  apply in_or_app. right. left. reflexivity.
Qed.

Lemma includes_suffix (pre post q : jsstring) :
  includes post q = true -> includes (pre ++ post) q = true.
Proof.
  intros H. apply includes_spec in H as [a [b ->]]. apply includes_spec.
  exists (pre ++ a), b. rewrite <- app_assoc. reflexivity.
Qed.

(** How the controller reads the "does not exist" error of the service. *)
Lemma does_not_exist_checks (n : jsnum) :
  includes (message (EmployeeService.does_not_exist n))
    (js "UNIQUE constraint failed") = false /\
  includes (message (EmployeeService.does_not_exist n))
    (js "does not exist") = true.
Proof.
  unfold EmployeeService.does_not_exist, message. split.
  - destruct n as [| z]; [reflexivity |].
    apply (includes_needs_first _ (js "NIQUE constraint failed") "U"%char).
    rewrite !in_app_iff. intros [H | [H | H]].
    + vm_compute in H. intuition discriminate.
    + apply (toString_int_no_U z H).
    + vm_compute in H. intuition discriminate.
  - rewrite app_assoc. apply includes_suffix. reflexivity.
Qed.

(** A body [validateUpdateEmployee] lets through defines a field, as a
    string. *)
Lemma update_body_names_a_field (b : Validation.body) :
  Validation.validateUpdateEmployee b = Validation.Next ->
  Spec.names_a_field (Validation.update_of b).
Proof.
  destruct b as [vn ve vp vph]. unfold Validation.validateUpdateEmployee.
  cbn [Validation.b_name Validation.b_email Validation.b_position
       Validation.b_phone].
  intros H. pass_check H. unfold Spec.names_a_field, Validation.update_of.
  cbn [u_name u_email u_position u_phone Validation.b_name Validation.b_email
       Validation.b_position Validation.b_phone].
  repeat pass_check H;
    repeat match goal with
    | Hs : Validation.isValidString _ = true |- _ =>
        apply isValidString_not_blank in Hs as [? [-> ?]]
    end;
    cbn [Validation.optional_string];
    try (left; discriminate);
    try (right; left; discriminate);
    try (right; right; left; discriminate);
    try (right; right; right; discriminate).
Qed.

(** X19: [POST /api/employees] answers 400 with the middleware's error
    when [validateCreateEmployee] stops the body; for a body it lets
    through, 409 "Email already exists" with the table unchanged when a row
    stores the normalised email, and otherwise 201 with the stored row, the
    table grown by that row. *)
Theorem X19_post_answers :
  forall (b : Validation.body) (now : timestamp) (t : table),
    (forall e m,
        Validation.validateCreateEmployee b = Validation.Status400 e m ->
        Routes.post b now t = (Failure 400 (js e) (js m), t))
    /\
    (Validation.validateCreateEmployee b = Validation.Next ->
     (In (toLowerCase (trim (c_email (Validation.request_of b))))
         (map email (rows t)) ->
      Routes.post b now t =
      (Failure 409 (js "Email already exists")
         (js "An employee with this email already exists"), t))
     /\
     (Spec.email_free t (c_email (Validation.request_of b)) ->
      Routes.post b now t =
      (Success 201 (OneEmployee (Spec.stored (Validation.request_of b) now t))
         (js "Employee created successfully"),
       mkTable (rows t ++ [Spec.stored (Validation.request_of b) now t])
         (next_rowid t)))).
Proof.
  intros b now t. unfold Routes.post. split.
  - intros e m ->. reflexivity.
  - intros ->. unfold EmployeeController.createEmployee. split.
    + intros Htaken. rewrite (service_create_taken _ now t Htaken).
      reflexivity.
    + intros Hfree. rewrite (service_create_fresh _ now t Hfree).
      reflexivity.
Qed.

Lemma X19_post_answers_witness :
  Routes.post (EmployeeValidator.json_of Sample.valid_form) 9%N
    Sample.two_rows =
  (Success 201
     (OneEmployee
        (Spec.stored
           (Validation.request_of (EmployeeValidator.json_of Sample.valid_form))
           9%N Sample.two_rows))
     (js "Employee created successfully"),
   mkTable
     (rows Sample.two_rows
      ++ [Spec.stored
            (Validation.request_of
               (EmployeeValidator.json_of Sample.valid_form))
            9%N Sample.two_rows])
     (next_rowid Sample.two_rows)).
Proof.
  apply (proj2 (proj2 (X19_post_answers
                         (EmployeeValidator.json_of Sample.valid_form) 9%N
                         Sample.two_rows) eq_refl)).
  unfold Spec.email_free. vm_compute. intuition discriminate.
Defined.

(** X20: [PUT /api/employees/:id] answers 400 when the id does not parse
    to a number or [validateUpdateEmployee] stops the body; otherwise 404
    when no row has the id, the table unchanged; for an existing row, 409
    with the table unchanged or 200 with the row as it is stored after the
    update. *)
Theorem X20_put_answers :
  forall (id_param : jsstring) (b : Validation.body) (now : timestamp)
         (t : table),
    (parseInt id_param = NaN ->
     Routes.put id_param b now t =
     (Failure 400 (js "Invalid employee ID")
        (js "Employee ID must be a number"), t))
    /\
    (forall i, parseInt id_param = Num i ->
       (forall e m,
           Validation.validateUpdateEmployee b = Validation.Status400 e m ->
           Routes.put id_param b now t = (Failure 400 (js e) (js m), t))
       /\
       (Validation.validateUpdateEmployee b = Validation.Next ->
        (Database.getEmployeeById i t = Resolve None ->
         Routes.put id_param b now t =
         (Failure 404 (js "Employee not found")
            (message (EmployeeService.does_not_exist (Num i))), t))
        /\
        (forall old,
            Database.getEmployeeById i t = Resolve (Some old) ->
            Routes.put id_param b now t =
            (Failure 409 (js "Email already exists")
               (js "An employee with this email already exists"), t)
            \/
            exists t',
              Routes.put id_param b now t =
              (Success 200
                 (OneEmployee
                    (Spec.updated
                       (EmployeeService.updateData_of (Validation.update_of b))
                       now old))
                 (js "Employee updated successfully"), t') /\
              Database.getEmployeeById i t' =
              Resolve
                (Some (Spec.updated
                         (EmployeeService.updateData_of
                            (Validation.update_of b)) now old))))).
Proof.
  intros id_param b now t. unfold Routes.put, Validation.validateEmployeeId.
  split.
  - intros ->. reflexivity.
  - intros i Hid. rewrite Hid. cbn [isNaN]. split.
    + intros e m ->. reflexivity.
    + intros Hb. rewrite Hb. unfold EmployeeController.updateEmployee.
      rewrite Hid. split.
      * intros Hnone. unfold EmployeeService.updateEmployee.
        cbn [EmployeeService.database_getEmployeeById]. rewrite Hnone.
        destruct (does_not_exist_checks (Num i)) as [-> ->]. reflexivity.
      * intros old Hold.
        destruct (service_update_existing i (Validation.update_of b) now t old
                    Hold (update_body_names_a_field b Hb))
          as [-> | [t' [-> Hread]]].
        -- left. reflexivity.
        -- right. exists t'. split; [reflexivity | exact Hread].
Qed.

Lemma X20_put_answers_witness :
  Routes.put (js "9")
    (Validation.mkBody (JString (js "Ann")) JUndefined JUndefined JUndefined)
    9%N Sample.two_rows =
  (Failure 404 (js "Employee not found")
     (message (EmployeeService.does_not_exist (Num 9))), Sample.two_rows).
Proof.
  apply (proj1 (proj2 (proj2 (X20_put_answers (js "9")
                                (Validation.mkBody (JString (js "Ann"))
                                   JUndefined JUndefined JUndefined)
                                9%N Sample.two_rows) 9%Z eq_refl) eq_refl)).
  reflexivity.
Defined.

(** X21: [GET /api/employees/:id] and [DELETE /api/employees/:id] answer
    400 when the id does not parse to a number, 404 "Employee not found"
    when no row has the id, the table unchanged, and 200 otherwise: the get
    with the row, the delete with the id, after which no row has the id. *)
Theorem X21_get_and_delete_answers :
  forall (id_param : jsstring) (t : table),
    (parseInt id_param = NaN ->
     Routes.get_id id_param t =
     Failure 400 (js "Invalid employee ID") (js "Employee ID must be a number")
     /\
     Routes.delete id_param t =
     (Failure 400 (js "Invalid employee ID")
        (js "Employee ID must be a number"), t))
    /\
    (forall i, parseInt id_param = Num i ->
       (Database.getEmployeeById i t = Resolve None ->
        Routes.get_id id_param t =
        Failure 404 (js "Employee not found")
          (message (EmployeeService.does_not_exist (Num i)))
        /\
        Routes.delete id_param t =
        (Failure 404 (js "Employee not found")
           (message (EmployeeService.does_not_exist (Num i))), t))
       /\
       (forall r,
           Database.getEmployeeById i t = Resolve (Some r) ->
           Routes.get_id id_param t =
           Success 200 (OneEmployee r) (js "Employee retrieved successfully")
           /\
           exists t',
             Routes.delete id_param t =
             (Success 200 (DeletedId (Num i))
                (js "Employee deleted successfully"), t') /\
             Database.getEmployeeById i t' = Resolve None)).
Proof.
  intros id_param t.
  unfold Routes.get_id, Routes.delete, Validation.validateEmployeeId.
  split.
  - intros ->. split; reflexivity.
  - intros i Hid. rewrite Hid. cbn [isNaN].
    unfold EmployeeController.getEmployeeById,
      EmployeeController.deleteEmployee, EmployeeService.getEmployeeById.
    rewrite Hid. cbn [EmployeeService.database_getEmployeeById]. split.
    + intros Hnone. rewrite Hnone. split; [reflexivity |].
      unfold EmployeeService.deleteEmployee.
      cbn [EmployeeService.database_getEmployeeById]. rewrite Hnone.
      destruct (does_not_exist_checks (Num i)) as [_ ->]. reflexivity.
    + intros r Hr. rewrite Hr. split; [reflexivity |].
      destruct (service_delete_existing i t r Hr) as [t' [-> [Hgone _]]].
      exists t'. split; [reflexivity | exact Hgone].
Qed.

Lemma X21_get_and_delete_answers_witness :
  Routes.get_id (js "1") Sample.two_rows =
  Success 200 (OneEmployee Sample.john_row)
    (js "Employee retrieved successfully")
  /\
  exists t',
    Routes.delete (js "1") Sample.two_rows =
    (Success 200 (DeletedId (Num 1)) (js "Employee deleted successfully"), t')
    /\ Database.getEmployeeById 1 t' = Resolve None.
Proof.
  apply (proj2 (proj2 (X21_get_and_delete_answers (js "1") Sample.two_rows)
                  1%Z eq_refl) Sample.john_row).
  reflexivity.
Defined.

End RouteFacts.

(** ** From the client to the repository *)

Section ListFacts.
Import JS Promise Types Sqlite.

(** The controller reads back the numbers the client-side service
    writes; [0] and [NaN] are not written. *)
Lemma parse_written_number (o : option jsnum) :
  Database.bound
    (EmployeeController.parse_param
       (match o with
        | Some n => if truthy_num n then Some (toString n) else None
        | None => None
        end)) = Database.bound o.
Proof.
  destruct o as [[| z] |]; try reflexivity.
  cbn [truthy_num]. destruct (Z.eqb_spec z 0) as [-> | Hz]; [reflexivity |].
  cbn [negb EmployeeController.parse_param toString].
  rewrite toString_int_truthy, parseInt_toString_int. reflexivity.
Qed.

Lemma conditions_of_written (sp : option SearchEmployeeRequest)
    (lim off : option jsnum) :
  Database.conditions_of
    (Some (mkSearch
             (match Database.opt_field sp sp_query with
              | Some v => if truthy_str v then Some v else None
              | None => None
              end)
             (match Database.opt_field sp sp_position with
              | Some v => if truthy_str v then Some v else None
              | None => None
              end) lim off)) =
  Database.conditions_of sp.
Proof.
  destruct sp as [[[[| c q] |] [[| d p] |] l o] |]; reflexivity.
Qed.

(** X22: for limits and offsets a double holds exactly, the search
    request the controller builds from the parameters the client-side
    [getEmployees] sets gives the service the same rows and the same total
    as the client's own request: a number is read back as written, and the
    values the client leaves out (empty strings, 0, NaN) are the ones the
    repository ignores. *)
Theorem X22_search_request_round_trip :
  forall (sp : option SearchEmployeeRequest) (t : table),
    Spec.safe_number (Database.opt_field sp sp_limit) ->
    Spec.safe_number (Database.opt_field sp sp_offset) ->
    EmployeeService.getEmployees
      (Some (EmployeeController.searchParams_of
               (FrontendEmployeeService.getEmployees_params sp))) t =
    EmployeeService.getEmployees sp t.
Proof.
  intros sp t _ _.
  unfold EmployeeService.getEmployees, Database.getEmployees,
    Database.getEmployeeCount, EmployeeController.searchParams_of,
    FrontendEmployeeService.getEmployees_params.
  cbn [EmployeeController.q_query EmployeeController.q_position
       EmployeeController.q_limit EmployeeController.q_offset].
  rewrite conditions_of_written.
  cbn [Database.opt_field sp_limit sp_offset].
  rewrite !parse_written_number. reflexivity.
Qed.

Lemma X22_search_request_round_trip_witness :
  EmployeeService.getEmployees
    (Some (EmployeeController.searchParams_of
             (FrontendEmployeeService.getEmployees_params
                (Some Sample.second_page)))) Sample.three_rows =
  EmployeeService.getEmployees (Some Sample.second_page) Sample.three_rows.
Proof.
  apply (X22_search_request_round_trip (Some Sample.second_page)
           Sample.three_rows); reflexivity.
Defined.

(** X23: when the list endpoint answers 200, [total] is the number of
    rows that pass the two filters, whatever the window; the page holds at
    most [total] rows; [limit] is the limit parameter when it parses to a
    number other than 0, and then, if positive, bounds the page, and is
    [total] otherwise. *)
Theorem X23_list_metadata :
  forall (qs : EmployeeController.query_string) (t : table)
         (employees : list Employee) (pg : EmployeeController.pagination),
    EmployeeController.getEmployees qs t =
    EmployeeController.Json200 employees pg ->
    Database.getEmployeeCount
      (Some (mkSearch (EmployeeController.q_query qs)
               (EmployeeController.q_position qs) None None)) t =
    Resolve (EmployeeController.total pg) /\
    (Z.of_nat (length employees) <= EmployeeController.total pg)%Z /\
    (forall n,
        EmployeeController.parse_param (EmployeeController.q_limit qs)
        = Some (Num n) -> n <> 0%Z ->
        EmployeeController.limit pg = n /\
        ((0 < n)%Z -> (Z.of_nat (length employees) <= n)%Z)) /\
    (truthy_opt_num
       (EmployeeController.parse_param (EmployeeController.q_limit qs))
     = false ->
     EmployeeController.limit pg = EmployeeController.total pg).
Proof.
  intros [q p ql qo] t employees pg.
  unfold EmployeeController.getEmployees, EmployeeService.getEmployees,
    EmployeeController.searchParams_of.
  cbn [EmployeeController.q_query EmployeeController.q_position
       EmployeeController.q_limit EmployeeController.q_offset sp_limit
       sp_offset].
  set (lim := EmployeeController.parse_param ql).
  set (off := EmployeeController.parse_param qo).
  destruct (Database.getEmployees (Some (mkSearch q p lim off)) t)
    as [l | err] eqn:Hget; [| discriminate].
  apply getEmployees_part in Hget as [Hscan [k [n [-> Hlim]]]].
  cbn [Database.opt_field sp_query] in Hscan.
  rewrite (getEmployeeCount_filters q p lim off),
    (getEmployeeCount_filters q p None None), Hscan.
  intros H. injection H as <- <-.
  cbn [EmployeeController.total EmployeeController.limit].
  rewrite (conditions_of_filters q p lim off) in *.
  split; [reflexivity |]. split.
  - unfold Spec.slice.
    rewrite length_firstn, length_skipn, order_by_length. lia.
  - split.
    + intros z Hz Hne. rewrite Hz. cbn [or_num].
      destruct (Z.eqb_spec z 0); [contradiction |].
      split; [reflexivity |]. intros Hpos.
      rewrite (Hlim z).
      * unfold Spec.slice. rewrite length_firstn. lia.
      * cbn [Database.opt_field sp_limit]. rewrite Hz. cbn [Database.bound].
        destruct (Z.eqb_spec z 0); [contradiction | reflexivity].
      * exact Hpos.
    + intros Hfalsy. destruct lim as [[| z] |]; try reflexivity.
      cbn [truthy_opt_num truthy_num] in Hfalsy. cbn [or_num].
      destruct (z =? 0)%Z; [reflexivity | discriminate].
Qed.

Lemma X23_list_metadata_witness :
  exists employees pg,
    EmployeeController.getEmployees Sample.first_page Sample.three_rows =
    EmployeeController.Json200 employees pg /\
    Database.getEmployeeCount (Some (mkSearch None None None None))
      Sample.three_rows = Resolve (EmployeeController.total pg) /\
    (Z.of_nat (length employees) <= EmployeeController.total pg)%Z /\
    (forall n,
        EmployeeController.parse_param (Some (js "1")) = Some (Num n) ->
        n <> 0%Z ->
        EmployeeController.limit pg = n /\
        ((0 < n)%Z -> (Z.of_nat (length employees) <= n)%Z)) /\
    (truthy_opt_num (EmployeeController.parse_param (Some (js "1"))) = false ->
     EmployeeController.limit pg = EmployeeController.total pg).
Proof.
  do 2 eexists. split; [reflexivity |].
  apply (X23_list_metadata Sample.first_page Sample.three_rows).
  reflexivity.
Defined.

(** X24: for a limit and an offset parameter that parse to numbers a
    double holds exactly, and filters with which read-many alone resolves,
    the list endpoint answers 500 exactly when the offset parses to a number
    other than 0 and the limit does not; in every other case it answers
    200. *)
Theorem X24_list_fails_only_on_offset_without_limit :
  forall (qs : EmployeeController.query_string) (t : table)
         (all : list Employee),
    Spec.safe_number
      (EmployeeController.parse_param (EmployeeController.q_limit qs)) ->
    Spec.safe_number
      (EmployeeController.parse_param (EmployeeController.q_offset qs)) ->
    Database.getEmployees
      (Some (mkSearch (EmployeeController.q_query qs)
               (EmployeeController.q_position qs) None None)) t
    = Resolve all ->
    ((exists msg,
         EmployeeController.getEmployees qs t = EmployeeController.Json500 msg)
     <->
     truthy_opt_num
       (EmployeeController.parse_param (EmployeeController.q_offset qs)) = true
     /\
     truthy_opt_num
       (EmployeeController.parse_param (EmployeeController.q_limit qs)) = false).
Proof.
  intros [q p ql qo] t all.
  unfold EmployeeController.getEmployees, EmployeeService.getEmployees,
    EmployeeController.searchParams_of.
  cbn [EmployeeController.q_query EmployeeController.q_position
       EmployeeController.q_limit EmployeeController.q_offset].
  set (lim := EmployeeController.parse_param ql).
  set (off := EmployeeController.parse_param qo).
  intros Sl So. rewrite getEmployees_unwindowed.
  rewrite (getEmployeeCount_filters q p lim off).
  unfold Database.getEmployees, select_all. rewrite scan_conditions_of.
  cbn [Database.opt_field sp_limit sp_offset sp_query].
  destruct (Spec.scan_refused q t); intros Hall; [discriminate Hall |].
  clear Hall.
  destruct lim as [[| n] |], off as [[| k] |];
    cbn [Database.bound truthy_opt_num truthy_num Spec.safe_number] in *;
    try destruct (Z.eqb_spec n 0); try destruct (Z.eqb_spec k 0);
    try rewrite (safe_integer_int64 n Sl);
    try rewrite (safe_integer_int64 k So);
    cbn [negb];
    try (destruct (Z.eqb_spec n 0); [contradiction |]);
    (split;
     [ intros [msg H]; try discriminate H; split; reflexivity
     | intros [H1 H2]; try discriminate; eexists; reflexivity ]).
Qed.

Lemma X24_list_fails_only_on_offset_without_limit_witness :
  (exists msg,
      EmployeeController.getEmployees
        (EmployeeController.mkQuery (Some (js "example")) None
           None (Some (js "1")))
        Sample.three_rows = EmployeeController.Json500 msg)
  <->
  truthy_opt_num (EmployeeController.parse_param (Some (js "1"))) = true
  /\
  truthy_opt_num (EmployeeController.parse_param None) = false.
Proof.
  eapply (X24_list_fails_only_on_offset_without_limit
            (EmployeeController.mkQuery (Some (js "example")) None
               None (Some (js "1")))
            Sample.three_rows); reflexivity.
Defined.

End ListFacts.

(** ** Phone rule and page flag *)

Section MoreFacts.
Import JS Promise Types Sqlite.

(** X25: the client-side [isValidPhone] accepts exactly the phones that,
    once spaces, dashes and parentheses are stripped, are an optional [+],
    a digit 1-9 and at most 15 more digits, and are at least 10 characters
    long; the server-side [isValidPhone] accepts exactly those of that
    shape, of any length, so it accepts every phone the client accepts; a
    phone it accepts has 1 to 17 characters once stripped. *)
Theorem X25_phone_rule_of_both_validators :
  forall phone : jsstring,
    (EmployeeValidator.isValidPhone phone = true <->
     Spec.phone_shape (Spec.stripped phone)
     /\ 10 <= length (Spec.stripped phone)) /\
    (Validation.isValidPhone phone = true <->
     Spec.phone_shape (Spec.stripped phone)) /\
    (EmployeeValidator.isValidPhone phone = true ->
     Validation.isValidPhone phone = true) /\
    (Validation.isValidPhone phone = true ->
     1 <= length (Spec.stripped phone) <= 17).
Proof.
  intros phone.
  pose proof (EmployeeValidator_isValidPhone_ok phone) as Hc.
  pose proof (Validation_isValidPhone_shape phone) as Hs.
  unfold Spec.phone_ok in Hc.
  split; [exact Hc |]. split; [exact Hs |]. split.
  - intros H. apply Hs. apply Hc in H. tauto.
  - intros H. apply Hs in H.
    destruct H as [sg [d [ds [-> [Hsg [_ [_ Hl]]]]]]].
    rewrite length_app. simpl. destruct Hsg as [-> | ->]; simpl; lia.
Qed.

Lemma slice_nonempty (k n : nat) (l : list Employee) :
  0 < n -> (Spec.slice k n l <> [] <-> k < length l).
Proof.
  intros Hn. unfold Spec.slice. split.
  - intros H. destruct (Nat.lt_ge_cases k (length l)) as [Hlt | Hge]; auto.
    exfalso. apply H. rewrite skipn_all2 by exact Hge.
    apply firstn_nil.
  - intros Hlt E. apply (f_equal (@length Employee)) in E.
    rewrite length_firstn, length_skipn in E. simpl in E. lia.
Qed.

(** X26: for a positive limit and a positive offset whose sum is a number
    a double holds exactly, the flag [hasMore] of a 200 answer of the list
    endpoint is true exactly when the page that follows, at the offset plus
    the limit, is not empty. *)
Theorem X26_hasMore_is_next_page_nonempty :
  forall (qs : EmployeeController.query_string) (n k : Z) (t : table)
         (employees : list Employee) (pg : EmployeeController.pagination),
    EmployeeController.parse_param (EmployeeController.q_limit qs)
    = Some (Num n) ->
    EmployeeController.parse_param (EmployeeController.q_offset qs)
    = Some (Num k) ->
    (0 < n)%Z -> (0 < k)%Z ->
    Spec.safe_integer (k + n) ->
    EmployeeController.getEmployees qs t =
    EmployeeController.Json200 employees pg ->
    exists next,
      Database.getEmployees
        (Some (mkSearch (EmployeeController.q_query qs)
                 (EmployeeController.q_position qs)
                 (Some (Num n)) (Some (Num (k + n))))) t = Resolve next /\
      (EmployeeController.hasMore pg = true <-> next <> []).
Proof.
  intros [q p ql qo] n k t employees pg Hl Ho Hn Hk Hsafe.
  unfold EmployeeController.getEmployees, EmployeeService.getEmployees,
    EmployeeController.searchParams_of.
  cbn [EmployeeController.q_query EmployeeController.q_position
       EmployeeController.q_limit EmployeeController.q_offset sp_limit
       sp_offset] in *.
  rewrite Hl, Ho.
  destruct (Database.getEmployees (Some (mkSearch q p (Some (Num n))
                                           (Some (Num k)))) t)
    as [l | err] eqn:Hget; [| discriminate].
  apply getEmployees_part in Hget as [Hscan _].
  cbn [Database.opt_field sp_query] in Hscan.
  rewrite (getEmployeeCount_filters q p (Some (Num n)) (Some (Num k))), Hscan.
  intros Hresp. injection Hresp as _ <-.
  cbn [EmployeeController.hasMore or_num].
  destruct (Z.eqb_spec n 0); [lia |]. destruct (Z.eqb_spec k 0); [lia |].
  assert (Sn : Spec.safe_integer n) by (unfold Spec.safe_integer in *; lia).
  rewrite (getEmployees_windowed q p n (k + n) t);
    [| lia | apply safe_integer_int64; exact Sn
     | apply safe_integer_int64; exact Hsafe].
  rewrite Hscan. eexists. split; [reflexivity |].
  unfold apply_limit, apply_offset. destruct (Z.ltb_spec n 0); [lia |].
  set (all := filter _ (rows t)).
  change (firstn (Z.to_nat n)
            (skipn (Z.to_nat (k + n)) (order_by_created_at_desc all)))
    with (Spec.slice (Z.to_nat (k + n)) (Z.to_nat n)
            (order_by_created_at_desc all)).
  rewrite slice_nonempty by lia. rewrite order_by_length, Z.ltb_lt. lia.
Qed.

Lemma X26_hasMore_is_next_page_nonempty_witness :
  exists employees pg next,
    EmployeeController.getEmployees
      (EmployeeController.mkQuery None None (Some (js "1")) (Some (js "1")))
      Sample.three_rows = EmployeeController.Json200 employees pg /\
    Database.getEmployees
      (Some (mkSearch None None (Some (Num 1)) (Some (Num (1 + 1)))))
      Sample.three_rows = Resolve next /\
    (EmployeeController.hasMore pg = true <-> next <> []).
Proof.
  do 2 eexists.
  destruct (X26_hasMore_is_next_page_nonempty
              (EmployeeController.mkQuery None None (Some (js "1"))
                 (Some (js "1")))
              1 1 Sample.three_rows _ _ eq_refl eq_refl eq_refl eq_refl
              eq_refl eq_refl) as [next H].
  exists next. split; [reflexivity | exact H].
Defined.

End MoreFacts.
